(** * status.py: a shallow embedding and its verified properties

    The program walks a directory tree of molecular-dynamics outputs,
    collects the names of the usable structure files, tallies for every
    (functional, structure, temperature, ensemble) how many iterations are
    completed or not started, and prints a grouped table.

    Modelling conventions

    - File and directory names are [string]s over ASCII characters; the
      library functions of the interpreter ([int], [str.split],
      [os.path.splitext], [os.path.join], [re.match], [str.format]) are
      modelled on such names, for a POSIX platform ([os.sep] is "/").
    - Python integers are [Z].
    - A [dict] is an association list in insertion order, as Python
      dictionaries iterate; a [set] is a [gset].
    - Exceptions are values of an error monad.
    - The file system is seen through the two observations the program
      makes: the sequence produced by [os.walk] and the predicate
      [os.path.isfile]. *)

From Stdlib Require Import Ascii String.
From stdpp Require Import base decidable option numbers list strings gmap sorting pretty.

Local Open Scope string_scope.
Local Open Scope list_scope.
Local Open Scope Z_scope.

(** ** Strings *)

Module Str.

(** [s.endswith(suf)] *)
Fixpoint endswith (s suf : string) : bool :=
  String.eqb s suf ||
  match s with
  | EmptyString => false
  | String _ s' => endswith s' suf
  end.

(** [s.startswith(pre)] *)
Definition startswith (s pre : string) : bool := String.prefix pre s.

(** [sub in s] *)
Fixpoint contains (s sub : string) : bool :=
  startswith s sub ||
  match s with
  | EmptyString => false
  | String _ s' => contains s' sub
  end.

(** [s.split(c)] for a separator of one character. *)
Fixpoint split (c : ascii) (s : string) : list string :=
  match s with
  | EmptyString => [EmptyString]
  | String a s' =>
      if Ascii.eqb a c then EmptyString :: split c s'
      else match split c s' with
           | [] => [String a EmptyString]
           | w :: ws => String a w :: ws
           end
  end.

(** [s.rfind(c)]: the last index of [c] in [s], or [-1]. *)
Fixpoint rfind (c : ascii) (s : string) : Z :=
  match s with
  | EmptyString => -1
  | String a s' =>
      let r := rfind c s' in
      if 0 <=? r then r + 1 else if Ascii.eqb a c then 0 else -1
  end.

(** [s[:n]] for [0 <= n]. *)
Definition take (n : nat) (s : string) : string := String.substring 0 n s.

(** [s.ljust(w)], which is what the format specification [{:<w}] does. *)
Definition ljust (w : nat) (s : string) : string :=
  s +:+ string_of_list_ascii (repeat " "%char (w - String.length s)).

Definition is_digit (a : ascii) : bool :=
  (48 <=? nat_of_ascii a)%nat && (nat_of_ascii a <=? 57)%nat.

Definition digit_val (a : ascii) : Z := Z.of_nat (nat_of_ascii a) - 48.

(** The ASCII white space that [int] skips: tab, line feed, vertical tab,
    form feed, carriage return and space. *)
Definition is_space (a : ascii) : bool :=
  ((9 <=? nat_of_ascii a)%nat && (nat_of_ascii a <=? 13)%nat)
  || (nat_of_ascii a =? 32)%nat.

Fixpoint all_chars (p : ascii → bool) (s : string) : bool :=
  match s with
  | EmptyString => true
  | String a s' => p a && all_chars p s'
  end.

Fixpoint any_char (p : ascii → bool) (s : string) : bool :=
  match s with
  | EmptyString => false
  | String a s' => p a || any_char p s'
  end.

Fixpoint lstrip (s : string) : string :=
  match s with
  | String a s' => if is_space a then lstrip s' else s
  | EmptyString => EmptyString
  end.

End Str.

(** ** Exceptions *)

Inductive exn := ValueError | KeyError | IndexError.

Inductive result (A : Type) :=
| Ok (a : A)
| Raise (e : exn).
Arguments Ok {A} a.
Arguments Raise {A} e.

Global Instance result_ret : MRet result := λ A a, Ok a.
Global Instance result_bind : MBind result := λ A B k m,
  match m with
  | Ok a => k a
  | Raise e => Raise e
  end.

Definition is_ok {A} (m : result A) : Prop := ∃ a, m = Ok a.

Global Instance exn_eq_dec : EqDecision exn.
Proof. solve_decision. Defined.

Global Instance result_eq_dec {A} `{EqDecision A} : EqDecision (result A).
Proof. solve_decision. Defined.

(** ** Library functions of the interpreter *)

Module Py.

(** The digits of an integer literal as [int] reads them: digits with
    single underscores between them.  [prev] tells that the previous
    character was an underscore. *)
Fixpoint scan_digits (acc : Z) (prev : bool) (s : string) : option (Z * string) :=
  match s with
  | EmptyString => if prev then None else Some (acc, EmptyString)
  | String a s' =>
      if Str.is_digit a then scan_digits (10 * acc + Str.digit_val a) false s'
      else if Ascii.eqb a "_" then
             (if prev then None else scan_digits acc true s')
           else (if prev then None else Some (acc, s))
  end.

(** [int(s)] in base 10: white space, an optional sign, digits, white
    space.  [ValueError] otherwise.  (The interpreter's limit on the
    number of digits, 4300 by default, is above the length of any path
    segment and is not modelled.) *)
Definition int (s : string) : result Z :=
  let s1 := Str.lstrip s in
  let '(sign, s2) :=
    match s1 with
    | String c r =>
        if Ascii.eqb c "+" then (1, r)
        else if Ascii.eqb c "-" then (-1, r)
        else (1, s1)
    | EmptyString => (1, s1)
    end in
  match s2 with
  | String a _ =>
      if Str.is_digit a then
        match scan_digits 0 false s2 with
        | Some (v, rest) =>
            if Str.all_chars Str.is_space rest then Ok (sign * v)
            else Raise ValueError
        | None => Raise ValueError
        end
      else Raise ValueError
  | EmptyString => Raise ValueError
  end.

(** [f"{n:02d}"]: decimal, padded with zeros on the left to width 2, the
    sign counting for the width. *)
Definition format_02d (n : Z) : string :=
  if (0 <=? n) && (n <? 10) then "0" +:+ pretty n else pretty n.

(** [re.match(r'^\d{2}_aimd_', file)] *)
Definition re_match_aimd (file : string) : bool :=
  match file with
  | String a (String b rest) =>
      Str.is_digit a && Str.is_digit b && Str.startswith rest "_aimd_"
  | _ => false
  end.

(** [os.path.join(a, b)] (posixpath). *)
Definition os_path_join (a b : string) : string :=
  if Str.startswith b "/" then b
  else if String.eqb a "" || Str.endswith a "/" then a +:+ b
  else a +:+ "/" +:+ b.

(** [os.path.splitext(p)[0]] (genericpath._splitext): the extension
    starts at the last dot of the last path component, leading dots of
    that component not counting. *)
Definition os_path_splitext_root (p : string) : string :=
  let sepIndex := Str.rfind "/" p in
  let dotIndex := Str.rfind "." p in
  if sepIndex <? dotIndex then
    let filenameIndex := Z.to_nat (sepIndex + 1) in
    if existsb
         (λ i, negb (bool_decide (String.get i p = Some "."%char)))
         (seq filenameIndex (Z.to_nat dotIndex - filenameIndex))
    then Str.take (Z.to_nat dotIndex) p
    else p
  else p.

End Py.

(** ** Python containers *)

(** [for x in l: acc = body(acc, x)], stopping at the first exception. *)
Fixpoint for_each {A S} (body : S → A → result S) (acc : S) (l : list A) : result S :=
  match l with
  | [] => Ok acc
  | x :: l' => acc' ← body acc x; for_each body acc' l'
  end.

(** A comprehension whose element expression may raise. *)
Fixpoint map_result {A B} (f : A → result B) (l : list A) : result (list B) :=
  match l with
  | [] => Ok []
  | x :: l' => y ← f x; ys ← map_result f l'; mret (y :: ys)
  end.

(** [l[-k]] for [1 <= k]. *)
Definition index_from_end {A} (l : list A) (k : nat) : result A :=
  if (k <=? length l)%nat then
    match l !! (length l - k)%nat with
    | Some x => Ok x
    | None => Raise IndexError
    end
  else Raise IndexError.

Module Dict.
Section dict.
Context {K V : Type} `{EqDecision K}.

(** [d.get(k)] *)
Fixpoint get (d : list (K * V)) (k : K) : option V :=
  match d with
  | [] => None
  | (k', v) :: d' => if decide (k = k') then Some v else get d' k
  end.

(** [k in d] *)
Definition mem (d : list (K * V)) (k : K) : bool :=
  match get d k with Some _ => true | None => false end.

(** [d[k]] *)
Definition getitem (d : list (K * V)) (k : K) : result V :=
  match get d k with Some v => Ok v | None => Raise KeyError end.

(** [d[k] = v]: a known key keeps its place, a new one goes last. *)
Fixpoint set (d : list (K * V)) (k : K) (v : V) : list (K * V) :=
  match d with
  | [] => [(k, v)]
  | (k', v') :: d' =>
      if decide (k = k') then (k', v) :: d' else (k', v') :: set d' k v
  end.
End dict.
End Dict.

Abbreviation dict K V := (list (K * V)) (only parsing).

(** ** The data of the program *)

(** [{"completed": c, "not_started": q}] *)
Abbreviation StatusCounts := (dict string Z) (only parsing).
(** ensemble -> counts *)
Abbreviation Ensembles := (dict string StatusCounts) (only parsing).
(** temperature -> ensemble -> counts *)
Abbreviation Temperatures := (dict Z Ensembles) (only parsing).
(** structure -> temperature -> ensemble -> counts *)
Abbreviation Structures := (dict string Temperatures) (only parsing).
(** functional -> structure -> temperature -> ensemble -> counts *)
Abbreviation Calculations := (dict string Structures) (only parsing).

(** One item of [os.walk]: [(root, dirs, files)]. *)
Definition WalkItem : Type := string * list string * list string.

Record FileSystem := {
  os_walk : string → list WalkItem;
  os_path_isfile : string → bool
}.

(** ** The program *)

(** Lines 19-20: the body of the loop over the files of a directory. *)
Definition add_if_valid (valid_cif_files : gset string) (file : string) : gset string :=
  if Str.endswith file ".cif" && negb (Str.contains file "_dont_use")
  then valid_cif_files ∪ {[ Py.os_path_splitext_root file ]}
  else valid_cif_files.

Definition get_valid_cif_files (fs : FileSystem) (directory : string) : gset string :=
  foldl (λ valid_cif_files '(root, dirs, files),
           foldl add_if_valid valid_cif_files files)
        ∅ (os_walk fs directory).

Definition get_job_status (fs : FileSystem) (directory : string) (iteration : Z) : string :=
  let report_file :=
    Py.os_path_join directory (Py.format_02d iteration +:+ "_aimd_REPORT") in
  if os_path_isfile fs report_file then "completed" else "not_started".

(** The literal of lines 72-73. *)
Definition fresh_counts : Ensembles :=
  [("npt", [("completed", 0); ("not_started", 0)]);
   ("nvt", [("completed", 0); ("not_started", 0)])].

(** Lines 67-73: the three guarded assignments. *)
Definition ensure_entry (calculations : Calculations)
    (functional base_name : string) (temperature : Z) : result Calculations :=
  let calculations :=
    if Dict.mem calculations functional then calculations
    else Dict.set calculations functional [] in
  d1 ← Dict.getitem calculations functional;
  calculations ←
    (if Dict.mem d1 base_name then Ok calculations
     else d1 ← Dict.getitem calculations functional;
          Ok (Dict.set calculations functional (Dict.set d1 base_name [])));
  d1 ← Dict.getitem calculations functional;
  d2 ← Dict.getitem d1 base_name;
  if Dict.mem d2 temperature then Ok calculations
  else d1 ← Dict.getitem calculations functional;
       d2 ← Dict.getitem d1 base_name;
       Ok (Dict.set calculations functional
             (Dict.set d1 base_name (Dict.set d2 temperature fresh_counts))).

(** Line 75: [sorted(set(int(file[:2]) for file in files if re.match(...)))] *)
Definition iterations (files : list string) : result (list Z) :=
  numbers ← map_result (λ file, Py.int (Str.take 2 file))
                       (filter (λ file, Py.re_match_aimd file = true) files);
  Ok (merge_sort Z.le (elements (list_to_set numbers : gset Z))).

(** Lines 77-78: the body of the loop over the iterations. *)
Definition count_job (fs : FileSystem) (root functional base_name : string)
    (temperature : Z) (ensemble : string)
    (calculations : Calculations) (iteration : Z) : result Calculations :=
  let job_status := get_job_status fs root iteration in
  d1 ← Dict.getitem calculations functional;
  d2 ← Dict.getitem d1 base_name;
  d3 ← Dict.getitem d2 temperature;
  d4 ← Dict.getitem d3 ensemble;
  n ← Dict.getitem d4 job_status;
  Ok (Dict.set calculations functional
        (Dict.set d1 base_name
           (Dict.set d2 temperature
              (Dict.set d3 ensemble (Dict.set d4 job_status (n + 1)))))).

(** Lines 55-78: the body of the loop over the walk. *)
Definition visit (fs : FileSystem) (valid_cif_files : gset string)
    (calculations : Calculations) (item : WalkItem) : result Calculations :=
  let '(root, dirs, files) := item in
  if bool_decide ("POSCAR" ∈ files) then
    let path_parts := Str.split "/" root in
    if (6 <=? length path_parts)%nat then
      base_name ← index_from_end path_parts 5;
      functional ← index_from_end path_parts 4;
      ensemble ← index_from_end path_parts 3;
      scaling ← index_from_end path_parts 2;
      last ← index_from_end path_parts 1;
      temperature ← Py.int last;
      if bool_decide (base_name ∉ valid_cif_files) then Ok calculations
      else
        calculations ← ensure_entry calculations functional base_name temperature;
        iterations ← iterations files;
        for_each (count_job fs root functional base_name temperature ensemble)
                 calculations iterations
    else Ok calculations
  else Ok calculations.

Definition analyze_walk (fs : FileSystem) (valid_cif_files : gset string)
    (walk : list WalkItem) : result Calculations :=
  for_each (visit fs valid_cif_files) [] walk.

Definition analyze_calculations (fs : FileSystem) (directory : string)
    (valid_cif_files : gset string) : result Calculations :=
  analyze_walk fs valid_cif_files (os_walk fs directory).

(** [fmt.format(c1, ..., c6)] for the row format of the report. *)
Definition format_row (c1 c2 c3 c4 c5 c6 : string) : string :=
  Str.ljust 25 c1 +:+ " " +:+ Str.ljust 12 c2 +:+ " " +:+ Str.ljust 4 c3 +:+ " "
  +:+ Str.ljust 4 c4 +:+ " " +:+ Str.ljust 6 c5 +:+ " " +:+ Str.ljust 6 c6.

(** The order of [key=lambda x: x[0]]. *)
Definition key_le (x y : Z * Ensembles) : Prop := x.1 ≤ y.1.
Global Instance key_le_dec : RelDecision key_le := λ x y, decide (x.1 ≤ y.1).

(** [sorted(temperatures.items(), key=lambda x: x[0])]; the keys of a
    dictionary differ, so the sorted list is the same for every sorting
    algorithm. *)
Definition temperatures_sorted (temperatures : Temperatures) : list (Z * Ensembles) :=
  merge_sort key_le temperatures.

(** Lines 97-106: one row; what is passed to [print]. *)
Definition print_row (structure : string) (i : nat) (item : Z * Ensembles) : result string :=
  let '(temperature, status_counts) := item in
  npt ← Dict.getitem status_counts "npt";
  npt_completed ← Dict.getitem npt "completed";
  npt ← Dict.getitem status_counts "npt";
  npt_not_started ← Dict.getitem npt "not_started";
  nvt ← Dict.getitem status_counts "nvt";
  nvt_completed ← Dict.getitem nvt "completed";
  nvt ← Dict.getitem status_counts "nvt";
  nvt_not_started ← Dict.getitem nvt "not_started";
  Ok (format_row (if (i =? 0)%nat then structure else "")
        (pretty temperature) (pretty npt_completed) (pretty nvt_completed)
        (pretty npt_not_started) (pretty nvt_not_started)).

(** Lines 94-107: the rows of one structure, then an empty line.  Each
    element is the argument of one call of [print]. *)
Definition print_structure (structure : string) (temperatures : Temperatures)
  : result (list string) :=
  rows ← map_result (λ p, print_row structure p.1 p.2)
                    (imap pair (temperatures_sorted temperatures));
  Ok (rows ++ [""])%list.

Definition newline : string := String (ascii_of_nat 10) "".

(** Lines 89-107.  The value is the list of the arguments of the calls of
    [print], in order; standard output is each followed by a line feed.
    When a lookup fails the value is the exception, and what was printed
    before it is not kept. *)
Definition print_summary (calculations : Calculations) : result (list string) :=
  blocks ← map_result (λ '(functional, structures),
      body ← map_result (λ '(structure, temperatures),
                 print_structure structure temperatures) structures;
      Ok (["Functional: " +:+ functional +:+ newline;
           format_row "Structure" "Temperature" "npt" "nvt" "npt(q)" "nvt(q)";
           string_of_list_ascii (repeat "-"%char 80)] ++ concat body)%list)
    calculations;
  Ok (concat blocks).

(** Lines 114-116. *)
Definition main (fs : FileSystem) (directory : string) : result (list string) :=
  let valid_cif_files := get_valid_cif_files fs directory in
  calculations ← analyze_calculations fs directory valid_cif_files;
  print_summary calculations.

(** ** A file system given by a tree

    A concrete [FileSystem]: the tree found at a path.  [Special] stands
    for what [os.walk] lists among the files and [os.path.isfile] rejects
    (a dangling link, a pipe, a socket). *)

#[local] Set Warnings "-register-all".

Inductive node :=
| File (content : string)
| Special
| Dir (entries : list (string * node)).

Definition is_dir (n : node) : bool :=
  match n with Dir _ => true | _ => false end.

Definition is_regular (n : node) : bool :=
  match n with File _ => true | _ => false end.

(** The directories below [top] with their entries, top down, the way
    [os.walk] visits them. *)
Fixpoint listing (top : string) (t : node) : list (string * list (string * node)) :=
  match t with
  | Dir entries =>
      (top, entries) ::
      (fix below (es : list (string * node)) :=
         match es with
         | [] => []
         | (name, sub) :: es' => (listing (Py.os_path_join top name) sub ++ below es')%list
         end) entries
  | _ => []
  end.

Definition walk_item (d : string * list (string * node)) : WalkItem :=
  (d.1,
   map fst (filter (λ e, is_dir e.2 = true) d.2),
   map fst (filter (λ e, is_dir e.2 = false) d.2)).

Definition tree_fs (mount : string) (t : node) : FileSystem := {|
  os_walk directory :=
    if String.eqb directory mount && negb (String.eqb mount "")
    then map walk_item (listing mount t) else [];
  os_path_isfile path :=
    existsb (λ d, existsb (λ e, is_regular e.2
                                && String.eqb (Py.os_path_join d.1 e.1) path) d.2)
            (listing mount t)
|}.

Module Scenario.

Definition calc_dir (names : list string) : node :=
  Dir (map (λ n, (n, File "")) names).

(** The tree of the scenario of the specification. *)
Definition tree : node :=
  Dir [("A.cif", File "data");
       ("A", Dir [("PBE", Dir [
          ("npt", Dir [("1.0", Dir [("300",
             calc_dir ["POSCAR"; "00_aimd_log"; "00_aimd_REPORT"; "01_aimd_log"])])]);
          ("nvt", Dir [("1.0", Dir [("300",
             calc_dir ["POSCAR"; "00_aimd_log"])])])])])].

Definition fs : FileSystem := tree_fs "root" tree.

End Scenario.

(** A name that a directory entry can have: not empty, without "/". *)
Definition wf_name (name : string) : bool :=
  negb (String.eqb name "") && Str.all_chars (λ c, negb (Ascii.eqb c "/")) name.

(** A tree whose directories list every name once and only names that an
    entry can have. *)
Fixpoint wf_node (t : node) : bool :=
  match t with
  | Dir entries =>
      bool_decide (NoDup entries.*1)
      && (fix all (es : list (string * node)) :=
            match es with
            | [] => true
            | (name, sub) :: es' => wf_name name && wf_node sub && all es'
            end) entries
  | _ => true
  end.

(** The directory found from a tree by the names [segs], one below the
    other, has the entries [es]. *)
Inductive at_path : node → list string → list (string * node) → Prop :=
| at_path_here es : at_path (Dir es) [] es
| at_path_below es name sub segs es' :
    (name, sub) ∈ es → at_path sub segs es' → at_path (Dir es) (name :: segs) es'.

(** The path of the directory found from [top] by the names [segs]. *)
Fixpoint path_below (top : string) (segs : list string) : string :=
  match segs with
  | [] => top
  | name :: segs' => path_below (Py.os_path_join top name) segs'
  end.

(** ["/".join(l)] *)
Fixpoint intercalate (l : list string) : string :=
  match l with
  | [] => ""
  | [a] => a
  | a :: l' => a +:+ "/" +:+ intercalate l'
  end.

(** A path with the separator after it. *)
Definition dirpath (p : string) : string :=
  if Str.endswith p "/" then p else p +:+ "/".

(** ** Definitions used to state the properties *)

(** The names of all files that the walk lists. *)
Definition walked_files (fs : FileSystem) (directory : string) : list string :=
  concat (map (λ item : WalkItem, item.2) (os_walk fs directory)).

Definition is_valid_cif (file : string) : bool :=
  Str.endswith file ".cif" && negb (Str.contains file "_dont_use").

(** How often a name is in a set. *)
Definition occurrences (x : string) (names : gset string) : nat :=
  length (filter (λ y, y = x) (elements names)).

(** A directory that holds one file, named [.cif]. *)
Definition hidden_cif_fs : FileSystem := tree_fs "root" (Dir [(".cif", File "")]).

(** [calculations[functional][base_name][temperature]], when it is there. *)
Definition entry_at (calculations : Calculations)
    (functional base_name : string) (temperature : Z) : option Ensembles :=
  d1 ← Dict.get calculations functional;
  d2 ← Dict.get d1 base_name;
  Dict.get d2 temperature.

(** The assignment [calculations[functional][base_name][temperature] = v],
    the dictionaries on the way made when they are missing. *)
Definition set_entry (calculations : Calculations)
    (functional base_name : string) (temperature : Z) (v : Ensembles) : Calculations :=
  let d1 := default [] (Dict.get calculations functional) in
  let d2 := default [] (Dict.get d1 base_name) in
  Dict.set calculations functional (Dict.set d1 base_name (Dict.set d2 temperature v)).

(** [ens[ensemble][job_status] += 1] *)
Definition bump (ens : Ensembles) (ensemble job_status : string) : result Ensembles :=
  d4 ← Dict.getitem ens ensemble;
  n ← Dict.getitem d4 job_status;
  Ok (Dict.set ens ensemble (Dict.set d4 job_status (n + 1))).

(** The value of a counter, 0 when it is not in the table. *)
Definition count_at (calculations : Calculations) (functional base_name : string)
    (temperature : Z) (ensemble job_status : string) : Z :=
  default 0 (ens ← entry_at calculations functional base_name temperature;
             d4 ← Dict.get ens ensemble;
             Dict.get d4 job_status).

Definition counts_pair (c q : Z) : list (string * Z) :=
  [("completed", c); ("not_started", q)].

(** An entry as line 72 makes it and line 78 keeps it. *)
Definition wf_ens (ens : list (string * list (string * Z))) : Prop :=
  ∃ c1 q1 c2 q2,
    ens = [("npt", counts_pair c1 q1); ("nvt", counts_pair c2 q2)].

Definition wf_calc (calc : Calculations) : Prop :=
  ∀ f b t ens, entry_at calc f b t = Some ens → wf_ens ens.

(** Every entry that the table lists has the shape of [wf_ens]. *)
Definition all_wf (calc : Calculations) : Prop :=
  Forall (λ fx, Forall (λ bx, Forall (λ tx, wf_ens tx.2) bx.2) fx.2) calc.

(** The counter [ens[e][s]], 0 when there is none. *)
Definition counter (ens : list (string * list (string * Z))) (e s : string) : Z :=
  default 0 (d4 ← Dict.get ens e; Dict.get d4 s).

(** How many of the iterations have the status [s]. *)
Definition tally (fs : FileSystem) (root : string) (its : list Z) (s : string) : Z :=
  Z.of_nat (length (filter (λ it, get_job_status fs root it = s) its)).

(** The number that the two leading digits of a file name spell. *)
Definition iteration_number (file : string) : Z :=
  match file with
  | String a (String b _) => 10 * Str.digit_val a + Str.digit_val b
  | _ => 0
  end.

(** What the directory [item] adds to the counter of the key
    [(f, b, t, e)] and the status [s]. *)
Definition contribution (fs : FileSystem) (valid : gset string) (item : WalkItem)
    (f b : string) (t : Z) (e s : string) : Z :=
  let '(root, dirs, files) := item in
  if bool_decide ("POSCAR" ∈ files) then
    match reverse (Str.split "/" root) with
    | last :: sc :: e' :: f' :: b' :: _ :: _ =>
        if bool_decide (Py.int last = Ok t ∧ b' ∈ valid ∧ f' = f ∧ b' = b ∧ e' = e)
        then match iterations files with
             | Ok its => tally fs root its s
             | Raise _ => 0
             end
        else 0
    | _ => 0
    end
  else 0.

(** The sum of the contributions of the directories of a walk. *)
Definition total (fs : FileSystem) (valid : gset string) (walk : list WalkItem)
    (f b : string) (t : Z) (e s : string) : Z :=
  foldr (λ item acc, contribution fs valid item f b t e s + acc) 0 walk.

(** The characters of a name that [int] reads as a number. *)
Definition numeric_char (a : ascii) : bool :=
  Str.is_digit a || Ascii.eqb a "_" || Ascii.eqb a "+" || Ascii.eqb a "-"
  || Str.is_space a.

(** A tree with one calculation directory, whose ensemble segment is
    "foo" and which holds no iteration file. *)
Definition foo_fs : FileSystem :=
  tree_fs "root"
    (Dir [("A.cif", File "");
          ("A", Dir [("PBE", Dir [("foo", Dir [("1.0", Dir [("300",
             Scenario.calc_dir ["POSCAR"; "INCAR"])])])])])]).

(** The row of a temperature, under the name field [name]. *)
Definition row (name : string) (item : Z * list (string * list (string * Z))) : string :=
  format_row name (pretty item.1)
    (pretty (counter item.2 "npt" "completed"))
    (pretty (counter item.2 "nvt" "completed"))
    (pretty (counter item.2 "npt" "not_started"))
    (pretty (counter item.2 "nvt" "not_started")).

(** The temperatures 500, 100 and 300, met in that order. *)
Definition three_temperatures : list (Z * list (string * list (string * Z))) :=
  [(500, [("npt", counts_pair 5 0); ("nvt", counts_pair 0 0)]);
   (100, [("npt", counts_pair 1 0); ("nvt", counts_pair 0 0)]);
   (300, [("npt", counts_pair 3 0); ("nvt", counts_pair 0 0)])].

(** A tree whose walk meets the temperatures 500, 100 and 300 of one
    structure in that order. *)
Definition unsorted_fs : FileSystem :=
  tree_fs "root"
    (Dir [("A.cif", File "");
          ("A", Dir [("PBE", Dir [("npt", Dir [("1.0", Dir [
             ("500", Scenario.calc_dir ["POSCAR"; "00_aimd_log"]);
             ("100", Scenario.calc_dir ["POSCAR"; "00_aimd_log"; "00_aimd_REPORT"]);
             ("300", Scenario.calc_dir ["POSCAR"])])])])])]).

(** ** Definitions used to state further properties *)

(** What lines 55-61 read off a directory that is looked at: the structure
    name, the functional, the ensemble and the temperature segment. *)
Definition classify (item : WalkItem) : option (string * string * string * string) :=
  if bool_decide ("POSCAR" ∈ item.2) then
    match reverse (Str.split "/" item.1.1) with
    | seg :: sc :: e :: f :: b :: _ :: _ => Some (b, f, e, seg)
    | _ => None
    end
  else None.

(** The exception that a directory raises, if any. *)
Definition failure (valid : gset string) (item : WalkItem) : option exn :=
  match classify item with
  | None => None
  | Some (b, f, e, seg) =>
      match Py.int seg with
      | Raise _ => Some ValueError
      | Ok _ =>
          if bool_decide (b ∈ valid)
             && negb (bool_decide (e = "npt" ∨ e = "nvt"))
             && existsb Py.re_match_aimd item.2
          then Some KeyError else None
      end
  end.

(** The key of the entry that a directory makes or finds, if any. *)
Definition entered (valid : gset string) (item : WalkItem) : option (string * string * Z) :=
  match classify item with
  | None => None
  | Some (b, f, e, seg) =>
      match Py.int seg with
      | Ok t => if bool_decide (b ∈ valid) then Some (f, b, t) else None
      | Raise _ => None
      end
  end.

(** Two calculation directories of one structure and temperature. *)
Definition npt_item : WalkItem :=
  ("root/A/PBE/npt/1.0/300", [], ["POSCAR"; "00_aimd_log"; "00_aimd_REPORT"]).
Definition nvt_item : WalkItem :=
  ("root/A/PBE/nvt/1.0/300", [], ["POSCAR"; "01_aimd_log"]).

(** The number of iterations that the directory [item] has for the key
    [(f, b, t, e)]. *)
Definition iterations_found (valid : gset string) (item : WalkItem)
    (f b : string) (t : Z) (e : string) : Z :=
  match classify item with
  | Some (b', f', e', seg) =>
      if bool_decide (Py.int seg = Ok t ∧ b' ∈ valid ∧ f' = f ∧ b' = b ∧ e' = e)
      then match iterations item.2 with
           | Ok its => Z.of_nat (length its)
           | Raise _ => 0
           end
      else 0
  | None => 0
  end.

(** [acc] with [x] put last when it is new: where a dictionary puts the key
    of an assignment. *)
Definition see {A} `{EqDecision A} (acc : list A) (x : A) : list A :=
  if decide (x ∈ acc) then acc else acc ++ [x].

(** The elements of [l], each once, in the order in which they are first
    met. *)
Definition first_seen {A} `{EqDecision A} (l : list A) : list A :=
  foldl see [] l.

(** The keys of the entries that the directories of a walk make or find,
    in the order of the walk. *)
Definition entered_keys (valid : gset string) (walk : list WalkItem)
  : list (string * string * Z) :=
  omap (entered valid) walk.

(** The structures that the table lists under a functional, and the
    temperatures that it lists under a structure, in the order of the
    table. *)
Definition structures_of (calc : Calculations) (f : string) : list string :=
  (default [] (Dict.get calc f)).*1.

Definition temperatures_of (calc : Calculations) (f b : string) : list Z :=
  (default [] (Dict.get (default [] (Dict.get calc f)) b)).*1.

(** The three lines that start the block of a functional. *)
Definition header (functional : string) : list string :=
  ["Functional: " +:+ functional +:+ newline;
   format_row "Structure" "Temperature" "npt" "nvt" "npt(q)" "nvt(q)";
   string_of_list_ascii (repeat "-"%char 80)].

(** The lines of a structure: its rows in ascending order of the
    temperature, the name in the first of them, then an empty line. *)
Definition structure_lines (structure : string)
    (temperatures : list (Z * list (string * list (string * Z)))) : list string :=
  imap (λ i item, row (if (i =? 0)%nat then structure else "") item)
       (temperatures_sorted temperatures)
  ++ [""].

(** The lines of the report of a table. *)
Definition report (calc : Calculations) : list string :=
  concat (map (λ fx, header fx.1
                     ++ concat (map (λ bx, structure_lines bx.1 bx.2) fx.2))
              calc).

(** The table of the two directories [npt_item] and [nvt_item]. *)
Definition two_items_table : Calculations :=
  [("PBE", [("A", [(300, [("npt", [("completed", 1); ("not_started", 0)]);
                          ("nvt", [("completed", 0); ("not_started", 1)])])])])].

(** The name of a report file: two digits, then [_aimd_REPORT]. *)
Definition is_report_name (name : string) : bool :=
  match name with
  | String a (String b rest) =>
      Str.is_digit a && Str.is_digit b && String.eqb rest "_aimd_REPORT"
  | _ => false
  end.

(** The names of the regular report files among the entries of a
    directory. *)
Definition report_files (es : list (string * node)) : list string :=
  (filter (λ e, is_regular e.2 && is_report_name e.1 = true) es).*1.

(** A tree with one calculation directory. *)
Definition one_calc_tree : node :=
  Dir [("A.cif", File "");
       ("A", Dir [("PBE", Dir [("npt", Dir [("1.0", Dir [("300",
          Scenario.calc_dir ["POSCAR"; "00_aimd_log"])])])])])].

(** A tree whose two temperature directories are named [-5] and [+3_0]. *)
Definition signed_fs : FileSystem :=
  tree_fs "root"
    (Dir [("A.cif", File "");
          ("A", Dir [("PBE", Dir [("npt", Dir [("1.0", Dir [
             ("-5", Scenario.calc_dir ["POSCAR"; "00_aimd_log"]);
             ("+3_0", Scenario.calc_dir ["POSCAR"; "00_aimd_log"; "00_aimd_REPORT"])])])])])]).

(** *** The report as the specification words it

    These definitions do not use the functions of the program: they say
    what the printed text has to be. *)

(** The line feed. *)
Definition line_feed : string := String "010"%char "".

(** [n] spaces. *)
Fixpoint spaces (n : nat) : string :=
  match n with
  | O => ""
  | S n' => String " " (spaces n')
  end.

(** A text left-aligned in a field of [width] characters: the text, then
    spaces up to the width; a text wider than the field is not cut. *)
Fixpoint left_aligned (width : nat) (text : string) : string :=
  match text with
  | EmptyString => spaces width
  | String c rest => String c (left_aligned (pred width) rest)
  end.

(** One row of the report: the name field, the temperature, then the
    counts npt completed, nvt completed, npt not started and nvt not
    started, left-aligned in fields of 25, 12, 4, 4, 6 and 6 characters
    with one space between them. *)
Definition report_row (name : string) (temperature npt_completed nvt_completed
    npt_not_started nvt_not_started : Z) : string :=
  left_aligned 25 name +:+ " " +:+ left_aligned 12 (pretty temperature) +:+ " "
  +:+ left_aligned 4 (pretty npt_completed) +:+ " "
  +:+ left_aligned 4 (pretty nvt_completed) +:+ " "
  +:+ left_aligned 6 (pretty npt_not_started) +:+ " "
  +:+ left_aligned 6 (pretty nvt_not_started).

(** The lines of one structure: one row for every temperature of the
    structure, in ascending order of the temperature whatever the order of
    the table; the name of the structure in the name field of the first
    row and an empty name field in the others; then an empty line. *)
Definition structure_rendered (structure : string)
    (temperatures : list (Z * list (string * list (string * Z))))
    (lines : list string) : Prop :=
  ∃ items,
    items ≡ₚ temperatures
    ∧ StronglySorted Z.le items.*1
    ∧ lines =
        imap (λ i item,
                report_row (if (i =? 0)%nat then structure else "") item.1
                  (counter item.2 "npt" "completed")
                  (counter item.2 "nvt" "completed")
                  (counter item.2 "npt" "not_started")
                  (counter item.2 "nvt" "not_started")) items
        ++ [""].

(** The lines of one functional: its name, the column titles, a line of
    80 dashes, then the lines of its structures in the order of the
    table. *)
Definition block_rendered (functional : string)
    (structures : list (string * list (Z * list (string * list (string * Z)))))
    (lines : list string) : Prop :=
  ∃ bodies,
    Forall2 (λ bx body, structure_rendered bx.1 bx.2 body) structures bodies
    ∧ lines =
        ["Functional: " +:+ functional +:+ line_feed;
         "Structure                 Temperature  npt  nvt  npt(q) nvt(q)";
         "--------------------------------------------------------------------------------"]
        ++ concat bodies.

(** The lines of the report of a table: the blocks of its functionals in
    the order of the table. *)
Definition report_rendered (calc : Calculations) (lines : list string) : Prop :=
  ∃ blocks,
    Forall2 (λ fx block, block_rendered fx.1 fx.2 block) calc blocks
    ∧ lines = concat blocks.

(** ** The library functions on examples *)

Example int_300 : Py.int "300" = Ok 300. Proof. reflexivity. Qed.
Example int_ws : Py.int " 300 " = Ok 300. Proof. reflexivity. Qed.
Example int_neg : Py.int "-5" = Ok (-5). Proof. reflexivity. Qed.
Example int_us : Py.int "5_0" = Ok 50. Proof. reflexivity. Qed.
Example int_bad1 : Py.int "5__0" = Raise ValueError. Proof. reflexivity. Qed.
Example int_bad2 : Py.int "1.0" = Raise ValueError. Proof. reflexivity. Qed.
Example int_bad3 : Py.int "" = Raise ValueError. Proof. reflexivity. Qed.
Example int_bad4 : Py.int "- 5" = Raise ValueError. Proof. reflexivity. Qed.
Example int_bad5 : Py.int "5_" = Raise ValueError. Proof. reflexivity. Qed.
Example int_bad6 : Py.int "+_5" = Raise ValueError. Proof. reflexivity. Qed.
Example int_0010 : Py.int "0010" = Ok 10. Proof. reflexivity. Qed.
Example fmt_3 : Py.format_02d 3 = "03". Proof. vm_compute. reflexivity. Qed.
Example fmt_100 : Py.format_02d 100 = "100". Proof. vm_compute. reflexivity. Qed.
Example fmt_m1 : Py.format_02d (-1) = "-1". Proof. vm_compute. reflexivity. Qed.
Example split1 : Str.split "/" "/a/b" = [""; "a"; "b"]. Proof. reflexivity. Qed.
Example split2 : Str.split "/" "a//b/" = ["a"; ""; "b"; ""]. Proof. reflexivity. Qed.
Example splitext1 : map Py.os_path_splitext_root [".cif"; "..cif"; "a.cif"; "a.b.cif"; ".a.cif"; "a/.cif"; ".cif.cif"; "cif"]
  = [".cif"; "..cif"; "a"; "a.b"; ".a"; "a/.cif"; ".cif"; "cif"].
Proof. vm_compute. reflexivity. Qed.
Example join1 : map (λ p, Py.os_path_join p.1 p.2) [("a","b"); ("a/","b"); ("","b"); ("/","b")]
  = ["a/b"; "a/b"; "b"; "/b"].
Proof. vm_compute. reflexivity. Qed.

(** ** The scenario of the specification *)

Example scenario_valid :
  elements (get_valid_cif_files Scenario.fs "root") = ["A"].
Proof. vm_compute. reflexivity. Qed.

Example scenario_table :
  analyze_calculations Scenario.fs "root" (get_valid_cif_files Scenario.fs "root")
  = Ok [("PBE", [("A", [(300, [("npt", [("completed", 1); ("not_started", 1)]);
                               ("nvt", [("completed", 0); ("not_started", 1)])])])])].
Proof. vm_compute. reflexivity. Qed.

Example scenario_report :
  main Scenario.fs "root"
  = Ok ["Functional: PBE" +:+ newline;
        "Structure                 Temperature  npt  nvt  npt(q) nvt(q)";
        "--------------------------------------------------------------------------------";
        "A                         300          1    0    1      1     ";
        ""].
Proof. vm_compute. reflexivity. Qed.

(** ** Facts about strings *)

Lemma append_cons a (s t : string) : String a s +:+ t = String a (s +:+ t).
Proof. reflexivity. Qed.

Lemma append_nil_l (t : string) : "" +:+ t = t.
Proof. reflexivity. Qed.

Ltac str_simpl := rewrite ?append_cons, ?append_nil_l in *.

Section string_facts.

Lemma startswith_spec s pre :
  Str.startswith s pre = true ↔ ∃ rest, s = pre +:+ rest.
Proof.
  unfold Str.startswith. revert pre.
  induction s as [|b s IH]; intros [|a pre]; simpl.
  - split; [by exists ""|done].
  - split; [done|]. by intros [rest ?].
  - split; [by exists (String b s)|done].
  - destruct (ascii_dec a b) as [-> |Hne].
    + rewrite IH. split; intros [rest Hr]; exists rest; str_simpl; congruence.
    + split; [done|]. intros [rest Hr]. str_simpl. congruence.
Qed.

Lemma endswith_spec s suf :
  Str.endswith s suf = true ↔ ∃ pre, s = pre +:+ suf.
Proof.
  induction s as [|a s IH]; cbn [Str.endswith].
  - rewrite orb_false_r, String.eqb_eq. split.
    + intros <-. by exists "".
    + intros [[|??] Hp]; str_simpl; [done|discriminate].
  - rewrite orb_true_iff, String.eqb_eq, IH. split.
    + intros [<- |[pre ->]]; [by exists ""|by exists (String a pre)].
    + intros [[|b pre] Hp]; str_simpl; [by left|].
      right. exists pre. congruence.
Qed.

Lemma contains_spec s sub :
  Str.contains s sub = true ↔ ∃ pre post, s = pre +:+ sub +:+ post.
Proof.
  induction s as [|a s IH]; cbn [Str.contains];
    rewrite orb_true_iff, startswith_spec.
  - split.
    + intros [[rest Hr]|?]; [|done]. by exists "", rest.
    + intros [[|??] [post Hp]]; str_simpl; [|discriminate].
      left. by exists post.
  - rewrite IH. split.
    + intros [[rest Hr]|(pre & post & ->)].
      * by exists "", rest.
      * by exists (String a pre), post.
    + intros [[|b pre] [post Hp]]; str_simpl.
      * left. by exists post.
      * right. exists pre, post. congruence.
Qed.

Lemma append_assoc (a b c : string) : (a +:+ b) +:+ c = a +:+ (b +:+ c).
Proof. induction a; str_simpl; congruence. Qed.

Lemma append_nil_r (a : string) : a +:+ "" = a.
Proof. induction a; str_simpl; congruence. Qed.

Lemma append_length (a b : string) :
  String.length (a +:+ b) = (String.length a + String.length b)%nat.
Proof. induction a; str_simpl; simpl; congruence. Qed.

(** A marker found in a prefix is found in the whole. *)
Lemma contains_prefix a b sub :
  Str.contains a sub = true → Str.contains (a +:+ b) sub = true.
Proof.
  rewrite !contains_spec. intros (pre & post & ->).
  exists pre, (post +:+ b). by rewrite !append_assoc.
Qed.

Lemma take_prefix n s : ∃ rest, s = Str.take n s +:+ rest.
Proof.
  unfold Str.take. revert s.
  induction n as [|n IH]; intros s.
  - exists s. by destruct s.
  - destruct s as [|a s]; [by exists ""|].
    destruct (IH s) as [rest Hr]. exists rest. simpl. str_simpl. congruence.
Qed.

Lemma take_app (a b : string) : Str.take (String.length a) (a +:+ b) = a.
Proof.
  unfold Str.take. induction a as [|c a IH]; str_simpl; simpl;
    [by destruct b|congruence].
Qed.

Lemma rfind_lt c s : -1 ≤ Str.rfind c s < Z.of_nat (String.length s).
Proof.
  induction s as [|a s IH]; simpl; [lia|].
  destruct (Z.leb_spec 0 (Str.rfind c s)); [lia|].
  destruct (Ascii.eqb a c); lia.
Qed.

Lemma rfind_app c a b :
  Str.rfind c (a +:+ b) =
    if 0 <=? Str.rfind c b then Z.of_nat (String.length a) + Str.rfind c b
    else Str.rfind c a.
Proof.
  induction a as [|x a IH]; str_simpl; simpl.
  - pose proof (rfind_lt c b).
    destruct (Z.leb_spec 0 (Str.rfind c b)); lia.
  - rewrite IH. destruct (Z.leb_spec 0 (Str.rfind c b)).
    + destruct (Z.leb_spec 0 (Z.of_nat (String.length a) + Str.rfind c b)); lia.
    + done.
Qed.

Lemma get_app_l i (a b : string) :
  (i < String.length a)%nat → String.get i (a +:+ b) = String.get i a.
Proof.
  revert i. induction a as [|c a IH]; intros i Hi; str_simpl; simpl in *; [lia|].
  destruct i; [done|]. apply IH. lia.
Qed.

(** The root that [os.path.splitext] returns is a prefix of its argument. *)
Lemma splitext_root_prefix p : ∃ rest, p = Py.os_path_splitext_root p +:+ rest.
Proof.
  unfold Py.os_path_splitext_root.
  repeat case_match; try (exists ""; by rewrite append_nil_r).
  apply take_prefix.
Qed.

End string_facts.

Section splitext_facts.

Lemma rfind_absent c s :
  Str.contains s (String c "") = false → Str.rfind c s = -1.
Proof.
  induction s as [|a s IH]; [done|].
  cbn [Str.contains Str.rfind]. intros [Hhd Htl]%orb_false_iff.
  rewrite (IH Htl). simpl.
  unfold Str.startswith in Hhd. simpl in Hhd.
  destruct (ascii_dec c a) as [-> |Hne].
  - by destruct s.
  - destruct (Ascii.eqb_spec a c); congruence.
Qed.

Lemma all_chars_false p s :
  Str.all_chars p s = false →
  ∃ i c, (i < String.length s)%nat ∧ String.get i s = Some c ∧ p c = false.
Proof.
  induction s as [|a s IH]; [done|]. simpl.
  destruct (p a) eqn:Hp; simpl.
  - intros (i & c & ? & ? & ?)%IH. exists (S i), c. split_and!; [lia|done..].
  - intros _. exists 0%nat, a. split_and!; [lia|done..].
Qed.

(** For a file name [X.cif] whose [X] is not made of dots only,
    [os.path.splitext] strips the extension. *)
Lemma splitext_root_cif X :
  Str.contains X "/" = false →
  Str.all_chars (λ a, Ascii.eqb a ".") X = false →
  Py.os_path_splitext_root (X +:+ ".cif") = X.
Proof.
  intros Hsep Hdots. unfold Py.os_path_splitext_root.
  assert (Str.rfind "/" (X +:+ ".cif") = -1) as ->.
  { rewrite rfind_app. change (Str.rfind "/" ".cif") with (-1).
    by apply rfind_absent. }
  assert (Str.rfind "." (X +:+ ".cif") = Z.of_nat (String.length X)) as ->.
  { rewrite rfind_app. change (Str.rfind "." ".cif") with 0.
    change (0 <=? 0) with true. cbv iota. lia. }
  destruct (Z.ltb_spec (-1) (Z.of_nat (String.length X))); [|lia].
  rewrite Nat2Z.id. change (Z.to_nat (-1 + 1)) with 0%nat. rewrite Nat.sub_0_r.
  destruct (all_chars_false _ _ Hdots) as (i & c & Hi & Hget & Hc).
  rewrite (proj2 (existsb_exists _ _)), take_app; [done|].
  exists i. split; [apply in_seq; lia|].
  rewrite get_app_l, Hget by done.
  rewrite bool_decide_eq_false_2; [done|].
  intros [= ->]. done.
Qed.

End splitext_facts.

(** ** The validity filter *)

Section validity_filter.

Lemma add_files_spec files (valid : gset string) x :
  x ∈ foldl add_if_valid valid files ↔
  x ∈ valid ∨ ∃ file, file ∈ files ∧ is_valid_cif file = true
                        ∧ x = Py.os_path_splitext_root file.
Proof.
  revert valid. induction files as [|f files IH]; intros valid; simpl.
  - split; [by left|]. intros [?|(file & []%elem_of_nil & _)]. done.
  - rewrite IH. unfold add_if_valid. fold (is_valid_cif f).
    destruct (is_valid_cif f) eqn:Hf.
    + rewrite elem_of_union, elem_of_singleton. split.
      * intros [[?| ->]|(file & ? & ? & ?)]; [by left|right..].
        -- exists f. split_and!; [left|done..].
        -- exists file. split_and!; [by right|done..].
      * intros [?|(file & [-> |?]%elem_of_cons & ? & ->)];
          [by left; left|by left; right|right; by exists file].
    + split.
      * intros [?|(file & ? & ? & ?)]; [by left|right].
        exists file. split_and!; [by right|done..].
      * intros [?|(file & [-> |?]%elem_of_cons & ? & ->)];
          [by left|congruence|right; by exists file].
Qed.

Lemma get_valid_cif_files_spec fs directory x :
  x ∈ get_valid_cif_files fs directory ↔
  ∃ file, file ∈ walked_files fs directory ∧ is_valid_cif file = true
          ∧ x = Py.os_path_splitext_root file.
Proof.
  unfold get_valid_cif_files, walked_files.
  assert (∀ walk (valid : gset string),
    x ∈ foldl (λ valid (item : WalkItem),
                 let '(root, dirs, files) := item in foldl add_if_valid valid files)
              valid walk ↔
    x ∈ valid ∨ ∃ file, file ∈ concat (map (λ item : WalkItem, item.2) walk)
                ∧ is_valid_cif file = true ∧ x = Py.os_path_splitext_root file) as H.
  { induction walk as [|[[root dirs] files] walk IH]; intros valid; simpl.
    - split; [by left|]. intros [?|(file & []%elem_of_nil & _)]. done.
    - rewrite IH, add_files_spec. setoid_rewrite elem_of_app. split.
      + intros [[?|(f & ? & ?)]|(f & ? & ?)]; [by left|right; exists f..];
          (split; [by (left + right)|done]).
      + intros [?|(f & [?|?] & ?)];
          [by left; left|left; right; by exists f|right; by exists f]. }
  rewrite H. split; [|by right]. intros [[]%elem_of_empty|?]. done.
Qed.

End validity_filter.

Lemma occurrences_elem_of x (names : gset string) :
  x ∈ names → occurrences x names = 1%nat.
Proof.
  unfold occurrences. rewrite <-elem_of_elements.
  pose proof (NoDup_elements names) as Hnd.
  induction Hnd as [|y l Hy Hnd IH]; [by intros ?%elem_of_nil|].
  rewrite filter_cons. intros [-> |Hx]%elem_of_cons.
  - rewrite decide_True by done. simpl. f_equal.
    destruct (filter (λ z, z = y) l) as [|z l'] eqn:Hf; [done|].
    assert (z ∈ filter (λ z, z = y) l) as [-> ?]%list_elem_of_filter
      by (rewrite Hf; left).
    done.
  - rewrite decide_False by (intros ->; done). by apply IH.
Qed.

Lemma valid_name_no_marker fs directory x :
  x ∈ get_valid_cif_files fs directory → Str.contains x "_dont_use" = false.
Proof.
  intros (file & _ & [_ Hm%negb_true_iff]%andb_true_iff & ->)%get_valid_cif_files_spec.
  destruct (splitext_root_prefix file) as [rest Hrest].
  destruct (Str.contains (Py.os_path_splitext_root file) "_dont_use") eqn:Hc; [|done].
  apply (contains_prefix _ rest) in Hc. congruence.
Qed.

(** C3, as stated, fails: the file [.cif] is [X.cif] for the empty [X],
    it ends in ".cif" and has no marker, yet the empty name is not in the
    result; [os.path.splitext] takes the leading dot as part of the root and
    the whole name is added. *)
Lemma C3_counterexample :
  ("" +:+ ".cif") ∈ walked_files hidden_cif_fs "root"
  ∧ Str.endswith ("" +:+ ".cif") ".cif" = true
  ∧ Str.contains ("" +:+ ".cif") "_dont_use" = false
  ∧ ("" ∉ get_valid_cif_files hidden_cif_fs "root")
  ∧ ".cif" ∈ get_valid_cif_files hidden_cif_fs "root".
Proof.
  assert (elements (get_valid_cif_files hidden_cif_fs "root") = [".cif"]) as He
    by (vm_compute; reflexivity).
  split_and!; [by left|done|done|..]; rewrite <-elem_of_elements, He.
  - by intros [=]%list_elem_of_singleton.
  - by left.
Qed.

(** C3 (amended): the result is exactly the set of the [os.path.splitext]
    roots of the walked files whose name ends in ".cif" and does not contain
    "_dont_use"; no name in it contains the marker, so the base name of a
    file [X_dont_use.cif] is never in it; and for a file [X.cif] without
    the marker whose [X] is a file name not made of dots only, [X] is in
    the result exactly once, however many such files there are. *)
Theorem C3_valid_names fs directory :
  (∀ x, x ∈ get_valid_cif_files fs directory ↔
        ∃ file, file ∈ walked_files fs directory
                ∧ Str.endswith file ".cif" = true
                ∧ Str.contains file "_dont_use" = false
                ∧ x = Py.os_path_splitext_root file)
  ∧ (∀ X, (X +:+ "_dont_use") ∉ get_valid_cif_files fs directory)
  ∧ (∀ X, (X +:+ ".cif") ∈ walked_files fs directory →
          Str.contains (X +:+ ".cif") "_dont_use" = false →
          Str.contains X "/" = false →
          Str.all_chars (λ a, Ascii.eqb a ".") X = false →
          X ∈ get_valid_cif_files fs directory
          ∧ occurrences X (get_valid_cif_files fs directory) = 1%nat).
Proof.
  split_and!.
  - intros x. rewrite get_valid_cif_files_spec. unfold is_valid_cif.
    split.
    + intros (file & ? & [? ?%negb_true_iff]%andb_true_iff & ?). by exists file.
    + intros (file & ? & He & Hc & ?). exists file. by rewrite He, Hc.
  - intros X HX. apply valid_name_no_marker in HX.
    assert (Str.contains (X +:+ "_dont_use") "_dont_use" = true); [|congruence].
    apply contains_spec. exists X, "". by rewrite append_nil_r.
  - intros X Hfile Hmarker Hsep Hdots.
    assert (X ∈ get_valid_cif_files fs directory) as HX.
    { apply get_valid_cif_files_spec. exists (X +:+ ".cif"). split_and!; [done|..].
      - unfold is_valid_cif. rewrite Hmarker, andb_true_r.
        apply endswith_spec. by exists X.
      - by rewrite splitext_root_cif. }
    split; [done|]. by apply occurrences_elem_of.
Qed.

Lemma C3_valid_names_witness :
  "A" ∈ get_valid_cif_files Scenario.fs "root"
  ∧ occurrences "A" (get_valid_cif_files Scenario.fs "root") = 1%nat.
Proof.
  apply (C3_valid_names Scenario.fs "root").
  - vm_compute. left.
  - reflexivity.
  - reflexivity.
  - reflexivity.
Defined.

(** ** Facts about dictionaries and the loops *)

(** Steps of the two monads, nothing else unfolded. *)
Ltac res_simpl :=
  cbn [mbind result_bind option_bind mret result_ret option_ret from_option id] in *.

Section dict_facts.
Context {K V : Type} `{EqDecision K}.
Implicit Types (d : list (K * V)) (k : K) (v : V).

Lemma get_nil k : Dict.get (@nil (K * V)) k = None.
Proof. reflexivity. Qed.

Lemma get_set_eq d k v : Dict.get (Dict.set d k v) k = Some v.
Proof.
  induction d as [|[k' v'] d IH]; simpl.
  - by rewrite decide_True.
  - destruct (decide (k = k')) as [<-|Hne]; simpl.
    + by rewrite decide_True.
    + by rewrite decide_False.
Qed.

Lemma get_set_ne d k k' v : k ≠ k' → Dict.get (Dict.set d k v) k' = Dict.get d k'.
Proof.
  intros Hne. induction d as [|[k0 v0] d IH]; simpl.
  - by rewrite decide_False.
  - destruct (decide (k = k0)) as [<-|Hne0]; simpl.
    + by rewrite !decide_False.
    + destruct (decide (k' = k0)); [done|apply IH].
Qed.

Lemma set_set d k v w : Dict.set (Dict.set d k v) k w = Dict.set d k w.
Proof.
  induction d as [|[k' v'] d IH]; simpl.
  - by rewrite decide_True.
  - destruct (decide (k = k')) as [<-|Hne]; simpl.
    + by rewrite decide_True.
    + rewrite decide_False by done. by rewrite IH.
Qed.

Lemma set_get_id d k v : Dict.get d k = Some v → Dict.set d k v = d.
Proof.
  induction d as [|[k' v'] d IH]; simpl; [done|].
  destruct (decide (k = k')) as [<-|Hne]; [congruence|].
  intros ?. by rewrite IH.
Qed.

Lemma mem_get d k : Dict.mem d k = bool_decide (is_Some (Dict.get d k)).
Proof.
  unfold Dict.mem. destruct (Dict.get d k).
  - by rewrite bool_decide_eq_true_2.
  - rewrite bool_decide_eq_false_2; [done|]. by intros [? ?].
Qed.

End dict_facts.

Lemma for_each_app {A S} (body : S → A → result S) acc l1 l2 :
  for_each body acc (l1 ++ l2) = (acc' ← for_each body acc l1; for_each body acc' l2).
Proof.
  revert acc. induction l1 as [|x l1 IH]; intros acc; simpl; [done|].
  destruct (body acc x); simpl; [apply IH|done].
Qed.

Lemma index_from_end_app {A} (anc l : list A) k :
  (0 < k ≤ length l)%nat → index_from_end (anc ++ l) k = index_from_end l k.
Proof.
  intros Hk. unfold index_from_end. rewrite length_app.
  destruct (Nat.leb_spec k (length anc + length l)); [|lia].
  destruct (Nat.leb_spec k (length l)); [|lia].
  rewrite lookup_app_r by lia.
  by replace (length anc + length l - k - length anc)%nat
    with (length l - k)%nat by lia.
Qed.

(** A path of at least six segments ends in the five that classify it. *)
Lemma six_segments {A} (l : list A) :
  (6 ≤ length l)%nat ↔
  ∃ anc b f e sc t, anc ≠ [] ∧ l = anc ++ [b; f; e; sc; t].
Proof.
  split.
  - intros Hlen. rewrite <-(take_drop (length l - 5) l).
    pose proof (length_drop l (length l - 5)) as Hd.
    pose proof (length_take l (length l - 5)) as Ht.
    destruct (drop (length l - 5) l) as [|b [|f [|e [|sc [|t [|??]]]]]];
      simpl in Hd; try lia.
    exists (take (length l - 5) l), b, f, e, sc, t. split; [|done].
    intros Hnil. rewrite Hnil in Ht. simpl in Ht. lia.
  - intros (anc & b & f & e & sc & t & Hanc & ->).
    rewrite length_app. destruct anc; [done|simpl; lia].
Qed.

(** ** The table as a map from (functional, structure, temperature) *)

Lemma entry_at_set_entry calc f b t v f' b' t' :
  entry_at (set_entry calc f b t v) f' b' t' =
    if decide ((f', b', t') = (f, b, t)) then Some v else entry_at calc f' b' t'.
Proof.
  unfold entry_at, set_entry.
  destruct (decide (f = f')) as [<-|Hf].
  - rewrite get_set_eq. simpl.
    destruct (decide (b = b')) as [<-|Hb].
    + rewrite get_set_eq. simpl.
      destruct (decide (t = t')) as [<-|Ht].
      * rewrite get_set_eq. by rewrite decide_True.
      * rewrite get_set_ne by done. rewrite decide_False by congruence.
        destruct (Dict.get calc f) as [d1|]; simpl; [|done].
        by destruct (Dict.get d1 b).
    + rewrite get_set_ne by done. rewrite decide_False by congruence.
      by destruct (Dict.get calc f).
  - rewrite get_set_ne by done. by rewrite decide_False by congruence.
Qed.

Lemma entry_at_set_entry_eq calc f b t v :
  entry_at (set_entry calc f b t v) f b t = Some v.
Proof. rewrite entry_at_set_entry. by rewrite decide_True. Qed.

(** The guarded assignments make the entry when it is missing and change
    nothing else. *)
Lemma ensure_entry_eq calc f b t :
  ensure_entry calc f b t =
    Ok (match entry_at calc f b t with
        | Some _ => calc
        | None => set_entry calc f b t fresh_counts
        end).
Proof.
  unfold ensure_entry, entry_at, set_entry, Dict.mem, Dict.getitem.
  destruct (Dict.get calc f) as [d1|] eqn:H1; res_simpl.
  - destruct (Dict.get d1 b) as [d2|] eqn:H2; res_simpl.
    + repeat (progress (rewrite ?H1, ?H2; res_simpl)).
      destruct (Dict.get d2 t) as [d3|] eqn:H3; res_simpl; [done|].
      by repeat (progress (rewrite ?H1, ?H2; res_simpl)).
    + repeat (progress (rewrite ?H1, ?H2, ?get_set_eq; res_simpl)).
      by rewrite !set_set.
  - repeat (progress (rewrite ?get_set_eq, ?get_nil; res_simpl)).
    by rewrite !set_set.
Qed.

Lemma count_job_eq fs root f b t e calc it :
  count_job fs root f b t e calc it =
    match entry_at calc f b t with
    | Some ens =>
        ens' ← bump ens e (get_job_status fs root it);
        Ok (set_entry calc f b t ens')
    | None => Raise KeyError
    end.
Proof.
  unfold count_job, entry_at, set_entry, bump, Dict.getitem.
  destruct (Dict.get calc f) as [d1|]; simpl; [|done].
  destruct (Dict.get d1 b) as [d2|]; simpl; [|done].
  destruct (Dict.get d2 t) as [d3|]; simpl; [|done].
  destruct (Dict.get d3 e) as [d4|]; simpl; [|done].
  by destruct (Dict.get d4 _).
Qed.

(** ** One directory of the walk *)

(** A directory that is looked at: it holds POSCAR and its path ends in the
    five segments [b/f/e/sc/last] below at least one more. *)
Lemma visit_classified fs valid calc root dirs files anc b f e sc last :
  "POSCAR" ∈ files →
  Str.split "/" root = anc ++ [b; f; e; sc; last] →
  anc ≠ [] →
  visit fs valid calc (root, dirs, files) =
    (temperature ← Py.int last;
     if bool_decide (b ∉ valid) then Ok calc
     else calc ← ensure_entry calc f b temperature;
          its ← iterations files;
          for_each (count_job fs root f b temperature e) calc its).
Proof.
  intros Hposcar Hsplit Hanc. unfold visit.
  rewrite bool_decide_eq_true_2 by done. rewrite Hsplit.
  assert (6 ≤ length (anc ++ [b; f; e; sc; last]))%nat as Hlen.
  { apply six_segments. by exists anc, b, f, e, sc, last. }
  destruct (Nat.leb_spec 6 (length (anc ++ [b; f; e; sc; last]))); [|lia].
  rewrite !index_from_end_app by (simpl; lia).
  reflexivity.
Qed.

Lemma visit_not_poscar fs valid calc root dirs files :
  "POSCAR" ∉ files → visit fs valid calc (root, dirs, files) = Ok calc.
Proof. intros ?. unfold visit. by rewrite bool_decide_eq_false_2. Qed.

Lemma visit_shallow fs valid calc root dirs files :
  (length (Str.split "/" root) < 6)%nat →
  visit fs valid calc (root, dirs, files) = Ok calc.
Proof.
  intros ?. unfold visit. case_bool_decide; [|done].
  by destruct (Nat.leb_spec 6 (length (Str.split "/" root))); [lia|].
Qed.

Lemma analyze_walk_app fs valid pre post :
  analyze_walk fs valid (pre ++ post) =
    (calc ← analyze_walk fs valid pre; for_each (visit fs valid) calc post).
Proof. apply for_each_app. Qed.

(** A directory that leaves every table as it is can be taken out of the
    walk. *)
Lemma analyze_walk_skip fs valid item pre post :
  (∀ calc, visit fs valid calc item = Ok calc) →
  analyze_walk fs valid (pre ++ item :: post) = analyze_walk fs valid (pre ++ post).
Proof.
  intros Hskip. rewrite !analyze_walk_app.
  destruct (analyze_walk fs valid pre) as [calc|]; [|done].
  res_simpl. simpl. by rewrite Hskip.
Qed.

Lemma int_raises s e : Py.int s = Raise e → e = ValueError.
Proof. unfold Py.int. repeat case_match; congruence. Qed.

(** ** The shape of the table *)

Lemma wf_fresh_counts : wf_ens fresh_counts.
Proof. by exists 0, 0, 0, 0. Qed.

Lemma wf_calc_nil : wf_calc [].
Proof. intros f b t ens. by unfold entry_at. Qed.

Lemma wf_calc_set_entry calc f b t ens :
  wf_calc calc → wf_ens ens → wf_calc (set_entry calc f b t ens).
Proof.
  intros Hcalc Hens f' b' t' ens'. rewrite entry_at_set_entry.
  case_decide; [by intros [= <-]|apply Hcalc].
Qed.

Lemma get_job_status_cases fs root it :
  get_job_status fs root it = "completed" ∨ get_job_status fs root it = "not_started".
Proof. unfold get_job_status. destruct (os_path_isfile _ _); auto. Qed.

Lemma count_at_entry calc f b t e s :
  count_at calc f b t e s =
    match entry_at calc f b t with Some ens => counter ens e s | None => 0 end.
Proof. unfold count_at, counter. by destruct (entry_at calc f b t). Qed.

(** Line 78 on an entry of the right shape, for a known ensemble. *)
Lemma bump_known ens e s :
  wf_ens ens → e = "npt" ∨ e = "nvt" → s = "completed" ∨ s = "not_started" →
  ∃ ens', bump ens e s = Ok ens' ∧ wf_ens ens'
    ∧ ∀ e' s', counter ens' e' s' =
               counter ens e' s' + (if decide (e' = e ∧ s' = s) then 1 else 0).
Proof.
  intros (c1 & q1 & c2 & q2 & ->) [-> | ->] [-> | ->];
    (eexists; split; [reflexivity|]; split;
     [by eexists _, _, _, _|]);
    intros e' s'; unfold counter; simpl;
    repeat (case_decide; simplify_eq/=; try lia);
    destruct_and?; simplify_eq; try lia;
    exfalso; naive_solver.
Qed.

(** Line 78 for any other ensemble: the key is not there. *)
Lemma bump_unknown ens e s :
  wf_ens ens → e ≠ "npt" → e ≠ "nvt" → bump ens e s = Raise KeyError.
Proof.
  intros (c1 & q1 & c2 & q2 & ->) ??. unfold bump, Dict.getitem. simpl.
  by rewrite !decide_False by done.
Qed.

Lemma tally_nil fs root s : tally fs root [] s = 0.
Proof. reflexivity. Qed.

Lemma tally_cons fs root it its s :
  tally fs root (it :: its) s =
    (if decide (get_job_status fs root it = s) then 1 else 0) + tally fs root its s.
Proof.
  unfold tally. rewrite filter_cons. case_decide; simpl; lia.
Qed.

Lemma tally_nonneg fs root its s : 0 ≤ tally fs root its s.
Proof. unfold tally. lia. Qed.

(** The loop of lines 76-78 for a known ensemble: every iteration adds one
    to the counter of its status, in the entry of the directory. *)
Lemma count_jobs_known fs root f b t e its :
  e = "npt" ∨ e = "nvt" →
  ∀ calc, wf_calc calc → is_Some (entry_at calc f b t) →
  ∃ calc', for_each (count_job fs root f b t e) calc its = Ok calc'
    ∧ wf_calc calc'
    ∧ ∀ f' b' t' e' s',
        count_at calc' f' b' t' e' s' =
          count_at calc f' b' t' e' s'
          + (if decide ((f', b', t', e') = (f, b, t, e))
             then tally fs root its s' else 0).
Proof.
  intros He. induction its as [|it its IH]; intros calc Hwf [ens Hens].
  - exists calc. split_and!; [done..|]. intros. rewrite tally_nil.
    case_decide; lia.
  - cbn [for_each]. rewrite count_job_eq, Hens.
    destruct (bump_known ens e (get_job_status fs root it))
      as (ens' & -> & Hwf' & Hcnt); [by eapply Hwf|done|apply get_job_status_cases|].
    res_simpl.
    destruct (IH (set_entry calc f b t ens')) as (calc' & Hrun & Hwf'' & Hsum).
    { by apply wf_calc_set_entry. }
    { rewrite entry_at_set_entry_eq. by eexists. }
    exists calc'. split_and!; [done..|].
    intros f' b' t' e' s'. rewrite Hsum, tally_cons.
    rewrite (count_at_entry (set_entry _ _ _ _ _)), entry_at_set_entry.
    rewrite (count_at_entry calc).
    destruct (decide ((f', b', t') = (f, b, t))) as [[= -> -> ->]|Hne].
    + rewrite Hens, Hcnt.
      repeat case_decide; simplify_eq; try lia; exfalso; intuition congruence.
    + rewrite !decide_False by congruence. lia.
Qed.

(** The same loop for any other ensemble: the first iteration raises. *)
Lemma count_jobs_unknown fs root f b t e its calc :
  e ≠ "npt" → e ≠ "nvt" → wf_calc calc → is_Some (entry_at calc f b t) →
  its ≠ [] →
  for_each (count_job fs root f b t e) calc its = Raise KeyError.
Proof.
  intros ?? Hwf [ens Hens] Hits. destruct its as [|it its]; [done|].
  cbn [for_each]. rewrite count_job_eq, Hens.
  rewrite bump_unknown; [done|by eapply Hwf|done..].
Qed.

Lemma ensure_entry_wf calc f b t calc' :
  wf_calc calc → ensure_entry calc f b t = Ok calc' →
  wf_calc calc' ∧ is_Some (entry_at calc' f b t)
  ∧ ∀ f' b' t' e' s', count_at calc' f' b' t' e' s' = count_at calc f' b' t' e' s'.
Proof.
  intros Hwf. rewrite ensure_entry_eq. intros [= <-].
  destruct (entry_at calc f b t) as [ens|] eqn:Hens.
  - split_and!; [done|by eexists|done].
  - split_and!.
    + apply wf_calc_set_entry; [done|apply wf_fresh_counts].
    + rewrite entry_at_set_entry_eq. by eexists.
    + intros f' b' t' e' s'. rewrite !count_at_entry, entry_at_set_entry.
      case_decide as Hk; [|done]. injection Hk as -> -> ->. rewrite Hens.
      unfold counter, fresh_counts. simpl.
      repeat (case_decide; simpl; try done).
Qed.

(** ** The iterations of a directory *)

Lemma int_two_digits a b :
  Str.is_digit a = true → Str.is_digit b = true →
  Py.int (String a (String b "")) = Ok (10 * Str.digit_val a + Str.digit_val b).
Proof.
  intros Ha Hb.
  destruct a as [[] [] [] [] [] [] [] []]; try discriminate Ha;
    destruct b as [[] [] [] [] [] [] [] []]; try discriminate Hb; reflexivity.
Qed.

Lemma digit_val_range a : Str.is_digit a = true → 0 ≤ Str.digit_val a ≤ 9.
Proof.
  unfold Str.is_digit, Str.digit_val.
  intros [?%Nat.leb_le ?%Nat.leb_le]%andb_true_iff. lia.
Qed.

Lemma re_match_aimd_spec file :
  Py.re_match_aimd file = true ↔
  ∃ a b rest, file = String a (String b ("_aimd_" +:+ rest))
              ∧ Str.is_digit a = true ∧ Str.is_digit b = true.
Proof.
  unfold Py.re_match_aimd. split.
  - destruct file as [|a [|b tail]]; try done.
    intros [[Ha Hb]%andb_true_iff [rest ->]%startswith_spec]%andb_true_iff.
    by exists a, b, rest.
  - intros (a & b & rest & -> & -> & ->). simpl.
    apply startswith_spec. by exists rest.
Qed.

Lemma int_leading_digits file :
  Py.re_match_aimd file = true →
  Py.int (Str.take 2 file) = Ok (iteration_number file).
Proof.
  intros (a & b & rest & -> & Ha & Hb)%re_match_aimd_spec.
  by apply int_two_digits.
Qed.

Lemma map_result_ok {A B} (f : A → result B) (g : A → B) l :
  (∀ x, x ∈ l → f x = Ok (g x)) → map_result f l = Ok (map g l).
Proof.
  induction l as [|x l IH]; intros Hf; simpl; [done|].
  rewrite (Hf x) by left. res_simpl.
  rewrite IH; [done|]. intros y Hy. apply Hf. by right.
Qed.

(** Line 75 never raises; its value in closed form. *)
Lemma iterations_eq files :
  iterations files =
    Ok (merge_sort Z.le
          (elements (list_to_set (C := gset Z)
             (map iteration_number
                  (filter (λ file, Py.re_match_aimd file = true) files))))).
Proof.
  unfold iterations.
  rewrite (map_result_ok _ iteration_number); [done|].
  intros file [Hm _]%list_elem_of_filter. by apply int_leading_digits.
Qed.

Lemma StronglySorted_le_lt (l : list Z) :
  StronglySorted Z.le l → NoDup l → StronglySorted Z.lt l.
Proof.
  induction 1 as [|x l Hl IH Hx]; intros Hnd; [constructor|].
  apply NoDup_cons in Hnd as [Hxl Hnd]. constructor; [by apply IH|].
  apply Forall_forall. intros y Hy.
  pose proof (proj1 (Forall_forall _ _) Hx y Hy).
  assert (x ≠ y) by (intros ->; done). lia.
Qed.

Lemma iterations_sorted files its :
  iterations files = Ok its → StronglySorted Z.lt its.
Proof.
  rewrite iterations_eq. intros [= <-].
  apply StronglySorted_le_lt.
  - apply (StronglySorted_merge_sort Z.le).
  - rewrite merge_sort_Permutation. apply NoDup_elements.
Qed.

Lemma iterations_elem_of files its n :
  iterations files = Ok its →
  n ∈ its ↔ ∃ file, file ∈ files ∧ Py.re_match_aimd file = true
                     ∧ n = iteration_number file.
Proof.
  rewrite iterations_eq. intros [= <-].
  rewrite merge_sort_Permutation, elem_of_elements, elem_of_list_to_set.
  rewrite list_elem_of_fmap. setoid_rewrite list_elem_of_filter. split.
  - intros (file & -> & ? & ?). by exists file.
  - intros (file & ? & ? & ->). by exists file.
Qed.

Lemma iterations_nil files :
  (∀ file, file ∈ files → Py.re_match_aimd file = false) → iterations files = Ok [].
Proof.
  intros Hnone. rewrite iterations_eq.
  replace (filter _ files) with (@nil string); [done|].
  symmetry. induction files as [|f files IH]; [done|].
  rewrite filter_cons, decide_False.
  - apply IH. intros ??. apply Hnone. by right.
  - rewrite (Hnone f) by left. done.
Qed.

(** C6: the iterations of a directory are the numbers spelt by the two
    leading digits of the file names of the form "two digits, _aimd_,
    anything", each once, in ascending order; for 00_aimd_log,
    00_aimd_REPORT and 02_aimd_log they are 0 and 2. *)
Theorem C6_iterations_sorted_set :
  (∀ files, ∃ its,
      iterations files = Ok its
      ∧ StronglySorted Z.lt its
      ∧ ∀ n, n ∈ its ↔
             ∃ a b rest, String a (String b ("_aimd_" +:+ rest)) ∈ files
                         ∧ Str.is_digit a = true ∧ Str.is_digit b = true
                         ∧ n = 10 * Str.digit_val a + Str.digit_val b)
  ∧ iterations ["00_aimd_log"; "00_aimd_REPORT"; "02_aimd_log"] = Ok [0; 2].
Proof.
  split; [|by vm_compute].
  intros files. destruct (iterations files) as [its|] eqn:Hits.
  2: { by rewrite iterations_eq in Hits. }
  exists its. split_and!; [done|by eapply iterations_sorted|].
  intros n. rewrite (iterations_elem_of files its n Hits). split.
  - intros (file & Hin & (a & b & rest & -> & ? & ?)%re_match_aimd_spec & ->).
    by exists a, b, rest.
  - intros (a & b & rest & Hin & Ha & Hb & ->).
    eexists. split_and!; [done| |done].
    apply re_match_aimd_spec. by exists a, b, rest.
Qed.

(** ** What one directory adds to the table *)

Lemma contribution_classified fs valid root dirs files anc b f e sc last f' b' t' e' s :
  "POSCAR" ∈ files →
  Str.split "/" root = anc ++ [b; f; e; sc; last] →
  anc ≠ [] →
  contribution fs valid (root, dirs, files) f' b' t' e' s =
    if bool_decide (Py.int last = Ok t' ∧ b ∈ valid ∧ f = f' ∧ b = b' ∧ e = e')
    then match iterations files with
         | Ok its => tally fs root its s
         | Raise _ => 0
         end
    else 0.
Proof.
  intros Hposcar Hsplit Hanc. unfold contribution.
  rewrite bool_decide_eq_true_2 by done.
  rewrite Hsplit, reverse_app. simpl.
  destruct (reverse anc) as [|x anc'] eqn:Hrev; [|done].
  apply (f_equal reverse) in Hrev. rewrite reverse_involutive in Hrev. done.
Qed.

Lemma contribution_nonneg fs valid item f b t e s :
  0 ≤ contribution fs valid item f b t e s.
Proof.
  unfold contribution. destruct item as [[root dirs] files].
  repeat case_match; try lia; apply tally_nonneg.
Qed.

Lemma total_app fs valid l1 l2 f b t e s :
  total fs valid (l1 ++ l2) f b t e s =
    total fs valid l1 f b t e s + total fs valid l2 f b t e s.
Proof.
  unfold total. induction l1 as [|x l1 IH]; simpl; [done|]. rewrite IH. lia.
Qed.

Lemma total_cons fs valid item l f b t e s :
  total fs valid (item :: l) f b t e s =
    contribution fs valid item f b t e s + total fs valid l f b t e s.
Proof. reflexivity. Qed.

Lemma total_nonneg fs valid l f b t e s : 0 ≤ total fs valid l f b t e s.
Proof.
  induction l as [|x l IH]; [done|]. rewrite total_cons.
  pose proof (contribution_nonneg fs valid x f b t e s). lia.
Qed.

(** One directory: the shape of the table is kept and every counter grows
    by what the directory contributes. *)
Lemma visit_effect fs valid calc item calc' :
  wf_calc calc → visit fs valid calc item = Ok calc' →
  wf_calc calc'
  ∧ ∀ f b t e s, count_at calc' f b t e s =
                 count_at calc f b t e s + contribution fs valid item f b t e s.
Proof.
  intros Hwf. destruct item as [[root dirs] files].
  destruct (decide ("POSCAR" ∈ files)) as [Hposcar|Hposcar].
  2: { rewrite visit_not_poscar by done. intros [= <-]. split; [done|].
       intros. unfold contribution. rewrite bool_decide_eq_false_2 by done. lia. }
  destruct (decide (6 ≤ length (Str.split "/" root))%nat) as [Hlen|Hlen].
  2: { rewrite visit_shallow by lia. intros [= <-]. split; [done|].
       intros. unfold contribution. rewrite bool_decide_eq_true_2 by done.
       rewrite <-length_reverse in Hlen.
       destruct (reverse _) as [|? [|? [|? [|? [|? [|??]]]]]]; simpl in Hlen; lia. }
  apply six_segments in Hlen as (anc & b0 & f0 & e0 & sc & last & Hanc & Hsplit).
  rewrite (visit_classified _ _ _ _ _ _ _ _ _ _ _ _ Hposcar Hsplit Hanc).
  assert (Hcontr := λ f b t e s,
    contribution_classified fs valid root dirs files anc b0 f0 e0 sc last
                            f b t e s Hposcar Hsplit Hanc).
  destruct (Py.int last) as [t0|] eqn:Hint; res_simpl; [|done].
  case_bool_decide as Hvalid.
  { intros [= <-]. split; [done|]. intros. rewrite Hcontr.
    rewrite bool_decide_eq_false_2; [lia|]. intros (_ & ? & _). done. }
  destruct (ensure_entry calc f0 b0 t0) as [calc1|] eqn:Hensure; res_simpl; [|done].
  destruct (ensure_entry_wf _ _ _ _ _ Hwf Hensure) as (Hwf1 & Hentry & Hsame).
  destruct (iterations files) as [its|] eqn:Hits; res_simpl; [|done].
  destruct (decide (e0 = "npt" ∨ e0 = "nvt")) as [He|He].
  - destruct (count_jobs_known fs root f0 b0 t0 e0 its He calc1 Hwf1 Hentry)
      as (calc2 & -> & Hwf2 & Hsum).
    intros [= <-]. split; [done|]. intros f b t e s.
    rewrite Hsum, Hsame, Hcontr.
    destruct (decide ((f, b, t, e) = (f0, b0, t0, e0))) as [[= -> -> -> ->]|Hne].
    + by rewrite bool_decide_eq_true_2.
    + rewrite bool_decide_eq_false_2; [done|].
      intros ([= ->] & _ & -> & -> & ->). done.
  - destruct its as [|it its].
    + intros [= <-]. split; [done|]. intros f b t e s.
      rewrite Hsame, Hcontr, tally_nil. case_bool_decide; lia.
    + rewrite count_jobs_unknown; [done|..|done|done|done]; naive_solver.
Qed.

(** ** The whole walk *)

Lemma for_each_visit_effect fs valid walk calc calc' :
  wf_calc calc → for_each (visit fs valid) calc walk = Ok calc' →
  wf_calc calc'
  ∧ ∀ f b t e s, count_at calc' f b t e s =
                 count_at calc f b t e s + total fs valid walk f b t e s.
Proof.
  revert calc. induction walk as [|item walk IH]; intros calc Hwf; cbn [for_each].
  - intros [= <-]. split; [done|]. intros. unfold total. simpl. lia.
  - destruct (visit fs valid calc item) as [calc1|] eqn:Hvisit; res_simpl; [|done].
    destruct (visit_effect _ _ _ _ _ Hwf Hvisit) as [Hwf1 Hstep].
    intros [Hwf' Hrest]%IH; [|done]. split; [done|].
    intros. rewrite Hrest, Hstep, total_cons. lia.
Qed.

(** A run that ends well leaves a table of the right shape whose counters
    are the sums of the contributions of the directories. *)
Lemma analyze_walk_effect fs valid walk calc :
  analyze_walk fs valid walk = Ok calc →
  wf_calc calc
  ∧ ∀ f b t e s, count_at calc f b t e s = total fs valid walk f b t e s.
Proof.
  intros [Hwf Hsum]%for_each_visit_effect; [|apply wf_calc_nil].
  split; [done|]. intros. by rewrite Hsum.
Qed.

Lemma for_each_raise_head {A S} (body : S → A → result S) acc x l e :
  body acc x = Raise e → for_each body acc (x :: l) = Raise e.
Proof. intros H. cbn [for_each]. by rewrite H. Qed.

(** Once a directory raises whatever the table is, the run is lost. *)
Lemma analyze_walk_abort fs valid item pre post :
  (∀ calc, ¬ is_ok (visit fs valid calc item)) →
  ¬ is_ok (analyze_walk fs valid (pre ++ item :: post)).
Proof.
  intros Hraise [calc Hrun]. rewrite analyze_walk_app in Hrun.
  destruct (analyze_walk fs valid pre) as [calc0|]; [|done].
  res_simpl. cbn [for_each] in Hrun.
  destruct (visit fs valid calc0 item) as [calc1|] eqn:Hv; [|done].
  apply (Hraise calc0). by exists calc1.
Qed.

Lemma analyze_walk_abort_at fs valid item pre post calc e :
  analyze_walk fs valid pre = Ok calc →
  visit fs valid calc item = Raise e →
  analyze_walk fs valid (pre ++ item :: post) = Raise e.
Proof.
  intros Hpre Hv. rewrite analyze_walk_app, Hpre. res_simpl.
  by apply for_each_raise_head.
Qed.

Lemma main_ok_analyze fs directory :
  is_ok (main fs directory) →
  is_ok (analyze_walk fs (get_valid_cif_files fs directory) (os_walk fs directory)).
Proof.
  unfold main, analyze_calculations. intros [out Hout].
  destruct (analyze_walk _ _ _) as [calc|]; [by exists calc|done].
Qed.

(** ** What [int] accepts *)

Lemma all_chars_app p (a b : string) :
  Str.all_chars p (a +:+ b) = Str.all_chars p a && Str.all_chars p b.
Proof. induction a as [|c a IH]; str_simpl; simpl; [done|]. by rewrite IH, andb_assoc. Qed.

Lemma all_chars_impl (p q : ascii → bool) s :
  (∀ a, p a = true → q a = true) →
  Str.all_chars p s = true → Str.all_chars q s = true.
Proof.
  intros Hpq. induction s as [|c s IH]; simpl; [done|].
  intros [?%Hpq ?%IH]%andb_true_iff. by apply andb_true_iff.
Qed.

Lemma space_numeric a : Str.is_space a = true → numeric_char a = true.
Proof. unfold numeric_char. intros ->. by rewrite !orb_true_r. Qed.

Lemma lstrip_numeric s :
  Str.all_chars numeric_char (Str.lstrip s) = true →
  Str.all_chars numeric_char s = true.
Proof.
  induction s as [|c s IH]; simpl; [done|].
  destruct (Str.is_space c) eqn:Hc; [|done].
  intros ->%IH. by rewrite space_numeric.
Qed.

Lemma lstrip_any_digit s :
  Str.any_char Str.is_digit (Str.lstrip s) = true →
  Str.any_char Str.is_digit s = true.
Proof.
  induction s as [|c s IH]; simpl; [done|].
  destruct (Str.is_space c) eqn:Hc; [|done].
  intros ->%IH. by rewrite orb_true_r.
Qed.

Lemma scan_digits_numeric s acc prev v rest :
  Py.scan_digits acc prev s = Some (v, rest) →
  Str.all_chars Str.is_space rest = true →
  Str.all_chars numeric_char s = true.
Proof.
  revert acc prev. induction s as [|c s IH]; intros acc prev; simpl; [done|].
  destruct (Str.is_digit c) eqn:Hd.
  - intros Hscan Hrest. rewrite (IH _ _ Hscan Hrest), andb_true_r.
    unfold numeric_char. by rewrite Hd.
  - destruct (Ascii.eqb c "_") eqn:Hu.
    + destruct prev; [done|]. intros Hscan Hrest.
      rewrite (IH _ _ Hscan Hrest), andb_true_r.
      unfold numeric_char. by rewrite Hu, orb_true_r.
    + destruct prev; [done|]. intros [= _ <-] Hrest.
      by apply (all_chars_impl _ _ _ space_numeric) in Hrest.
Qed.

(** A name that [int] accepts is made of digits, underscores, a sign and
    white space only, and has a digit. *)
Lemma int_ok_numeric s z :
  Py.int s = Ok z →
  Str.all_chars numeric_char s = true ∧ Str.any_char Str.is_digit s = true.
Proof.
  unfold Py.int. intros Hint.
  assert (Str.all_chars numeric_char (Str.lstrip s) = true
          ∧ Str.any_char Str.is_digit (Str.lstrip s) = true) as [??];
    [|split; [by apply lstrip_numeric|by apply lstrip_any_digit]].
  assert (∀ s2 sign,
    match s2 with
    | String a _ =>
        if Str.is_digit a then
          match Py.scan_digits 0 false s2 with
          | Some (v, rest) =>
              if Str.all_chars Str.is_space rest then Ok (sign * v)
              else Raise ValueError
          | None => Raise ValueError
          end
        else Raise ValueError
    | EmptyString => Raise ValueError
    end = Ok z →
    Str.all_chars numeric_char s2 = true ∧ Str.any_char Str.is_digit s2 = true)
    as Hbody.
  { intros [|a r] sign; [done|]. destruct (Str.is_digit a) eqn:Ha; [|done].
    destruct (Py.scan_digits 0 false (String a r)) as [[v rest]|] eqn:Hscan; [|done].
    destruct (Str.all_chars Str.is_space rest) eqn:Hrest; [|done]. intros _.
    split; [by eapply scan_digits_numeric|]. simpl. by rewrite Ha. }
  destruct (Str.lstrip s) as [|c r]; [done|].
  destruct (Ascii.eqb c "+") eqn:Hplus; [|destruct (Ascii.eqb c "-") eqn:Hminus].
  - apply (Hbody r 1) in Hint as [Hr1 Hr2]. simpl.
    rewrite Hr1, Hr2, andb_true_r, orb_true_r.
    unfold numeric_char. by rewrite Hplus, !orb_true_r.
  - apply (Hbody r (-1)) in Hint as [Hr1 Hr2]. simpl.
    rewrite Hr1, Hr2, andb_true_r, orb_true_r.
    unfold numeric_char. by rewrite Hminus, !orb_true_r.
  - by apply (Hbody (String c r) 1) in Hint.
Qed.

Lemma scan_digits_all_digits s acc :
  Str.all_chars Str.is_digit s = true →
  ∃ v, Py.scan_digits acc false s = Some (v, "").
Proof.
  revert acc. induction s as [|a s IH]; intros acc; cbn [Str.all_chars Py.scan_digits].
  - by eexists.
  - intros [-> Hs]%andb_true_iff. by apply IH.
Qed.

(** [int] reads every name that is made of digits. *)
Lemma int_digits s :
  s ≠ "" → Str.all_chars Str.is_digit s = true → is_ok (Py.int s).
Proof.
  destruct s as [|a s]; [done|]. intros _ Hall.
  destruct (scan_digits_all_digits _ 0 Hall) as [v Hv].
  cbn [Str.all_chars] in Hall. apply andb_true_iff in Hall as [Ha _].
  assert (Str.is_space a = false) as Hspace.
  { destruct a as [[] [] [] [] [] [] [] []]; try discriminate Ha; reflexivity. }
  assert (Ascii.eqb a "+" = false) as Hplus.
  { destruct a as [[] [] [] [] [] [] [] []]; try discriminate Ha; reflexivity. }
  assert (Ascii.eqb a "-" = false) as Hminus.
  { destruct a as [[] [] [] [] [] [] [] []]; try discriminate Ha; reflexivity. }
  unfold Py.int. cbn [Str.lstrip]. rewrite Hspace, Hplus, Hminus, Ha, Hv.
  cbn [Str.all_chars]. by eexists.
Qed.

(** ** The claims about one directory *)

(** C5: a directory that holds POSCAR and whose path splits into fewer
    than 6 segments is passed over: the table is left as it is, nothing is
    raised, and the run is the run without that directory. *)
Theorem C5_shallow_directory_skipped fs valid root dirs files :
  "POSCAR" ∈ files →
  (length (Str.split "/" root) < 6)%nat →
  (∀ calc, visit fs valid calc (root, dirs, files) = Ok calc)
  ∧ (∀ pre post,
       analyze_walk fs valid (pre ++ (root, dirs, files) :: post)
       = analyze_walk fs valid (pre ++ post))
  ∧ (∀ f b t e s, contribution fs valid (root, dirs, files) f b t e s = 0).
Proof.
  intros Hposcar Hlen.
  assert (∀ calc, visit fs valid calc (root, dirs, files) = Ok calc) as Hskip
    by (intros; by apply visit_shallow).
  split_and!; [done|intros; by apply analyze_walk_skip|].
  intros. unfold contribution. rewrite bool_decide_eq_true_2 by done.
  rewrite <-length_reverse in Hlen.
  by destruct (reverse _) as [|? [|? [|? [|? [|? [|??]]]]]]; simpl in Hlen; try lia.
Qed.

Lemma C5_shallow_directory_skipped_witness :
  "POSCAR" ∈ ["POSCAR"; "00_aimd_log"]
  ∧ (length (Str.split "/" "root/A/PBE/npt/300") < 6)%nat
  ∧ visit Scenario.fs {["A"]} []
      ("root/A/PBE/npt/300", [], ["POSCAR"; "00_aimd_log"]) = Ok [].
Proof.
  split; [left|]. split; [vm_compute; lia|].
  apply (C5_shallow_directory_skipped Scenario.fs {["A"]}
           "root/A/PBE/npt/300" [] ["POSCAR"; "00_aimd_log"]).
  - left.
  - vm_compute. lia.
Defined.

(** C4: a directory that holds POSCAR, of sufficient depth, whose
    structure name (the 5th segment from the end) is not a valid name adds
    nothing to the table: a visit that returns returns the table it was
    given, it does return when the temperature segment is a number,
    neither the other files of the directory nor the file system are looked
    at, and a run that ends well ends the same without that directory. *)
Theorem C4_invalid_structure_skipped fs valid root dirs files anc b f e sc last :
  "POSCAR" ∈ files →
  Str.split "/" root = anc ++ [b; f; e; sc; last] →
  anc ≠ [] →
  b ∉ valid →
  (∀ calc calc', visit fs valid calc (root, dirs, files) = Ok calc' → calc' = calc)
  ∧ (∀ calc, is_ok (Py.int last) → visit fs valid calc (root, dirs, files) = Ok calc)
  ∧ (∀ calc fs' dirs' files',
       "POSCAR" ∈ files' →
       visit fs' valid calc (root, dirs', files') = visit fs valid calc (root, dirs, files))
  ∧ (∀ f' b' t' e' s', contribution fs valid (root, dirs, files) f' b' t' e' s' = 0)
  ∧ (∀ pre post calc,
       analyze_walk fs valid (pre ++ (root, dirs, files) :: post) = Ok calc →
       analyze_walk fs valid (pre ++ post) = Ok calc).
Proof.
  intros Hposcar Hsplit Hanc Hvalid.
  assert (∀ fs' dirs' files' calc, "POSCAR" ∈ files' →
    visit fs' valid calc (root, dirs', files') = (_ ← Py.int last; Ok calc)) as Hvisit.
  { intros fs' dirs' files' calc Hp.
    rewrite (visit_classified _ _ _ _ _ _ _ _ _ _ _ _ Hp Hsplit Hanc).
    destruct (Py.int last); [|done]. res_simpl. by rewrite bool_decide_eq_true_2. }
  split_and!.
  - intros calc calc'. rewrite Hvisit by done.
    destruct (Py.int last); [|done]. by intros [= <-].
  - intros calc [t Ht]. rewrite Hvisit by done. by rewrite Ht.
  - intros calc fs' dirs' files' Hp. by rewrite !Hvisit.
  - intros. rewrite (contribution_classified _ _ _ _ _ _ _ _ _ _ _ _ _ _ _ _
                       Hposcar Hsplit Hanc).
    rewrite bool_decide_eq_false_2; [done|]. by intros (_ & ? & _).
  - intros pre post calc. rewrite !analyze_walk_app.
    destruct (analyze_walk fs valid pre) as [calc0|]; [|done]. res_simpl.
    cbn [for_each]. rewrite Hvisit by done.
    by destruct (Py.int last).
Qed.

Lemma C4_invalid_structure_skipped_witness :
  visit Scenario.fs {["A"]} []
    ("root/B/PBE/npt/1.0/300", [], ["POSCAR"; "00_aimd_log"; "01_aimd_log"])
  = Ok [].
Proof.
  apply (C4_invalid_structure_skipped Scenario.fs {["A"]}
           "root/B/PBE/npt/1.0/300" [] ["POSCAR"; "00_aimd_log"; "01_aimd_log"]
           ["root"] "B" "PBE" "npt" "1.0" "300").
  - left.
  - reflexivity.
  - discriminate.
  - by intros [=]%elem_of_singleton.
  - by exists 300.
Defined.

(** C1, as stated, fails in its second half: the directories [-5] and
    [+3_0] hold POSCAR at sufficient depth, their names are not made of
    digits only, and the run ends well and prints the rows of the
    temperatures -5 and 30. *)
Lemma C1_counterexample :
  ("root/A/PBE/npt/1.0/-5", [], ["POSCAR"; "00_aimd_log"]) ∈ os_walk signed_fs "root"
  ∧ ("root/A/PBE/npt/1.0/+3_0", [], ["POSCAR"; "00_aimd_log"; "00_aimd_REPORT"])
    ∈ os_walk signed_fs "root"
  ∧ (6 ≤ length (Str.split "/" "root/A/PBE/npt/1.0/-5"))%nat
  ∧ (6 ≤ length (Str.split "/" "root/A/PBE/npt/1.0/+3_0"))%nat
  ∧ last (Str.split "/" "root/A/PBE/npt/1.0/-5") = Some "-5"
  ∧ last (Str.split "/" "root/A/PBE/npt/1.0/+3_0") = Some "+3_0"
  ∧ Str.all_chars Str.is_digit "-5" = false
  ∧ Str.all_chars Str.is_digit "+3_0" = false
  ∧ main signed_fs "root"
    = Ok ["Functional: PBE" +:+ newline;
          "Structure                 Temperature  npt  nvt  npt(q) nvt(q)";
          "--------------------------------------------------------------------------------";
          "A                         -5           0    0    1      0     ";
          "                          30           1    0    0      0     ";
          ""].
Proof.
  split_and!; try (vm_compute; reflexivity).
  - apply (list_elem_of_lookup_2 _ 5%nat). reflexivity.
  - apply (list_elem_of_lookup_2 _ 6%nat). reflexivity.
Qed.

(** C1 (amended): a directory that holds POSCAR, of sufficient depth,
    whose last path segment [int] does not accept makes the visit raise
    ValueError, whatever the table, the valid names and the other files; a
    walk that holds it does not end well, it ends with ValueError as soon
    as the directories before it are done, and nothing is printed.  The
    other way round, in a run that ends well every such last segment is
    accepted by [int]: it has a digit and is made of digits, underscores,
    a sign and white space only.  A name made of digits only is always
    accepted, but it need not be such a name. *)
Theorem C1_non_numeric_temperature_aborts fs valid :
  (∀ root dirs files,
     "POSCAR" ∈ files →
     (6 ≤ length (Str.split "/" root))%nat →
     (∀ seg, last (Str.split "/" root) = Some seg → ∀ z, Py.int seg ≠ Ok z) →
     (∀ calc, visit fs valid calc (root, dirs, files) = Raise ValueError)
     ∧ (∀ pre post,
          ¬ is_ok (analyze_walk fs valid (pre ++ (root, dirs, files) :: post)))
     ∧ (∀ pre post calc,
          analyze_walk fs valid pre = Ok calc →
          analyze_walk fs valid (pre ++ (root, dirs, files) :: post) = Raise ValueError)
     ∧ (∀ directory,
          (root, dirs, files) ∈ os_walk fs directory → ¬ is_ok (main fs directory)))
  ∧ (∀ walk root dirs files,
       is_ok (analyze_walk fs valid walk) →
       (root, dirs, files) ∈ walk →
       "POSCAR" ∈ files →
       (6 ≤ length (Str.split "/" root))%nat →
       ∃ seg z, last (Str.split "/" root) = Some seg
                ∧ Py.int seg = Ok z
                ∧ Str.all_chars numeric_char seg = true
                ∧ Str.any_char Str.is_digit seg = true)
  ∧ (∀ seg, seg ≠ "" → Str.all_chars Str.is_digit seg = true → is_ok (Py.int seg)).
Proof.
  assert (∀ valid' root dirs files,
    "POSCAR" ∈ files →
    (6 ≤ length (Str.split "/" root))%nat →
    ∃ seg, last (Str.split "/" root) = Some seg
      ∧ ∀ calc, visit fs valid' calc (root, dirs, files) =
                match Py.int seg with
                | Ok _ => visit fs valid' calc (root, dirs, files)
                | Raise _ => Raise ValueError
                end) as Hvisit.
  { intros valid' root dirs files Hposcar
      (anc & b & f & e & sc & seg & Hanc & Hsplit)%six_segments.
    exists seg. split.
    { rewrite Hsplit. by rewrite !last_app_cons. }
    intros calc. destruct (Py.int seg) as [t|err] eqn:Hint; [done|].
    rewrite (visit_classified _ _ _ _ _ _ _ _ _ _ _ _ Hposcar Hsplit Hanc), Hint.
    by rewrite (int_raises _ _ Hint). }
  split_and!.
  - intros root dirs files Hposcar Hlen Hbad.
    assert (∀ valid' calc,
      visit fs valid' calc (root, dirs, files) = Raise ValueError) as Hraise.
    { intros valid' calc.
      destruct (Hvisit valid' root dirs files Hposcar Hlen) as (seg & Hlast & ->).
      destruct (Py.int seg) as [z|] eqn:Hint; [|done].
      by destruct (Hbad seg Hlast z). }
    split_and!.
    + apply Hraise.
    + intros pre post. apply analyze_walk_abort.
      intros calc [calc' Hok]. by rewrite Hraise in Hok.
    + intros pre post calc Hpre. by eapply analyze_walk_abort_at.
    + intros directory (pre & post & Hwalk)%list_elem_of_split Hok%main_ok_analyze.
      rewrite Hwalk in Hok. revert Hok. apply analyze_walk_abort.
      intros calc [calc' Hok]. by rewrite Hraise in Hok.
  - intros walk root dirs files Hok (pre & post & ->)%list_elem_of_split Hposcar Hlen.
    destruct (Hvisit valid root dirs files Hposcar Hlen) as (seg & Hlast & Hv).
    exists seg. destruct (Py.int seg) as [z|] eqn:Hint.
    + exists z. destruct (int_ok_numeric _ _ Hint). by split_and!.
    + exfalso. revert Hok. apply analyze_walk_abort.
      intros calc [calc' Hok]. by rewrite Hv in Hok.
  - apply int_digits.
Qed.

Lemma C1_non_numeric_temperature_aborts_witness :
  visit Scenario.fs {["A"]} [] ("root/A/PBE/npt/1.0/300K", [], ["POSCAR"])
  = Raise ValueError.
Proof.
  apply (proj1 (C1_non_numeric_temperature_aborts Scenario.fs {["A"]})
           "root/A/PBE/npt/1.0/300K" [] ["POSCAR"]).
  - left.
  - vm_compute. lia.
  - intros seg [= <-] z. discriminate.
Defined.

(** ** Entries stay *)

Lemma ensure_entry_entries calc f b t calc' :
  ensure_entry calc f b t = Ok calc' →
  is_Some (entry_at calc' f b t)
  ∧ ∀ f' b' t', is_Some (entry_at calc f' b' t') → is_Some (entry_at calc' f' b' t').
Proof.
  rewrite ensure_entry_eq. intros [= <-].
  destruct (entry_at calc f b t) as [ens|] eqn:Hens.
  - split; [by eexists|done].
  - split; [rewrite entry_at_set_entry_eq; by eexists|].
    intros f' b' t' Hsome. rewrite entry_at_set_entry.
    case_decide; [by eexists|done].
Qed.

Lemma count_jobs_entries fs root f b t e its calc calc' :
  for_each (count_job fs root f b t e) calc its = Ok calc' →
  ∀ f' b' t', is_Some (entry_at calc f' b' t') → is_Some (entry_at calc' f' b' t').
Proof.
  revert calc. induction its as [|it its IH]; intros calc; cbn [for_each].
  - by intros [= <-].
  - rewrite count_job_eq.
    destruct (entry_at calc f b t) as [ens|]; [|done].
    destruct (bump ens e _) as [ens'|]; res_simpl; [|done].
    intros Hrun f' b' t' Hsome. eapply IH; [done|].
    rewrite entry_at_set_entry. case_decide; [by eexists|done].
Qed.

Lemma visit_entries fs valid calc item calc' :
  visit fs valid calc item = Ok calc' →
  ∀ f b t, is_Some (entry_at calc f b t) → is_Some (entry_at calc' f b t).
Proof.
  destruct item as [[root dirs] files].
  destruct (decide ("POSCAR" ∈ files)) as [Hposcar|Hposcar].
  2: { rewrite visit_not_poscar by done. by intros [= <-]. }
  destruct (decide (6 ≤ length (Str.split "/" root))%nat) as [Hlen|Hlen].
  2: { rewrite visit_shallow by lia. by intros [= <-]. }
  apply six_segments in Hlen as (anc & b0 & f0 & e0 & sc & seg & Hanc & Hsplit).
  rewrite (visit_classified _ _ _ _ _ _ _ _ _ _ _ _ Hposcar Hsplit Hanc).
  destruct (Py.int seg) as [t0|]; res_simpl; [|done].
  case_bool_decide; [by intros [= <-]|].
  destruct (ensure_entry _ _ _ _) as [calc1|] eqn:Hensure; res_simpl; [|done].
  destruct (iterations files) as [its|]; res_simpl; [|done].
  intros Hrun f b t Hsome. eapply count_jobs_entries; [done|].
  by apply (proj2 (ensure_entry_entries _ _ _ _ _ Hensure)).
Qed.

Lemma for_each_visit_entries fs valid walk calc calc' :
  for_each (visit fs valid) calc walk = Ok calc' →
  ∀ f b t, is_Some (entry_at calc f b t) → is_Some (entry_at calc' f b t).
Proof.
  revert calc. induction walk as [|item walk IH]; intros calc; cbn [for_each].
  - by intros [= <-].
  - destruct (visit fs valid calc item) as [calc1|] eqn:Hvisit; res_simpl; [|done].
    intros Hrun f b t Hsome. eapply IH; [done|]. by eapply visit_entries.
Qed.

(** A directory with a valid structure name makes its entry. *)
Lemma visit_creates fs valid calc root dirs files anc b f e sc seg t calc' :
  "POSCAR" ∈ files →
  Str.split "/" root = anc ++ [b; f; e; sc; seg] →
  anc ≠ [] → b ∈ valid → Py.int seg = Ok t →
  visit fs valid calc (root, dirs, files) = Ok calc' →
  is_Some (entry_at calc' f b t).
Proof.
  intros Hposcar Hsplit Hanc Hvalid Hint.
  rewrite (visit_classified _ _ _ _ _ _ _ _ _ _ _ _ Hposcar Hsplit Hanc), Hint.
  res_simpl. rewrite bool_decide_eq_false_2 by (intros ?; done).
  destruct (ensure_entry _ _ _ _) as [calc1|] eqn:Hensure; res_simpl; [|done].
  destruct (iterations files) as [its|]; res_simpl; [|done].
  intros Hrun. eapply count_jobs_entries; [done|].
  apply (proj1 (ensure_entry_entries _ _ _ _ _ Hensure)).
Qed.



(** C2, as stated, fails: the only calculation directory of [foo_fs] has a
    valid structure name and the ensemble segment "foo", and the run ends
    well, with a report. *)
Lemma C2_counterexample :
  os_walk foo_fs "root" !! 5%nat
    = Some ("root/A/PBE/foo/1.0/300", [], ["POSCAR"; "INCAR"])
  ∧ "A" ∈ get_valid_cif_files foo_fs "root"
  ∧ analyze_calculations foo_fs "root" (get_valid_cif_files foo_fs "root")
    = Ok [("PBE", [("A", [(300, [("npt", [("completed", 0); ("not_started", 0)]);
                                 ("nvt", [("completed", 0); ("not_started", 0)])])])])]
  ∧ is_ok (main foo_fs "root").
Proof.
  split_and!.
  - reflexivity.
  - apply elem_of_elements. vm_compute. left.
  - vm_compute. reflexivity.
  - eexists. vm_compute. reflexivity.
Qed.

Lemma iterations_not_nil files its :
  iterations files = Ok its →
  (∃ file, file ∈ files ∧ Py.re_match_aimd file = true) → its ≠ [].
Proof.
  intros Hits (file & Hin & Hm) ->.
  assert (iteration_number file ∈ @nil Z) as []%elem_of_nil.
  apply (iterations_elem_of _ _ _ Hits). by exists file.
Qed.

(** C2 (amended): a directory with a valid structure name, sufficient
    depth, a numeric temperature segment, an ensemble segment that is
    neither "npt" nor "nvt", and at least one file name of the form of an
    iteration file, raises KeyError at the first iteration, on every table
    that a walk can have built; the run then ends with KeyError as soon as
    the directories before it are done, and no walk that holds the directory
    ends well. *)
Theorem C2_unknown_ensemble_key_error fs valid root dirs files anc b f e sc seg t :
  "POSCAR" ∈ files →
  Str.split "/" root = anc ++ [b; f; e; sc; seg] →
  anc ≠ [] →
  b ∈ valid →
  Py.int seg = Ok t →
  e ≠ "npt" → e ≠ "nvt" →
  (∃ file, file ∈ files ∧ Py.re_match_aimd file = true) →
  (∀ pre calc,
     analyze_walk fs valid pre = Ok calc →
     visit fs valid calc (root, dirs, files) = Raise KeyError)
  ∧ (∀ pre post calc,
       analyze_walk fs valid pre = Ok calc →
       analyze_walk fs valid (pre ++ (root, dirs, files) :: post) = Raise KeyError)
  ∧ (∀ pre post,
       ¬ is_ok (analyze_walk fs valid (pre ++ (root, dirs, files) :: post))).
Proof.
  intros Hposcar Hsplit Hanc Hvalid Hint Hnpt Hnvt Hfile.
  assert (∀ calc, wf_calc calc →
    visit fs valid calc (root, dirs, files) = Raise KeyError) as Hraise.
  { intros calc Hwf.
    rewrite (visit_classified _ _ _ _ _ _ _ _ _ _ _ _ Hposcar Hsplit Hanc), Hint.
    res_simpl. rewrite bool_decide_eq_false_2 by (intros ?; done).
    destruct (ensure_entry calc f b t) as [calc1|] eqn:Hensure;
      [|by rewrite ensure_entry_eq in Hensure].
    destruct (ensure_entry_wf _ _ _ _ _ Hwf Hensure) as (Hwf1 & Hentry & _).
    destruct (iterations files) as [its|] eqn:Hits;
      [|by rewrite iterations_eq in Hits].
    res_simpl. apply count_jobs_unknown; try done.
    by eapply iterations_not_nil. }
  split_and!.
  - intros pre calc [Hwf _]%analyze_walk_effect. by apply Hraise.
  - intros pre post calc Hpre. eapply analyze_walk_abort_at; [done|].
    apply analyze_walk_effect in Hpre as [Hwf _]. by apply Hraise.
  - intros pre post [calc Hrun]. rewrite analyze_walk_app in Hrun.
    destruct (analyze_walk fs valid pre) as [calc0|] eqn:Hpre; [|done].
    apply analyze_walk_effect in Hpre as [Hwf _].
    res_simpl. cbn [for_each] in Hrun. by rewrite Hraise in Hrun.
Qed.

Lemma C2_unknown_ensemble_key_error_witness :
  analyze_walk Scenario.fs {["A"]}
    ([] ++ ("root/A/PBE/foo/1.0/300", [], ["POSCAR"; "00_aimd_log"]) :: [])
  = Raise KeyError.
Proof.
  apply (C2_unknown_ensemble_key_error Scenario.fs {["A"]}
           "root/A/PBE/foo/1.0/300" [] ["POSCAR"; "00_aimd_log"]
           ["root"] "A" "PBE" "foo" "1.0" "300" 300) with (calc := []).
  - left.
  - reflexivity.
  - discriminate.
  - by apply elem_of_singleton.
  - reflexivity.
  - discriminate.
  - discriminate.
  - exists "00_aimd_log". split; [right; left|reflexivity].
  - reflexivity.
Defined.

(** C8: two directories of one walk with the same functional, structure,
    temperature and ensemble share one record of counters: after a run that
    ends well, each counter of that record is the number of iterations of
    that status of the first directory, plus that of the second, plus what
    the other directories of the walk add to the same key. *)
Theorem C8_tallies_summed fs valid b f e t
    root1 dirs1 files1 anc1 sc1 seg1 root2 dirs2 files2 anc2 sc2 seg2 :
  "POSCAR" ∈ files1 →
  Str.split "/" root1 = anc1 ++ [b; f; e; sc1; seg1] →
  anc1 ≠ [] → Py.int seg1 = Ok t →
  "POSCAR" ∈ files2 →
  Str.split "/" root2 = anc2 ++ [b; f; e; sc2; seg2] →
  anc2 ≠ [] → Py.int seg2 = Ok t →
  b ∈ valid →
  e = "npt" ∨ e = "nvt" →
  ∀ pre mid post calc,
    analyze_walk fs valid
      (pre ++ (root1, dirs1, files1) :: mid ++ (root2, dirs2, files2) :: post)
    = Ok calc →
    ∃ its1 its2 ens counts,
      iterations files1 = Ok its1
      ∧ iterations files2 = Ok its2
      ∧ entry_at calc f b t = Some ens
      ∧ Dict.get ens e = Some counts
      ∧ ∀ s, s = "completed" ∨ s = "not_started" →
             Dict.get counts s =
               Some (tally fs root1 its1 s + tally fs root2 its2 s
                     + total fs valid (pre ++ mid ++ post) f b t e s).
Proof.
  intros Hp1 Hs1 Ha1 Hi1 Hp2 Hs2 Ha2 Hi2 Hvalid He pre mid post calc Hrun.
  destruct (iterations files1) as [its1|] eqn:Hits1;
    [|by rewrite iterations_eq in Hits1].
  destruct (iterations files2) as [its2|] eqn:Hits2;
    [|by rewrite iterations_eq in Hits2].
  destruct (analyze_walk_effect _ _ _ _ Hrun) as [Hwf Hsum].
  assert (is_Some (entry_at calc f b t)) as [ens Hens].
  { rewrite analyze_walk_app in Hrun.
    destruct (analyze_walk fs valid pre) as [calc0|]; [|done]. res_simpl.
    cbn [for_each] in Hrun.
    destruct (visit fs valid calc0 (root1, dirs1, files1)) as [calc1|] eqn:Hv1;
      [|done].
    res_simpl. eapply for_each_visit_entries; [done|].
    apply (visit_creates fs valid calc0 root1 dirs1 files1 anc1 b f e sc1 seg1 t
             calc1 Hp1 Hs1 Ha1 Hvalid Hi1 Hv1). }
  destruct (Hwf _ _ _ _ Hens) as (c1 & q1 & c2 & q2 & ->).
  assert (∀ s, counter [("npt", counts_pair c1 q1); ("nvt", counts_pair c2 q2)] e s
               = tally fs root1 its1 s + tally fs root2 its2 s
                 + total fs valid (pre ++ mid ++ post) f b t e s) as Hcounter.
  { intros s. specialize (Hsum f b t e s).
    rewrite count_at_entry, Hens in Hsum. rewrite Hsum.
    rewrite !total_app, !total_cons, !total_app, !total_cons.
    rewrite (contribution_classified _ _ _ _ _ _ _ _ _ _ _ _ _ _ _ _ Hp1 Hs1 Ha1).
    rewrite (contribution_classified _ _ _ _ _ _ _ _ _ _ _ _ _ _ _ _ Hp2 Hs2 Ha2).
    rewrite !bool_decide_eq_true_2 by done. rewrite Hits1, Hits2. lia. }
  exists its1, its2.
  destruct He as [-> | ->]; eexists _, _;
    (split_and!; [done|done|done|reflexivity|]);
    intros s Hs; rewrite <-Hcounter; unfold counter;
    destruct Hs as [-> | ->]; reflexivity.
Qed.

Lemma C8_tallies_summed_witness :
  ∃ its1 its2 ens counts,
    iterations ["POSCAR"; "00_aimd_log"; "00_aimd_REPORT"; "01_aimd_log"] = Ok its1
    ∧ iterations ["POSCAR"; "00_aimd_log"; "02_aimd_log"; "03_aimd_log"] = Ok its2
    ∧ entry_at
        [("PBE", [("A", [(300, [("npt", [("completed", 1); ("not_started", 4)]);
                                ("nvt", [("completed", 0); ("not_started", 0)])])])])]
        "PBE" "A" 300 = Some ens
    ∧ Dict.get ens "npt" = Some counts
    ∧ ∀ s, s = "completed" ∨ s = "not_started" →
           Dict.get counts s =
             Some (tally Scenario.fs "root/A/PBE/npt/1.0/300" its1 s
                   + tally Scenario.fs "root/A/PBE/npt/1.1/300" its2 s
                   + total Scenario.fs {["A"]} ([] ++ [] ++ []) "PBE" "A" 300 "npt" s).
Proof.
  apply (C8_tallies_summed Scenario.fs {["A"]} "A" "PBE" "npt" 300
           "root/A/PBE/npt/1.0/300" []
           ["POSCAR"; "00_aimd_log"; "00_aimd_REPORT"; "01_aimd_log"]
           ["root"] "1.0" "300"
           "root/A/PBE/npt/1.1/300" []
           ["POSCAR"; "00_aimd_log"; "02_aimd_log"; "03_aimd_log"]
           ["root"] "1.1" "300").
  - left.
  - reflexivity.
  - discriminate.
  - reflexivity.
  - left.
  - reflexivity.
  - discriminate.
  - reflexivity.
  - by apply elem_of_singleton.
  - by left.
  - vm_compute. reflexivity.
Defined.

(** ** The status of an iteration *)

(** The name of the report file of the iteration that a file name of the
    form "two digits, _aimd_, anything" stands for has the same two
    digits. *)
Lemma format_02d_digits a b :
  Str.is_digit a = true → Str.is_digit b = true →
  Py.format_02d (10 * Str.digit_val a + Str.digit_val b) = String a (String b "").
Proof.
  intros Ha Hb.
  destruct a as [[] [] [] [] [] [] [] []]; try discriminate Ha;
    destruct b as [[] [] [] [] [] [] [] []]; try discriminate Hb;
    vm_compute; reflexivity.
Qed.

Example status_P5_present :
  get_job_status (tree_fs "d" (Dir [("03_aimd_REPORT", File "anything")])) "d" 3
  = "completed".
Proof. vm_compute. reflexivity. Qed.

Example status_P5_absent :
  get_job_status (tree_fs "d" (Dir [("03_aimd_log", File "")])) "d" 3
  = "not_started".
Proof. vm_compute. reflexivity. Qed.

(** ** The report *)

Lemma print_row_eq structure i item line :
  print_row structure i item = Ok line →
  line = row (if (i =? 0)%nat then structure else "") item.
Proof.
  destruct item as [t ens]. unfold print_row, row, counter, Dict.getitem. simpl.
  destruct (Dict.get ens "npt") as [npt|]; res_simpl; [|done].
  destruct (Dict.get npt "completed") as [c1|]; res_simpl; [|done].
  destruct (Dict.get npt "not_started") as [q1|]; res_simpl; [|done].
  destruct (Dict.get ens "nvt") as [nvt|]; res_simpl; [|done].
  destruct (Dict.get nvt "completed") as [c2|]; res_simpl; [|done].
  destruct (Dict.get nvt "not_started") as [q2|]; res_simpl; [|done].
  by intros [= <-].
Qed.

Lemma map_result_imap_from {A B} (f : nat → A → result B) (g : nat → A → B)
    (j : nat → nat) l k :
  (∀ i x y, f i x = Ok y → y = g i x) →
  map_result (λ p, f p.1 p.2) (imap (λ i x, (j i, x)) l) = Ok k →
  k = imap (λ i, g (j i)) l.
Proof.
  intros Hfg. revert j k.
  induction l as [|x l IH]; intros j k; simpl; [by intros [= <-]|].
  destruct (f (j 0%nat) x) as [y|] eqn:Hy; res_simpl; [|done].
  destruct (map_result _ _) as [ys|] eqn:Hys; res_simpl; [|done].
  intros [= <-]. f_equal; [by apply Hfg|].
  by apply (IH (j ∘ S)).
Qed.

Lemma map_result_imap {A B} (f : nat → A → result B) (g : nat → A → B) l k :
  (∀ i x y, f i x = Ok y → y = g i x) →
  map_result (λ p, f p.1 p.2) (imap pair l) = Ok k → k = imap g l.
Proof. intros Hfg. by apply (map_result_imap_from f g id). Qed.

Global Instance key_le_trans : Transitive key_le.
Proof. intros x y z. unfold key_le. lia. Qed.

Global Instance key_le_total : Total key_le.
Proof. intros x y. unfold key_le. lia. Qed.

Lemma temperatures_sorted_spec temperatures :
  temperatures_sorted temperatures ≡ₚ temperatures
  ∧ StronglySorted Z.le (temperatures_sorted temperatures).*1.
Proof.
  unfold temperatures_sorted. split; [apply merge_sort_Permutation|].
  apply (StronglySorted_fmap fst key_le Z.le); [done|].
  apply (StronglySorted_merge_sort key_le).
Qed.

Example report_P7 :
  main unsorted_fs "root"
  = Ok ["Functional: PBE" +:+ newline;
        "Structure                 Temperature  npt  nvt  npt(q) nvt(q)";
        "--------------------------------------------------------------------------------";
        "A                         100          1    0    0      0     ";
        "                          300          0    0    0      0     ";
        "                          500          0    0    1      0     ";
        ""].
Proof. vm_compute. reflexivity. Qed.

(** ** Paths in a tree *)

Lemma node_rect' (P : node → Prop) :
  (∀ c, P (File c)) → P Special →
  (∀ es, Forall (λ e, P e.2) es → P (Dir es)) →
  ∀ t, P t.
Proof.
  intros Hf Hs Hd. fix IH 1. intros [c| |es]; [apply Hf|apply Hs|].
  apply Hd. induction es as [|[name sub] es IHes]; constructor; [apply IH|done].
Qed.

Lemma wf_node_Dir es :
  wf_node (Dir es) = true ↔
  NoDup es.*1 ∧ Forall (λ e, wf_name e.1 = true ∧ wf_node e.2 = true) es.
Proof.
  cbn [wf_node]. rewrite andb_true_iff, bool_decide_eq_true.
  apply and_iff_compat_l.
  induction es as [|[name sub] es IH]; [by split; [constructor|]|].
  rewrite !andb_true_iff, IH, Forall_cons. simpl. tauto.
Qed.

Lemma listing_Dir top es :
  listing top (Dir es) =
    (top, es) :: concat (map (λ e, listing (Py.os_path_join top e.1) e.2) es).
Proof.
  cbn [listing]. f_equal.
  induction es as [|[name sub] es IH]; [done|]. simpl. by rewrite IH.
Qed.

Lemma elem_of_concat {A} (x : A) (ls : list (list A)) :
  x ∈ concat ls ↔ ∃ l, x ∈ l ∧ l ∈ ls.
Proof.
  induction ls as [|l0 ls IH]; simpl.
  - split; [by intros ?%elem_of_nil|by intros (? & _ & ?%elem_of_nil)].
  - rewrite elem_of_app, IH. split.
    + intros [?|(l & ? & ?)]; [exists l0|exists l]; split; (done || by constructor).
    + intros (l & ? & [-> |?]%elem_of_cons); [by left|right; by exists l].
Qed.

(** Every directory of the listing is found by a chain of names. *)
Lemma listing_at_path t top root es :
  (root, es) ∈ listing top t →
  ∃ segs, root = path_below top segs ∧ at_path t segs es.
Proof.
  revert top. induction t as [c| |entries IH] using node_rect'; intros top.
  - by intros ?%elem_of_nil.
  - by intros ?%elem_of_nil.
  - rewrite listing_Dir. intros [[= -> ->]|Hin]%elem_of_cons.
    + exists []. split; [done|constructor].
    + apply elem_of_concat in Hin as (l & Hin & Hl).
      apply list_elem_of_fmap in Hl as ([name sub] & -> & Hentry).
      pose proof (proj1 (Forall_forall _ _) IH _ Hentry) as IHsub.
      destruct (IHsub _ Hin) as (segs & -> & Hat).
      exists (name :: segs). split; [done|]. by econstructor.
Qed.

Lemma at_path_wf t segs es :
  wf_node t = true → at_path t segs es →
  Forall (λ n, wf_name n = true) segs
  ∧ NoDup es.*1
  ∧ Forall (λ e, wf_name e.1 = true ∧ wf_node e.2 = true) es.
Proof.
  intros Hwf Hat. induction Hat as [es|es name sub segs es' Hin Hat IH].
  - apply wf_node_Dir in Hwf as [??]. by split_and!.
  - apply wf_node_Dir in Hwf as [Hnd Hall].
    destruct (proj1 (Forall_forall _ _) Hall _ Hin) as [Hname Hsub].
    destruct (IH Hsub) as (? & ? & ?). split_and!; [by constructor|done..].
Qed.

Lemma NoDup_fst_functional {A B} (l : list (A * B)) a b1 b2 :
  NoDup l.*1 → (a, b1) ∈ l → (a, b2) ∈ l → b1 = b2.
Proof.
  induction l as [|[a' b'] l IH]; [by intros _ ?%elem_of_nil|].
  rewrite fmap_cons, NoDup_cons. intros [Hnotin Hnd].
  intros [H1|H1]%elem_of_cons [H2|H2]%elem_of_cons.
  - congruence.
  - injection H1 as -> ->. destruct Hnotin.
    apply list_elem_of_fmap. by exists (a', b2).
  - injection H2 as -> ->. destruct Hnotin.
    apply list_elem_of_fmap. by exists (a', b1).
  - by apply IH.
Qed.

(** In a well-formed tree a chain of names finds one directory. *)
Lemma at_path_functional t segs es1 es2 :
  wf_node t = true → at_path t segs es1 → at_path t segs es2 → es1 = es2.
Proof.
  intros Hwf Hat. revert es2.
  induction Hat as [es|es name sub segs es' Hin Hat IH]; intros es2 Hat2.
  - by inv Hat2.
  - inv Hat2. apply wf_node_Dir in Hwf as [Hnd Hall].
    assert (sub = sub0) as <- by (by eapply NoDup_fst_functional).
    destruct (proj1 (Forall_forall _ _) Hall _ Hin) as [_ Hsub].
    by apply IH.
Qed.

Lemma wf_name_spec n :
  wf_name n = true ↔
  n ≠ "" ∧ Str.all_chars (λ c, negb (Ascii.eqb c "/")) n = true.
Proof.
  unfold wf_name. rewrite andb_true_iff, negb_true_iff, String.eqb_neq. done.
Qed.

Lemma split_no_slash a :
  Str.all_chars (λ c, negb (Ascii.eqb c "/")) a = true → Str.split "/" a = [a].
Proof.
  induction a as [|c a IH]; [done|]. cbn [Str.all_chars Str.split].
  intros [Hc%negb_true_iff Ha]%andb_true_iff. by rewrite Hc, (IH Ha).
Qed.

Lemma split_app_slash a x :
  Str.all_chars (λ c, negb (Ascii.eqb c "/")) a = true →
  Str.split "/" (a +:+ "/" +:+ x) = a :: Str.split "/" x.
Proof.
  induction a as [|c a IH]; [done|]. cbn [Str.all_chars]. str_simpl.
  cbn [Str.split].
  intros [Hc%negb_true_iff Ha]%andb_true_iff. by rewrite Hc, (IH Ha).
Qed.

(** Splitting at the separator undoes joining names with it. *)
Lemma split_intercalate l :
  l ≠ [] →
  Forall (λ n, Str.all_chars (λ c, negb (Ascii.eqb c "/")) n = true) l →
  Str.split "/" (intercalate l) = l.
Proof.
  induction l as [|a [|b l] IH]; [done|..].
  - intros _ [Ha _]%Forall_cons. by apply split_no_slash.
  - intros _ [Ha Hl]%Forall_cons. cbn [intercalate].
    rewrite split_app_slash by done. f_equal. by apply IH.
Qed.

Lemma endswith_no_slash n :
  Str.all_chars (λ c, negb (Ascii.eqb c "/")) n = true → Str.endswith n "/" = false.
Proof.
  induction n as [|c n IH]; [done|]. cbn [Str.all_chars Str.endswith].
  intros [Hc%negb_true_iff Hn]%andb_true_iff. rewrite (IH Hn), orb_false_r.
  apply String.eqb_neq. intros [= -> _]. by rewrite Ascii.eqb_refl in Hc.
Qed.

Lemma endswith_app_no_slash a n :
  n ≠ "" → Str.all_chars (λ c, negb (Ascii.eqb c "/")) n = true →
  Str.endswith (a +:+ n) "/" = false.
Proof.
  intros Hne Hn. induction a as [|c a IH]; str_simpl; [by apply endswith_no_slash|].
  cbn [Str.endswith]. rewrite IH, orb_false_r.
  apply String.eqb_neq. intros [= _ Hnil]. by destruct a, n.
Qed.

Lemma join_dirpath p n :
  p ≠ "" → wf_name n = true → Py.os_path_join p n = dirpath p +:+ n.
Proof.
  intros Hp [Hn Hslash]%wf_name_spec. unfold Py.os_path_join, dirpath.
  assert (Str.startswith n "/" = false) as ->.
  { destruct (Str.startswith n "/") eqn:Hs; [|done].
    apply startswith_spec in Hs as [rest ->]. discriminate Hslash. }
  rewrite (proj2 (String.eqb_neq p "")) by done. simpl.
  destruct (Str.endswith p "/"); [done|]. by rewrite append_assoc.
Qed.

Lemma join_path top segs name :
  top ≠ "" → Forall (λ n, wf_name n = true) segs → wf_name name = true →
  Py.os_path_join (path_below top segs) name
  = dirpath top +:+ intercalate (segs ++ [name]).
Proof.
  intros Htop Hsegs Hname. revert top Htop.
  induction Hsegs as [|n segs Hn Hsegs IH]; intros top Htop.
  - by apply join_dirpath.
  - cbn [path_below]. rewrite IH.
    + destruct (proj1 (wf_name_spec n) Hn) as [Hne Hslash].
      rewrite (join_dirpath top n Htop Hn). unfold dirpath at 1.
      rewrite endswith_app_no_slash by done.
      change ((n :: segs) ++ [name]) with (n :: (segs ++ [name])).
      destruct (segs ++ [name]) as [|x l] eqn:Hl; [by destruct segs|].
      cbn [intercalate]. by rewrite !append_assoc.
    + rewrite (join_dirpath top n Htop Hn).
      destruct (proj1 (wf_name_spec n) Hn) as [Hne _].
      intros Hnil. apply (f_equal String.length) in Hnil.
      rewrite append_length in Hnil. destruct n; [done|]. simpl in Hnil. lia.
Qed.

(** In a well-formed tree mounted at a non-empty path, [os.path.isfile]
    of a name joined to the path of a walked directory holds when that
    directory has a regular file of that name, whatever it contains. *)
Lemma tree_isfile_spec mount t root es name :
  mount ≠ "" → wf_node t = true → (root, es) ∈ listing mount t →
  wf_name name = true →
  os_path_isfile (tree_fs mount t) (Py.os_path_join root name) = true
  ↔ ∃ content, (name, File content) ∈ es.
Proof.
  intros Hmount Hwf Hin Hname. cbn [os_path_isfile tree_fs].
  rewrite existsb_exists. split.
  - intros ([r es'] & Hin'%list_elem_of_In & Hex). cbn [fst snd] in Hex.
    apply existsb_exists in Hex
      as ([n nd] & Hentry%list_elem_of_In & [Hreg Hpath%String.eqb_eq]%andb_true_iff).
    cbn [fst snd] in *.
    apply listing_at_path in Hin as (segs0 & -> & Hat0).
    apply listing_at_path in Hin' as (segs & -> & Hat).
    destruct (at_path_wf _ _ _ Hwf Hat0) as (Hsegs0 & _ & _).
    destruct (at_path_wf _ _ _ Hwf Hat) as (Hsegs & _ & Hes').
    destruct (proj1 (Forall_forall _ _) Hes' _ Hentry) as [Hn _]. cbn [fst] in Hn.
    rewrite !join_path in Hpath by done.
    apply (inj (String.append _)) in Hpath.
    apply (f_equal (Str.split "/")) in Hpath.
    assert (∀ l, Forall (λ n, wf_name n = true) l →
      Forall (λ n, Str.all_chars (λ c, negb (Ascii.eqb c "/")) n = true) l) as Hfree.
    { intros l Hl. eapply Forall_impl; [done|]. by intros ? [_ ?]%wf_name_spec. }
    rewrite (split_intercalate (segs ++ [n])) in Hpath.
    2: { by destruct segs. }
    2: { apply Hfree, Forall_app. split; [done|by constructor]. }
    rewrite (split_intercalate (segs0 ++ [name])) in Hpath.
    2: { by destruct segs0. }
    2: { apply Hfree, Forall_app. split; [done|by constructor]. }
    apply app_inj_tail in Hpath as [-> ->].
    rewrite (at_path_functional _ _ _ _ Hwf Hat0 Hat).
    destruct nd as [content| |?]; [by exists content|done..].
  - intros [content Hentry]. exists (root, es). split; [by apply list_elem_of_In|].
    apply existsb_exists. exists (name, File content).
    split; [by apply list_elem_of_In|]. cbn [fst snd is_regular].
    by rewrite String.eqb_refl.
Qed.

Lemma report_name_wf a b :
  Str.is_digit a = true → Str.is_digit b = true →
  wf_name (String a (String b "_aimd_REPORT")) = true.
Proof.
  intros Ha Hb.
  assert (∀ c, Str.is_digit c = true → Ascii.eqb c "/" = false) as Hslash.
  { intros c Hc. destruct (Ascii.eqb_spec c "/") as [-> |]; [discriminate Hc|done]. }
  unfold wf_name. cbn [Str.all_chars String.eqb].
  rewrite (Hslash a Ha), (Hslash b Hb). reflexivity.
Qed.

(** C7: the status of the iteration [N] of a directory is "completed" when
    [os.path.isfile] holds of the path of the directory joined with
    [{N:02d}_aimd_REPORT], and "not_started" when it does not; nothing else
    of the file system is looked at, so two file systems that agree on that
    path give the same status.  In a file system given by a well-formed
    tree, for a walked directory and an iteration read from the digits [a]
    and [b], the status is "completed" when the directory itself has a
    regular file named [ab_aimd_REPORT], whatever that file contains. *)
Theorem C7_job_status fs directory N :
  (get_job_status fs directory N = "completed" ↔
   os_path_isfile fs
     (Py.os_path_join directory (Py.format_02d N +:+ "_aimd_REPORT")) = true)
  ∧ (get_job_status fs directory N = "not_started" ↔
     os_path_isfile fs
       (Py.os_path_join directory (Py.format_02d N +:+ "_aimd_REPORT")) = false)
  ∧ (∀ fs',
       os_path_isfile fs'
         (Py.os_path_join directory (Py.format_02d N +:+ "_aimd_REPORT"))
       = os_path_isfile fs
           (Py.os_path_join directory (Py.format_02d N +:+ "_aimd_REPORT")) →
       get_job_status fs' directory N = get_job_status fs directory N)
  ∧ (∀ mount t es a b,
       mount ≠ "" → wf_node t = true →
       (directory, es) ∈ listing mount t →
       Str.is_digit a = true → Str.is_digit b = true →
       N = 10 * Str.digit_val a + Str.digit_val b →
       (get_job_status (tree_fs mount t) directory N = "completed" ↔
        ∃ content, (String a (String b "_aimd_REPORT"), File content) ∈ es)
       ∧ (get_job_status (tree_fs mount t) directory N = "not_started" ↔
          ∀ content, (String a (String b "_aimd_REPORT"), File content) ∉ es)).
Proof.
  split_and!.
  - unfold get_job_status. by destruct (os_path_isfile fs _).
  - unfold get_job_status. by destruct (os_path_isfile fs _).
  - unfold get_job_status. by intros fs' ->.
  - intros mount t es a b Hmount Hwf Hin Ha Hb ->.
    pose proof (tree_isfile_spec mount t directory es _ Hmount Hwf Hin
                  (report_name_wf a b Ha Hb)) as Hfile.
    unfold get_job_status. rewrite format_02d_digits by done. str_simpl.
    destruct (os_path_isfile (tree_fs mount t) _).
    + split; [by rewrite <-Hfile|]. split; [done|].
      intros Hnone. destruct (proj1 Hfile eq_refl) as [content ?].
      by destruct (Hnone content).
    + split; [by rewrite <-Hfile|]. split; [|done].
      intros _ content Hentry.
      assert (false = true) by (apply Hfile; by exists content). done.
Qed.

Lemma C7_job_status_witness :
  get_job_status Scenario.fs "root/A/PBE/npt/1.0/300" 0 = "completed"
  ↔ ∃ content,
      ("00_aimd_REPORT", File content)
      ∈ [("POSCAR", File ""); ("00_aimd_log", File "");
         ("00_aimd_REPORT", File ""); ("01_aimd_log", File "")].
Proof.
  refine (proj1 (proj2 (proj2 (proj2
    (C7_job_status Scenario.fs "root/A/PBE/npt/1.0/300" 0)))
    "root" Scenario.tree _ "0"%char "0"%char _ _ _ _ _ _)).
  - discriminate.
  - reflexivity.
  - apply (list_elem_of_lookup_2 _ 5%nat). reflexivity.
  - reflexivity.
  - reflexivity.
  - reflexivity.
Defined.

(** ** The report of a table of the analysis *)

Section forall_dict.
Context {K V : Type} `{EqDecision K} (P : V → Prop).

Lemma Forall_dict_set (d : list (K * V)) k v :
  Forall (λ kv, P kv.2) d → P v → Forall (λ kv, P kv.2) (Dict.set d k v).
Proof.
  intros Hd Hv. induction Hd as [|[k' v'] d Hkv Hd IH]; simpl.
  - by repeat constructor.
  - case_decide; constructor; done.
Qed.

Lemma Forall_dict_get (d : list (K * V)) k v :
  Forall (λ kv, P kv.2) d → Dict.get d k = Some v → P v.
Proof.
  intros Hd. induction Hd as [|[k' v'] d Hkv Hd IH]; simpl; [done|].
  case_decide; [by intros [= <-]|done].
Qed.

End forall_dict.

Lemma all_wf_nil : all_wf [].
Proof. constructor. Qed.

Lemma all_wf_wf_calc calc : all_wf calc → wf_calc calc.
Proof.
  intros Hall f b t ens. unfold entry_at.
  destruct (Dict.get calc f) as [d1|] eqn:H1; res_simpl; [|done].
  destruct (Dict.get d1 b) as [d2|] eqn:H2; res_simpl; [|done]. intros H3.
  pose proof (Forall_dict_get _ _ _ _ Hall H1) as Hd1.
  pose proof (Forall_dict_get _ _ _ _ Hd1 H2) as Hd2.
  apply (Forall_dict_get _ _ _ _ Hd2 H3).
Qed.

Lemma all_wf_set_entry calc f b t ens :
  all_wf calc → wf_ens ens → all_wf (set_entry calc f b t ens).
Proof.
  intros Hall Hens. unfold set_entry.
  assert (Forall (λ bx : string * list (Z * list (string * list (string * Z))),
            Forall (λ tx, wf_ens tx.2) bx.2)
          (default [] (Dict.get calc f))) as Hd1.
  { destruct (Dict.get calc f) as [d1|] eqn:H1; [|constructor].
    apply (Forall_dict_get _ _ _ _ Hall H1). }
  assert (Forall (λ tx : Z * list (string * list (string * Z)), wf_ens tx.2)
          (default [] (Dict.get (default [] (Dict.get calc f)) b))) as Hd2.
  { destruct (Dict.get (default [] (Dict.get calc f)) b) as [d2|] eqn:H2;
      [|constructor].
    apply (Forall_dict_get _ _ _ _ Hd1 H2). }
  apply (Forall_dict_set _ _ _ _ Hall).
  apply (Forall_dict_set _ _ _ _ Hd1).
  by apply (Forall_dict_set (λ ens, wf_ens ens)).
Qed.

Lemma bump_ok_wf ens e s ens' :
  wf_ens ens → bump ens e s = Ok ens' → wf_ens ens'.
Proof.
  intros (c1 & q1 & c2 & q2 & ->). unfold bump, Dict.getitem. simpl.
  repeat (case_decide; simplify_eq/=); try done;
    intros [= <-]; by eexists _, _, _, _.
Qed.

Lemma count_jobs_all_wf fs root f b t e its calc calc' :
  all_wf calc → for_each (count_job fs root f b t e) calc its = Ok calc' →
  all_wf calc'.
Proof.
  revert calc. induction its as [|it its IH]; intros calc Hall; cbn [for_each].
  - by intros [= <-].
  - rewrite count_job_eq.
    destruct (entry_at calc f b t) as [ens|] eqn:Hens; [|done].
    destruct (bump ens e _) as [ens'|] eqn:Hbump; res_simpl; [|done].
    apply IH, all_wf_set_entry; [done|].
    eapply bump_ok_wf; [|done]. by eapply all_wf_wf_calc.
Qed.

Lemma visit_all_wf fs valid calc item calc' :
  all_wf calc → visit fs valid calc item = Ok calc' → all_wf calc'.
Proof.
  intros Hall. destruct item as [[root dirs] files].
  destruct (decide ("POSCAR" ∈ files)) as [Hposcar|Hposcar].
  2: { rewrite visit_not_poscar by done. by intros [= <-]. }
  destruct (decide (6 ≤ length (Str.split "/" root))%nat) as [Hlen|Hlen].
  2: { rewrite visit_shallow by lia. by intros [= <-]. }
  apply six_segments in Hlen as (anc & b0 & f0 & e0 & sc & seg & Hanc & Hsplit).
  rewrite (visit_classified _ _ _ _ _ _ _ _ _ _ _ _ Hposcar Hsplit Hanc).
  destruct (Py.int seg) as [t0|]; res_simpl; [|done].
  case_bool_decide; [by intros [= <-]|].
  rewrite ensure_entry_eq. res_simpl.
  destruct (iterations files) as [its|]; res_simpl; [|done].
  apply count_jobs_all_wf.
  destruct (entry_at calc f0 b0 t0); [done|].
  apply all_wf_set_entry; [done|apply wf_fresh_counts].
Qed.

(** Every entry of the table of a run that ends well has the two ensembles
    with their two counters. *)
Lemma analyze_walk_all_wf fs valid walk calc :
  analyze_walk fs valid walk = Ok calc → all_wf calc.
Proof.
  unfold analyze_walk. generalize (@nil (string * list (string *
    list (Z * list (string * list (string * Z)))))) at 1, all_wf_nil.
  induction walk as [|item walk IH]; intros calc0 Hall; cbn [for_each].
  - by intros [= <-].
  - destruct (visit fs valid calc0 item) as [calc1|] eqn:Hvisit; res_simpl; [|done].
    apply IH. by eapply visit_all_wf.
Qed.

Lemma print_row_ok structure i item :
  wf_ens item.2 →
  print_row structure i item = Ok (row (if (i =? 0)%nat then structure else "") item).
Proof.
  destruct item as [t ens]. cbn [snd]. intros (c1 & q1 & c2 & q2 & ->).
  reflexivity.
Qed.

Lemma map_result_total {A B} (f : A → result B) l :
  Forall (λ x, is_ok (f x)) l → is_ok (map_result f l).
Proof.
  induction 1 as [|x l [y Hy] Hl [ys Hys]]; simpl; [by eexists|].
  rewrite Hy. res_simpl. rewrite Hys. by eexists.
Qed.

Lemma print_structure_ok structure temperatures :
  Forall (λ tx, wf_ens tx.2) temperatures →
  is_ok (print_structure structure temperatures).
Proof.
  intros Hwf. unfold print_structure.
  assert (is_ok (map_result (λ p, print_row structure p.1 p.2)
                   (imap pair (temperatures_sorted temperatures)))) as [rows ->];
    [|by eexists].
  apply map_result_total, Forall_forall. intros [i item] Hin.
  apply elem_of_lookup_imap in Hin as (j & x & [= <- <-] & Hx).
  rewrite print_row_ok; [by eexists|].
  apply list_elem_of_lookup_2 in Hx.
  destruct (temperatures_sorted_spec temperatures) as [Hperm _].
  rewrite Hperm in Hx. by apply (proj1 (Forall_forall _ _) Hwf).
Qed.

Lemma print_summary_ok calc : all_wf calc → is_ok (print_summary calc).
Proof.
  intros Hall. unfold print_summary.
  assert (is_ok (map_result (λ '(functional, structures),
      body ← map_result (λ '(structure, temperatures),
                 print_structure structure temperatures) structures;
      Ok (["Functional: " +:+ functional +:+ newline;
           format_row "Structure" "Temperature" "npt" "nvt" "npt(q)" "nvt(q)";
           string_of_list_ascii (repeat "-"%char 80)] ++ concat body)%list)
    calc)) as [blocks ->]; [|by eexists].
  apply map_result_total. eapply Forall_impl; [exact Hall|].
  intros [functional structures] Hstructures. cbn [snd] in Hstructures.
  assert (is_ok (map_result (λ '(structure, temperatures),
                   print_structure structure temperatures) structures))
    as [body ->]; [|by eexists].
  apply map_result_total. eapply Forall_impl; [exact Hstructures|].
  intros [structure temperatures] ?. by apply print_structure_ok.
Qed.

(** A run whose analysis ends well prints its report. *)
Lemma main_ok fs directory :
  is_ok (analyze_calculations fs directory (get_valid_cif_files fs directory)) →
  is_ok (main fs directory).
Proof.
  unfold main. intros [calc Hcalc]. rewrite Hcalc. res_simpl.
  apply print_summary_ok. by eapply analyze_walk_all_wf.
Qed.

Example rows_P7 :
  print_structure "A" three_temperatures
  = Ok ["A                         100          1    0    0      0     ";
        "                          300          3    0    0      0     ";
        "                          500          5    0    0      0     ";
        ""].
Proof. vm_compute. reflexivity. Qed.

(** ** Which directories are looked at *)

Lemma classify_spec root dirs files b f e seg :
  classify (root, dirs, files) = Some (b, f, e, seg) ↔
  "POSCAR" ∈ files
  ∧ ∃ anc sc, anc ≠ [] ∧ Str.split "/" root = anc ++ [b; f; e; sc; seg].
Proof.
  unfold classify. cbn [fst snd]. split.
  - case_bool_decide as Hposcar; [|done].
    destruct (reverse (Str.split "/" root))
      as [|x1 [|x2 [|x3 [|x4 [|x5 [|x6 rest]]]]]] eqn:Hrev; try done.
    intros [= <- <- <- <-]. split; [done|].
    exists (reverse rest ++ [x6]), x2. split; [by destruct (reverse rest)|].
    apply (f_equal reverse) in Hrev. rewrite reverse_involutive in Hrev.
    rewrite Hrev, !reverse_cons, <-!app_assoc. done.
  - intros (Hposcar & anc & sc & Hanc & ->).
    rewrite bool_decide_eq_true_2 by done.
    rewrite reverse_app. simpl.
    destruct (reverse anc) as [|x anc'] eqn:Hrev; [|done].
    apply (f_equal reverse) in Hrev. by rewrite reverse_involutive in Hrev.
Qed.

Lemma classify_None fs valid calc item :
  classify item = None → visit fs valid calc item = Ok calc.
Proof.
  destruct item as [[root dirs] files]. unfold classify. cbn [fst snd].
  case_bool_decide as Hposcar; [|intros _; by apply visit_not_poscar].
  intros Hrev. apply visit_shallow. rewrite <-length_reverse.
  destruct (reverse (Str.split "/" root))
    as [|x1 [|x2 [|x3 [|x4 [|x5 [|x6 rest]]]]]]; simpl; try lia. done.
Qed.

Lemma visit_classify fs valid calc root dirs files b f e seg :
  classify (root, dirs, files) = Some (b, f, e, seg) →
  visit fs valid calc (root, dirs, files) =
    (temperature ← Py.int seg;
     if bool_decide (b ∉ valid) then Ok calc
     else calc ← ensure_entry calc f b temperature;
          its ← iterations files;
          for_each (count_job fs root f b temperature e) calc its).
Proof.
  intros (Hposcar & anc & sc & Hanc & Hsplit)%classify_spec.
  by eapply visit_classified.
Qed.

Lemma existsb_re_match files :
  existsb Py.re_match_aimd files = true ↔
  ∃ file, file ∈ files ∧ Py.re_match_aimd file = true.
Proof.
  rewrite existsb_exists. by setoid_rewrite list_elem_of_In.
Qed.

(** Whether a directory raises, and what, does not depend on the table
    that the walk has built so far, nor on the file system. *)
Lemma visit_failure fs valid calc item :
  wf_calc calc →
  match failure valid item with
  | Some err => visit fs valid calc item = Raise err
  | None => is_ok (visit fs valid calc item)
  end.
Proof.
  intros Hwf. destruct item as [[root dirs] files]. unfold failure.
  destruct (classify (root, dirs, files)) as [[[[b f] e] seg]|] eqn:Hc.
  2: { rewrite classify_None by done. by eexists. }
  rewrite (visit_classify _ _ _ _ _ _ _ _ _ _ Hc).
  destruct (Py.int seg) as [t|err] eqn:Hint; res_simpl;
    [|by rewrite (int_raises _ _ Hint)].
  destruct (decide (b ∈ valid)) as [Hvalid|Hvalid].
  2: { rewrite (bool_decide_eq_false_2 (b ∈ valid)) by done.
       rewrite (bool_decide_eq_true_2 (b ∉ valid)) by done.
       cbn [andb]. by eexists. }
  rewrite (bool_decide_eq_true_2 (b ∈ valid)) by done.
  rewrite (bool_decide_eq_false_2 (b ∉ valid)) by (intros ?; done).
  destruct (ensure_entry calc f b t) as [calc1|] eqn:Hensure;
    [|by rewrite ensure_entry_eq in Hensure].
  destruct (ensure_entry_wf _ _ _ _ _ Hwf Hensure) as (Hwf1 & Hentry & _).
  destruct (iterations files) as [its|] eqn:Hits;
    [|by rewrite iterations_eq in Hits].
  res_simpl. cbn [andb fst snd].
  case_bool_decide as He; cbn [negb].
  - destruct (count_jobs_known fs root f b t e its He calc1 Hwf1 Hentry)
      as (calc2 & -> & _). by eexists.
  - destruct (existsb Py.re_match_aimd files) eqn:Hfiles.
    + apply count_jobs_unknown;
        [by intros ->; apply He; left|by intros ->; apply He; right|done..|].
      eapply iterations_not_nil; [done|]. by apply existsb_re_match.
    + assert (its = []) as ->; [|by eexists].
      assert (iterations files = Ok []) as Hnil; [|congruence].
      apply iterations_nil. intros file Hfile.
      destruct (Py.re_match_aimd file) eqn:Hm; [|done].
      assert (existsb Py.re_match_aimd files = true); [|congruence].
      apply existsb_re_match. by exists file.
Qed.

Lemma for_each_visit_ok_iff fs valid walk calc :
  wf_calc calc →
  is_ok (for_each (visit fs valid) calc walk)
  ↔ Forall (λ item, failure valid item = None) walk.
Proof.
  revert calc. induction walk as [|item walk IH]; intros calc Hwf; cbn [for_each].
  - split; [constructor|by eexists].
  - pose proof (visit_failure fs valid calc item Hwf) as Hv.
    rewrite Forall_cons. destruct (failure valid item) as [err|].
    + rewrite Hv. res_simpl. split; [by intros [? ?]|by intros [? _]].
    + destruct Hv as [calc1 Hv]. rewrite Hv. res_simpl.
      rewrite IH; [tauto|]. by eapply visit_effect.
Qed.

Lemma for_each_visit_first_failure fs valid pre item post err calc :
  wf_calc calc →
  Forall (λ item, failure valid item = None) pre →
  failure valid item = Some err →
  for_each (visit fs valid) calc (pre ++ item :: post) = Raise err.
Proof.
  intros Hwf Hpre Hitem. rewrite for_each_app.
  destruct (proj2 (for_each_visit_ok_iff fs valid pre calc Hwf) Hpre)
    as [calc1 Hrun].
  rewrite Hrun. res_simpl. cbn [for_each].
  pose proof (visit_failure fs valid calc1 item) as Hv. rewrite Hitem in Hv.
  rewrite Hv; [done|]. by eapply for_each_visit_effect.
Qed.

Lemma count_jobs_entries_only fs root f b t e its calc calc' :
  for_each (count_job fs root f b t e) calc its = Ok calc' →
  ∀ f' b' t', is_Some (entry_at calc' f' b' t') → is_Some (entry_at calc f' b' t').
Proof.
  revert calc. induction its as [|it its IH]; intros calc; cbn [for_each].
  - by intros [= <-].
  - rewrite count_job_eq.
    destruct (entry_at calc f b t) as [ens|] eqn:Hens; [|done].
    destruct (bump ens e _) as [ens'|]; res_simpl; [|done].
    intros Hrun f' b' t' Hsome. apply (IH _ Hrun) in Hsome.
    rewrite entry_at_set_entry in Hsome.
    case_decide as Hk; [|done]. injection Hk as -> -> ->. by eexists.
Qed.

(** The entries after a directory are those before it and the one that
    the directory enters. *)
Lemma visit_entry_iff fs valid calc item calc' f b t :
  visit fs valid calc item = Ok calc' →
  is_Some (entry_at calc' f b t)
  ↔ is_Some (entry_at calc f b t) ∨ entered valid item = Some (f, b, t).
Proof.
  destruct item as [[root dirs] files]. unfold entered.
  destruct (classify (root, dirs, files)) as [[[[b0 f0] e0] seg]|] eqn:Hc.
  2: { rewrite classify_None by done. intros [= <-].
       split; [by left|by intros [?|?]]. }
  rewrite (visit_classify _ _ _ _ _ _ _ _ _ _ Hc).
  destruct (Py.int seg) as [t0|err] eqn:Hint; res_simpl; [|done].
  destruct (decide (b0 ∈ valid)) as [Hvalid|Hvalid].
  2: { rewrite (bool_decide_eq_false_2 (b0 ∈ valid)) by done.
       rewrite (bool_decide_eq_true_2 (b0 ∉ valid)) by done.
       intros [= <-]. split; [by left|by intros [?|?]]. }
  rewrite (bool_decide_eq_true_2 (b0 ∈ valid)) by done.
  rewrite (bool_decide_eq_false_2 (b0 ∉ valid)) by (intros ?; done).
  destruct (ensure_entry calc f0 b0 t0) as [calc1|] eqn:Hensure; res_simpl; [|done].
  destruct (iterations files) as [its|]; res_simpl; [|done].
  intros Hrun. split.
  - intros Hsome%(count_jobs_entries_only _ _ _ _ _ _ _ _ _ Hrun).
    rewrite ensure_entry_eq in Hensure. injection Hensure as <-.
    destruct (entry_at calc f0 b0 t0) eqn:Hold; [by left|].
    rewrite entry_at_set_entry in Hsome.
    case_decide as Hk; [|by left]. injection Hk as -> -> ->. by right.
  - intros [Hsome| [= <- <- <-]].
    + eapply count_jobs_entries; [done|].
      by apply (proj2 (ensure_entry_entries _ _ _ _ _ Hensure)).
    + eapply count_jobs_entries; [done|].
      apply (proj1 (ensure_entry_entries _ _ _ _ _ Hensure)).
Qed.

Lemma for_each_visit_entry_iff fs valid walk calc calc' f b t :
  for_each (visit fs valid) calc walk = Ok calc' →
  is_Some (entry_at calc' f b t)
  ↔ is_Some (entry_at calc f b t)
    ∨ ∃ item, item ∈ walk ∧ entered valid item = Some (f, b, t).
Proof.
  revert calc. induction walk as [|item walk IH]; intros calc; cbn [for_each].
  - intros [= <-]. split; [by left|].
    intros [?|(item & []%elem_of_nil & _)]. done.
  - destruct (visit fs valid calc item) as [calc1|] eqn:Hvisit; res_simpl; [|done].
    intros Hrun. rewrite (IH _ Hrun), (visit_entry_iff _ _ _ _ _ _ _ _ Hvisit).
    split.
    + intros [[?|?]|(x & ? & ?)]; [by left|right; exists item|right; exists x];
        (split; [by constructor|done]).
    + intros [?|(x & [-> |?]%elem_of_cons & ?)];
        [by left; left|by left; right|right; by exists x].
Qed.

Lemma entered_spec valid root dirs files f b t :
  entered valid (root, dirs, files) = Some (f, b, t) ↔
  ∃ anc e sc seg,
    "POSCAR" ∈ files ∧ anc ≠ []
    ∧ Str.split "/" root = anc ++ [b; f; e; sc; seg]
    ∧ Py.int seg = Ok t ∧ b ∈ valid.
Proof.
  unfold entered. split.
  - destruct (classify (root, dirs, files)) as [[[[b0 f0] e0] seg]|] eqn:Hc; [|done].
    apply classify_spec in Hc as (Hposcar & anc & sc & Hanc & Hsplit).
    destruct (Py.int seg) as [t0|] eqn:Hint; [|done].
    case_bool_decide; [|done]. intros [= <- <- <-].
    by exists anc, e0, sc, seg.
  - intros (anc & e & sc & seg & Hposcar & Hanc & Hsplit & Hint & Hvalid).
    rewrite (proj2 (classify_spec root dirs files b f e seg)) by eauto.
    rewrite Hint. by rewrite bool_decide_eq_true_2.
Qed.

Lemma total_Permutation fs valid walk1 walk2 f b t e s :
  walk1 ≡ₚ walk2 → total fs valid walk1 f b t e s = total fs valid walk2 f b t e s.
Proof.
  induction 1 as [|x l1 l2 _ IH|x y l|l1 l2 l3 _ IH1 _ IH2];
    rewrite ?total_cons; [done|by rewrite IH|lia|congruence].
Qed.

Lemma wf_ens_counters ens1 ens2 :
  wf_ens ens1 → wf_ens ens2 →
  (∀ e s, counter ens1 e s = counter ens2 e s) → ens1 = ens2.
Proof.
  intros (c1 & q1 & c2 & q2 & ->) (c1' & q1' & c2' & q2' & ->) Heq.
  pose proof (Heq "npt" "completed") as H1.
  pose proof (Heq "npt" "not_started") as H2.
  pose proof (Heq "nvt" "completed") as H3.
  pose proof (Heq "nvt" "not_started") as H4.
  vm_compute in H1, H2, H3, H4. congruence.
Qed.

(** ** The outcome of a run *)

(** X1: whether the analysis ends well is decided directory by directory:
    it does when no directory of the walk raises, where a directory raises
    ValueError when it is looked at and its temperature segment is not a
    number, and KeyError when it is looked at, its temperature is a number,
    its structure is valid, its ensemble is neither "npt" nor "nvt" and it
    has an iteration file.  The exception of the run is that of the first
    such directory. *)
Theorem X1_run_outcome fs valid walk :
  (is_ok (analyze_walk fs valid walk)
   ↔ Forall (λ item, failure valid item = None) walk)
  ∧ (∀ pre item post err,
       walk = pre ++ item :: post →
       Forall (λ item, failure valid item = None) pre →
       failure valid item = Some err →
       analyze_walk fs valid walk = Raise err)
  ∧ (∀ root dirs files,
       failure valid (root, dirs, files) = Some ValueError ↔
       ∃ anc b f e sc seg,
         "POSCAR" ∈ files ∧ anc ≠ []
         ∧ Str.split "/" root = anc ++ [b; f; e; sc; seg]
         ∧ ¬ is_ok (Py.int seg))
  ∧ (∀ root dirs files,
       failure valid (root, dirs, files) = Some KeyError ↔
       ∃ anc b f e sc seg,
         "POSCAR" ∈ files ∧ anc ≠ []
         ∧ Str.split "/" root = anc ++ [b; f; e; sc; seg]
         ∧ is_ok (Py.int seg) ∧ b ∈ valid ∧ e ≠ "npt" ∧ e ≠ "nvt"
         ∧ ∃ file, file ∈ files ∧ Py.re_match_aimd file = true)
  ∧ (∀ item, failure valid item ≠ Some IndexError).
Proof.
  split_and!.
  - apply for_each_visit_ok_iff, wf_calc_nil.
  - intros pre item post err -> Hpre Hitem.
    by apply for_each_visit_first_failure; [apply wf_calc_nil|..].
  - intros root dirs files. unfold failure. split.
    + destruct (classify (root, dirs, files)) as [[[[b f] e] seg]|] eqn:Hc; [|done].
      apply classify_spec in Hc as (Hposcar & anc & sc & Hanc & Hsplit).
      destruct (Py.int seg) as [t|] eqn:Hint.
      * by destruct (_ && _).
      * intros _. exists anc, b, f, e, sc, seg. split_and!; [done..|].
        intros [z Hz]. congruence.
    + intros (anc & b & f & e & sc & seg & Hposcar & Hanc & Hsplit & Hint).
      rewrite (proj2 (classify_spec root dirs files b f e seg)) by eauto.
      destruct (Py.int seg) as [t|]; [|done]. destruct Hint. by eexists.
  - intros root dirs files. unfold failure. split.
    + destruct (classify (root, dirs, files)) as [[[[b f] e] seg]|] eqn:Hc; [|done].
      apply classify_spec in Hc as (Hposcar & anc & sc & Hanc & Hsplit).
      destruct (Py.int seg) as [t|] eqn:Hint; [|done].
      destruct (_ && _) eqn:Hcond; [|done]. intros _.
      apply andb_true_iff in Hcond as [[Hvalid%bool_decide_eq_true
        He%negb_true_iff%bool_decide_eq_false]%andb_true_iff Hfile].
      exists anc, b, f, e, sc, seg.
      split_and!; [done|done|done|by eexists|done|tauto|tauto|].
      by apply existsb_re_match.
    + intros (anc & b & f & e & sc & seg & Hposcar & Hanc & Hsplit & [t Hint]
              & Hvalid & Hnpt & Hnvt & Hfile%existsb_re_match).
      rewrite (proj2 (classify_spec root dirs files b f e seg)) by eauto.
      rewrite Hint. cbn [snd]. rewrite Hfile.
      rewrite bool_decide_eq_true_2, bool_decide_eq_false_2 by tauto. done.
  - intros item. unfold failure. repeat case_match; done.
Qed.

(** X2: on every table that the analysis returns the report is printed
    without a failed lookup, so the program prints a report exactly when
    the analysis ends well, and otherwise ends with the exception of the
    analysis. *)
Theorem X2_report_printed fs directory :
  (∀ valid walk calc,
     analyze_walk fs valid walk = Ok calc → is_ok (print_summary calc))
  ∧ (is_ok (main fs directory)
     ↔ is_ok (analyze_calculations fs directory (get_valid_cif_files fs directory)))
  ∧ (∀ err,
       analyze_calculations fs directory (get_valid_cif_files fs directory)
       = Raise err →
       main fs directory = Raise err).
Proof.
  split_and!.
  - intros valid walk calc Hrun.
    apply print_summary_ok. by eapply analyze_walk_all_wf.
  - split.
    + unfold main. intros [out Hout].
      destruct (analyze_calculations _ _ _) as [calc|]; [by eexists|done].
    + intros [calc Hcalc]. unfold main. rewrite Hcalc. res_simpl.
      apply print_summary_ok. by eapply analyze_walk_all_wf.
  - intros err Herr. unfold main. by rewrite Herr.
Qed.

(** X3: the order in which the walk meets the directories changes neither
    whether the analysis ends well nor any entry of the table: two walks
    with the same directories give, for every functional, structure and
    temperature, the same entry with the same counters. *)
Theorem X3_walk_order_irrelevant fs valid walk1 walk2 :
  walk1 ≡ₚ walk2 →
  (is_ok (analyze_walk fs valid walk1) ↔ is_ok (analyze_walk fs valid walk2))
  ∧ (∀ calc1 calc2,
       analyze_walk fs valid walk1 = Ok calc1 →
       analyze_walk fs valid walk2 = Ok calc2 →
       ∀ f b t, entry_at calc1 f b t = entry_at calc2 f b t).
Proof.
  intros Hperm. split.
  - unfold analyze_walk.
    rewrite !for_each_visit_ok_iff by apply wf_calc_nil. by rewrite Hperm.
  - intros calc1 calc2 Hrun1 Hrun2 f b t.
    destruct (analyze_walk_effect _ _ _ _ Hrun1) as [Hwf1 Hsum1].
    destruct (analyze_walk_effect _ _ _ _ Hrun2) as [Hwf2 Hsum2].
    pose proof (for_each_visit_entry_iff _ _ _ _ _ f b t Hrun1) as Hin1.
    pose proof (for_each_visit_entry_iff _ _ _ _ _ f b t Hrun2) as Hin2.
    assert (is_Some (entry_at calc1 f b t) ↔ is_Some (entry_at calc2 f b t))
      as Hsame.
    { rewrite Hin1, Hin2. by setoid_rewrite Hperm. }
    destruct (entry_at calc1 f b t) as [ens1|] eqn:H1,
             (entry_at calc2 f b t) as [ens2|] eqn:H2.
    + f_equal. apply wf_ens_counters; [by eapply Hwf1|by eapply Hwf2|].
      intros e s. specialize (Hsum1 f b t e s). specialize (Hsum2 f b t e s).
      rewrite count_at_entry, H1 in Hsum1. rewrite count_at_entry, H2 in Hsum2.
      rewrite Hsum1, Hsum2. by apply total_Permutation.
    + destruct (proj1 Hsame) as [? [=]]. by eexists.
    + destruct (proj2 Hsame) as [? [=]]. by eexists.
    + done.
Qed.

Lemma X3_walk_order_irrelevant_witness :
  is_ok (analyze_walk Scenario.fs {["A"]} [npt_item; nvt_item])
  ↔ is_ok (analyze_walk Scenario.fs {["A"]} [nvt_item; npt_item]).
Proof.
  apply (X3_walk_order_irrelevant Scenario.fs {["A"]}
           [npt_item; nvt_item] [nvt_item; npt_item]).
  apply perm_swap.
Defined.

(** X4: after a run that ends well the table has an entry for a
    functional, a structure and a temperature exactly when the walk has a
    directory that is looked at, ends in these names, has that number as
    temperature segment and a valid structure name; so every structure of the
    table is a valid name. *)
Theorem X4_entries_of_valid_directories fs valid walk calc :
  analyze_walk fs valid walk = Ok calc →
  ∀ f b t,
    is_Some (entry_at calc f b t) ↔
    ∃ root dirs files anc e sc seg,
      (root, dirs, files) ∈ walk
      ∧ "POSCAR" ∈ files ∧ anc ≠ []
      ∧ Str.split "/" root = anc ++ [b; f; e; sc; seg]
      ∧ Py.int seg = Ok t ∧ b ∈ valid.
Proof.
  intros Hrun f b t.
  rewrite (for_each_visit_entry_iff _ _ _ _ _ f b t Hrun). split.
  - intros [[? [=]]|([[root dirs] files] & Hin & Hentered)].
    apply entered_spec in Hentered as (anc & e & sc & seg & ?).
    exists root, dirs, files, anc, e, sc, seg. tauto.
  - intros (root & dirs & files & anc & e & sc & seg & Hin & Hrest).
    right. exists (root, dirs, files). split; [done|].
    apply entered_spec. by exists anc, e, sc, seg.
Qed.

Lemma X4_entries_of_valid_directories_witness :
  is_Some (entry_at
    [("PBE", [("A", [(300, [("npt", [("completed", 1); ("not_started", 0)]);
                            ("nvt", [("completed", 0); ("not_started", 1)])])])])]
    "PBE" "A" 300) ↔
  ∃ root dirs files anc e sc seg,
    (root, dirs, files) ∈ [npt_item; nvt_item]
    ∧ "POSCAR" ∈ files ∧ anc ≠ []
    ∧ Str.split "/" root = anc ++ ["A"; "PBE"; e; sc; seg]
    ∧ Py.int seg = Ok 300 ∧ "A" ∈ ({["A"]} : gset string).
Proof.
  apply (X4_entries_of_valid_directories Scenario.fs {["A"]} [npt_item; nvt_item]).
  vm_compute. reflexivity.
Defined.

Lemma contribution_classify fs valid item f b t e s :
  contribution fs valid item f b t e s =
    match classify item with
    | Some (b', f', e', seg) =>
        if bool_decide (Py.int seg = Ok t ∧ b' ∈ valid ∧ f' = f ∧ b' = b ∧ e' = e)
        then match iterations item.2 with
             | Ok its => tally fs item.1.1 its s
             | Raise _ => 0
             end
        else 0
    | None => 0
    end.
Proof.
  destruct item as [[root dirs] files]. unfold contribution, classify.
  cbn [fst snd]. case_bool_decide; [|done].
  by destruct (reverse (Str.split "/" root))
    as [|x1 [|x2 [|x3 [|x4 [|x5 [|x6 rest]]]]]].
Qed.

Lemma tally_both fs root its :
  tally fs root its "completed" + tally fs root its "not_started"
  = Z.of_nat (length its).
Proof.
  induction its as [|it its IH]; [done|]. rewrite !tally_cons. cbn [length].
  destruct (get_job_status_cases fs root it) as [-> | ->];
    repeat case_decide; try done; lia.
Qed.

(** X5: every iteration of every counted directory is counted once: after
    a run that ends well, for every key the two counters add up to the
    number of iterations of the directories of that key, whatever report
    files there are. *)
Theorem X5_every_iteration_counted_once fs valid walk calc :
  analyze_walk fs valid walk = Ok calc →
  ∀ f b t e,
    count_at calc f b t e "completed" + count_at calc f b t e "not_started"
    = foldr (λ item acc, iterations_found valid item f b t e + acc) 0 walk.
Proof.
  intros [_ Hsum]%analyze_walk_effect f b t e. rewrite !Hsum.
  clear. induction walk as [|item walk IH]; [done|].
  rewrite !total_cons. cbn [foldr]. rewrite <-IH.
  assert (contribution fs valid item f b t e "completed"
          + contribution fs valid item f b t e "not_started"
          = iterations_found valid item f b t e) as <-; [|lia].
  rewrite !contribution_classify. unfold iterations_found.
  destruct (classify item) as [[[[b' f'] e'] seg]|]; [|done].
  case_bool_decide; [|done].
  destruct (iterations item.2); [apply tally_both|done].
Qed.

Lemma X5_every_iteration_counted_once_witness :
  count_at
    [("PBE", [("A", [(300, [("npt", [("completed", 1); ("not_started", 0)]);
                            ("nvt", [("completed", 0); ("not_started", 1)])])])])]
    "PBE" "A" 300 "npt" "completed"
  + count_at
      [("PBE", [("A", [(300, [("npt", [("completed", 1); ("not_started", 0)]);
                              ("nvt", [("completed", 0); ("not_started", 1)])])])])]
      "PBE" "A" 300 "npt" "not_started"
  = foldr (λ item acc, iterations_found {["A"]} item "PBE" "A" 300 "npt" + acc) 0
          [npt_item; nvt_item].
Proof.
  apply (X5_every_iteration_counted_once Scenario.fs {["A"]} [npt_item; nvt_item]).
  vm_compute. reflexivity.
Defined.

Lemma sorted_range_length (l : list Z) lo hi :
  StronglySorted Z.lt l → Forall (λ n, lo ≤ n ≤ hi) l →
  Z.of_nat (length l) ≤ Z.max 0 (hi - lo + 1).
Proof.
  intros Hsorted. revert lo.
  induction Hsorted as [|x l Hl IH Hx]; intros lo Hrange; [simpl; lia|].
  apply Forall_cons in Hrange as [Hxr Hrange].
  assert (Forall (λ n, x + 1 ≤ n ≤ hi) l) as Htail.
  { apply Forall_forall. intros y Hy.
    pose proof (proj1 (Forall_forall _ _) Hx y Hy).
    pose proof (proj1 (Forall_forall _ _) Hrange y Hy). cbn beta in *. lia. }
  specialize (IH _ Htail). cbn beta in Hxr. cbn [length]. lia.
Qed.

(** X6: the iterations of a directory are numbers between 0 and 99, so a
    directory has at most 100 of them and adds at most 100 to a counter; a
    file name with three leading digits is no iteration file. *)
Theorem X6_iterations_two_digits files :
  ∃ its,
    iterations files = Ok its
    ∧ Forall (λ n, 0 ≤ n ≤ 99) its
    ∧ (length its ≤ 100)%nat
    ∧ (∀ fs root s, tally fs root its s ≤ 100)
    ∧ (∀ a b c rest,
         Str.is_digit c = true →
         Py.re_match_aimd (String a (String b (String c rest))) = false).
Proof.
  destruct (iterations files) as [its|] eqn:Hits;
    [|by rewrite iterations_eq in Hits].
  exists its.
  assert (Forall (λ n, 0 ≤ n ≤ 99) its) as Hrange.
  { apply Forall_forall. intros n Hn.
    apply (iterations_elem_of _ _ _ Hits) in Hn as (file & _ & Hm & ->).
    apply re_match_aimd_spec in Hm as (a & b & rest & -> & Ha & Hb).
    cbn [iteration_number].
    pose proof (digit_val_range a Ha). pose proof (digit_val_range b Hb). lia. }
  assert (length its ≤ 100)%nat as Hlen.
  { pose proof (sorted_range_length its 0 99 (iterations_sorted _ _ Hits) Hrange).
    lia. }
  split_and!; [done..| |].
  - intros fs root s. unfold tally.
    pose proof (length_filter (λ it, get_job_status fs root it = s) its). lia.
  - intros a b c rest Hc. unfold Py.re_match_aimd.
    destruct (Str.startswith (String c rest) "_aimd_") eqn:Hs;
      [|by rewrite andb_false_r].
    apply startswith_spec in Hs as [rest' Hs]. str_simpl.
    injection Hs as -> _. done.
Qed.

(** ** The layout of the table *)

Section dict_keys.
Context {K V : Type} `{EqDecision K}.
Implicit Types (d : list (K * V)) (k : K) (v : V).

Lemma dict_set_keys d k v : (Dict.set d k v).*1 = see d.*1 k.
Proof.
  unfold see. induction d as [|[k' v'] d IH]; cbn [Dict.set].
  - rewrite decide_False; [done|]. by intros ?%elem_of_nil.
  - destruct (decide (k = k')) as [<-|Hne]; rewrite !fmap_cons; cbn [fst].
    + by rewrite decide_True by left.
    + rewrite IH. destruct (decide (k ∈ d.*1)).
      * by rewrite decide_True by (by right).
      * rewrite decide_False; [done|]. by intros [?|?]%elem_of_cons.
Qed.

Lemma dict_get_is_Some d k : is_Some (Dict.get d k) ↔ k ∈ d.*1.
Proof.
  induction d as [|[k' v'] d IH]; simpl.
  - split; [by intros [? ?]|by intros ?%elem_of_nil].
  - rewrite elem_of_cons. destruct (decide (k = k')) as [<-|Hne].
    + split; [by left|by eexists].
    + rewrite IH. simpl. tauto.
Qed.

Lemma dict_get_elem_of d k v : Dict.get d k = Some v → (k, v) ∈ d.
Proof.
  induction d as [|[k' v'] d IH]; simpl; [done|].
  destruct (decide (k = k')) as [<-|Hne].
  - intros [= <-]. left.
  - intros ?. right. by apply IH.
Qed.

Lemma dict_elem_of_get d k v : NoDup d.*1 → (k, v) ∈ d → Dict.get d k = Some v.
Proof.
  intros Hnd Hin.
  assert (is_Some (Dict.get d k)) as [v' Hv'].
  { apply dict_get_is_Some, list_elem_of_fmap. by exists (k, v). }
  rewrite Hv'. f_equal.
  eapply NoDup_fst_functional; [done|by apply dict_get_elem_of|done].
Qed.

End dict_keys.

Section first_seen_facts.
Context {A : Type} `{EqDecision A}.
Implicit Types (acc l : list A) (x : A).

Lemma elem_of_see acc x y : y ∈ see acc x ↔ y ∈ acc ∨ y = x.
Proof.
  unfold see. case_decide as Hx.
  - split; [by left|]. by intros [?| ->].
  - by rewrite elem_of_app, list_elem_of_singleton.
Qed.

Lemma NoDup_see acc x : NoDup acc → NoDup (see acc x).
Proof.
  intros Hnd. unfold see. case_decide as Hx; [done|].
  apply NoDup_app. split_and!; [done| |apply NoDup_singleton].
  by intros y Hy ->%list_elem_of_singleton.
Qed.

Lemma elem_of_foldl_see acc l y : y ∈ foldl see acc l ↔ y ∈ acc ∨ y ∈ l.
Proof.
  revert acc. induction l as [|x l IH]; intros acc; cbn [foldl].
  - split; [by left|]. by intros [?|?%elem_of_nil].
  - rewrite IH, elem_of_see, elem_of_cons. tauto.
Qed.

Lemma NoDup_foldl_see acc l : NoDup acc → NoDup (foldl see acc l).
Proof.
  revert acc. induction l as [|x l IH]; intros acc Hnd; cbn [foldl]; [done|].
  by apply IH, NoDup_see.
Qed.

Lemma head_foldl_see acc l a :
  head acc = Some a → head (foldl see acc l) = Some a.
Proof.
  revert acc. induction l as [|x l IH]; intros acc Hacc; cbn [foldl]; [done|].
  apply IH. unfold see. case_decide; [done|]. by destruct acc.
Qed.

Lemma elem_of_first_seen l y : y ∈ first_seen l ↔ y ∈ l.
Proof.
  unfold first_seen. rewrite elem_of_foldl_see.
  split; [by intros [?%elem_of_nil|?]|by right].
Qed.

Lemma NoDup_first_seen l : NoDup (first_seen l).
Proof. apply NoDup_foldl_see, NoDup_nil_2. Qed.

End first_seen_facts.

Lemma set_entry_functionals calc f b t v :
  (set_entry calc f b t v).*1 = see calc.*1 f.
Proof. apply dict_set_keys. Qed.

Lemma set_entry_structures calc f b t v f' :
  structures_of (set_entry calc f b t v) f' =
    if decide (f' = f) then see (structures_of calc f) b else structures_of calc f'.
Proof.
  unfold structures_of, set_entry. destruct (decide (f' = f)) as [-> |Hne].
  - rewrite get_set_eq. cbn [default from_option]. apply dict_set_keys.
  - by rewrite get_set_ne.
Qed.

Lemma set_entry_temperatures calc f b t v f' b' :
  temperatures_of (set_entry calc f b t v) f' b' =
    if decide (f' = f ∧ b' = b) then see (temperatures_of calc f b) t
    else temperatures_of calc f' b'.
Proof.
  unfold temperatures_of, set_entry. destruct (decide (f' = f)) as [-> |Hne].
  - rewrite get_set_eq. cbn [default from_option id].
    destruct (decide (b' = b)) as [-> |Hb].
    + rewrite decide_True by done. rewrite get_set_eq.
      cbn [default from_option id]. apply dict_set_keys.
    + rewrite decide_False by tauto. by rewrite get_set_ne.
  - rewrite decide_False by tauto. by rewrite get_set_ne.
Qed.

Lemma set_entry_id calc f b t ens :
  entry_at calc f b t = Some ens → set_entry calc f b t ens = calc.
Proof.
  unfold entry_at, set_entry.
  destruct (Dict.get calc f) as [d1|] eqn:H1; res_simpl; [|done].
  destruct (Dict.get d1 b) as [d2|] eqn:H2; res_simpl; [|done].
  intros H3. cbn [default from_option id].
  by rewrite (set_get_id d2 t ens H3), (set_get_id d1 b d2 H2), (set_get_id calc f d1 H1).
Qed.

Lemma set_entry_twice calc f b t v w :
  set_entry (set_entry calc f b t v) f b t w = set_entry calc f b t w.
Proof.
  unfold set_entry. rewrite get_set_eq. cbn [default from_option id].
  rewrite get_set_eq. cbn [default from_option id].
  by rewrite !set_set.
Qed.

Lemma count_jobs_shape fs root f b t e its calc calc' :
  for_each (count_job fs root f b t e) calc its = Ok calc' →
  is_Some (entry_at calc f b t) →
  ∃ ens, calc' = set_entry calc f b t ens.
Proof.
  revert calc. induction its as [|it its IH]; intros calc; cbn [for_each].
  - intros [= <-] [ens Hens]. exists ens. by rewrite set_entry_id.
  - rewrite count_job_eq. intros Hrun [ens Hens]. rewrite Hens in Hrun.
    destruct (bump ens e _) as [ens'|]; res_simpl; [|done].
    destruct (IH _ Hrun) as [ens'' ->].
    { rewrite entry_at_set_entry_eq. by eexists. }
    exists ens''. by rewrite set_entry_twice.
Qed.

(** A directory that enters the table assigns to its entry and does
    nothing else; any other directory leaves the table as it is. *)
Lemma visit_shape fs valid calc item calc' :
  visit fs valid calc item = Ok calc' →
  match entered valid item with
  | Some (f, b, t) => ∃ ens, calc' = set_entry calc f b t ens
  | None => calc' = calc
  end.
Proof.
  destruct item as [[root dirs] files]. unfold entered.
  destruct (classify (root, dirs, files)) as [[[[b0 f0] e0] seg]|] eqn:Hc.
  2: { rewrite classify_None by done. by intros [= <-]. }
  rewrite (visit_classify _ _ _ _ _ _ _ _ _ _ Hc).
  destruct (Py.int seg) as [t0|err] eqn:Hint; res_simpl; [|done].
  destruct (decide (b0 ∈ valid)) as [Hvalid|Hvalid].
  2: { rewrite (bool_decide_eq_false_2 (b0 ∈ valid)) by done.
       rewrite (bool_decide_eq_true_2 (b0 ∉ valid)) by done.
       by intros [= <-]. }
  rewrite (bool_decide_eq_true_2 (b0 ∈ valid)) by done.
  rewrite (bool_decide_eq_false_2 (b0 ∉ valid)) by (intros ?; done).
  rewrite ensure_entry_eq. res_simpl.
  destruct (iterations files) as [its|]; res_simpl; [|done].
  intros Hrun. apply count_jobs_shape in Hrun as [ens ->].
  - exists ens. destruct (entry_at calc f0 b0 t0); [done|].
    by rewrite set_entry_twice.
  - destruct (entry_at calc f0 b0 t0) eqn:Hold; [by eexists|].
    rewrite entry_at_set_entry_eq. by eexists.
Qed.

Lemma entered_keys_cons valid item walk :
  entered_keys valid (item :: walk) =
    match entered valid item with
    | Some k => k :: entered_keys valid walk
    | None => entered_keys valid walk
    end.
Proof. reflexivity. Qed.

(** The keys of the table after a walk, at its three levels: those before
    it, then the new ones in the order in which the walk meets them. *)
Lemma for_each_visit_layout fs valid walk calc calc' :
  for_each (visit fs valid) calc walk = Ok calc' →
  calc'.*1 = foldl see calc.*1 ((λ k, k.1.1) <$> entered_keys valid walk)
  ∧ (∀ f, structures_of calc' f =
          foldl see (structures_of calc f)
            ((λ k, k.1.2) <$> filter (λ k, k.1.1 = f) (entered_keys valid walk)))
  ∧ (∀ f b, temperatures_of calc' f b =
            foldl see (temperatures_of calc f b)
              ((λ k, k.2) <$> filter (λ k, k.1.1 = f ∧ k.1.2 = b)
                                     (entered_keys valid walk))).
Proof.
  revert calc. induction walk as [|item walk IH]; intros calc; cbn [for_each].
  - by intros [= <-].
  - destruct (visit fs valid calc item) as [calc1|] eqn:Hvisit; res_simpl; [|done].
    intros Hrun. destruct (IH _ Hrun) as (IH1 & IH2 & IH3).
    apply visit_shape in Hvisit. rewrite entered_keys_cons.
    destruct (entered valid item) as [[[f0 b0] t0]|]; [|by subst calc1].
    destruct Hvisit as [ens ->]. split_and!.
    + rewrite IH1, set_entry_functionals. done.
    + intros f. rewrite IH2, set_entry_structures, filter_cons. cbn [fst snd].
      destruct (decide (f0 = f)) as [-> |Hne].
      * by rewrite decide_True by done.
      * by rewrite decide_False by done.
    + intros f b. rewrite IH3, set_entry_temperatures, filter_cons. cbn [fst snd].
      destruct (decide (f0 = f ∧ b0 = b)) as [[-> ->]|Hne].
      * by rewrite decide_True by done.
      * rewrite decide_False; [done|]. intros [-> ->]. by destruct Hne.
Qed.

Lemma analyze_walk_layout fs valid walk calc :
  analyze_walk fs valid walk = Ok calc →
  calc.*1 = first_seen ((λ k, k.1.1) <$> entered_keys valid walk)
  ∧ (∀ f, structures_of calc f =
          first_seen
            ((λ k, k.1.2) <$> filter (λ k, k.1.1 = f) (entered_keys valid walk)))
  ∧ (∀ f b, temperatures_of calc f b =
            first_seen
              ((λ k, k.2) <$> filter (λ k, k.1.1 = f ∧ k.1.2 = b)
                                     (entered_keys valid walk))).
Proof. apply for_each_visit_layout. Qed.

Lemma elem_of_entered_keys valid walk k :
  k ∈ entered_keys valid walk ↔ ∃ item, item ∈ walk ∧ entered valid item = Some k.
Proof. apply list_elem_of_omap. Qed.

(** X7: the table lists the functionals in the order in which the walk
    first meets them in a directory that enters the table, under a
    functional its structures in that order, and under a structure its
    temperatures in that order; so the order of the blocks of the report
    and of the structures in a block is that of the walk. *)
Theorem X7_table_in_walk_order fs valid walk calc :
  analyze_walk fs valid walk = Ok calc →
  calc.*1 = first_seen ((λ k, k.1.1) <$> entered_keys valid walk)
  ∧ (∀ f, structures_of calc f =
          first_seen
            ((λ k, k.1.2) <$> filter (λ k, k.1.1 = f) (entered_keys valid walk)))
  ∧ (∀ f b, temperatures_of calc f b =
            first_seen
              ((λ k, k.2) <$> filter (λ k, k.1.1 = f ∧ k.1.2 = b)
                                     (entered_keys valid walk))).
Proof. apply analyze_walk_layout. Qed.

Lemma X7_table_in_walk_order_witness :
  two_items_table.*1
  = first_seen ((λ k, k.1.1) <$> entered_keys {["A"]} [npt_item; nvt_item]).
Proof.
  apply (X7_table_in_walk_order Scenario.fs {["A"]} [npt_item; nvt_item]
           two_items_table).
  vm_compute. reflexivity.
Defined.

Lemma analyze_walk_keys_once fs valid walk calc :
  analyze_walk fs valid walk = Ok calc →
  NoDup calc.*1
  ∧ ∀ f structures, (f, structures) ∈ calc →
      structures ≠ [] ∧ NoDup structures.*1
      ∧ ∀ b temperatures, (b, temperatures) ∈ structures →
          temperatures ≠ [] ∧ NoDup temperatures.*1.
Proof.
  intros (H1 & H2 & H3)%analyze_walk_layout.
  assert (NoDup calc.*1) as Hnd1 by (rewrite H1; apply NoDup_first_seen).
  split; [done|]. intros f structures Hf.
  pose proof (dict_elem_of_get _ _ _ Hnd1 Hf) as Hgetf.
  assert (structures.*1 = structures_of calc f) as Hs
    by (unfold structures_of; by rewrite Hgetf).
  assert (NoDup structures.*1) as Hnd2
    by (rewrite Hs, H2; apply NoDup_first_seen).
  assert (f ∈ calc.*1) as Hfin.
  { apply list_elem_of_fmap. by exists (f, structures). }
  rewrite H1, elem_of_first_seen, list_elem_of_fmap in Hfin.
  destruct Hfin as ([[f0 b0] t0] & Hf0 & Hk). cbn [fst] in Hf0. subst f0.
  split_and!; [|done|].
  - assert (b0 ∈ structures.*1) as Hin; [|by destruct structures; [inv Hin|]].
    rewrite Hs, H2, elem_of_first_seen, list_elem_of_fmap.
    exists (f, b0, t0). split; [done|]. by apply list_elem_of_filter.
  - intros b temperatures Hb.
    pose proof (dict_elem_of_get _ _ _ Hnd2 Hb) as Hgetb.
    assert (temperatures.*1 = temperatures_of calc f b) as Ht
      by (unfold temperatures_of; by rewrite Hgetf; cbn [default from_option id];
          rewrite Hgetb).
    assert (b ∈ structures.*1) as Hbin.
    { apply list_elem_of_fmap. by exists (b, temperatures). }
    rewrite Hs, H2, elem_of_first_seen, list_elem_of_fmap in Hbin.
    destruct Hbin as ([[f1 b1] t1] & Hb1 & [Hf1 Hk1]%list_elem_of_filter).
    cbn [fst snd] in Hb1, Hf1. subst f1 b1.
    split; [|rewrite Ht, H3; apply NoDup_first_seen].
    assert (t1 ∈ temperatures.*1) as Hin; [|by destruct temperatures; [inv Hin|]].
    rewrite Ht, H3, elem_of_first_seen, list_elem_of_fmap.
    exists (f, b, t1). split; [done|]. by apply list_elem_of_filter.
Qed.

(** X8: in the table of a run that ends well no functional is listed
    twice, under a functional no structure twice and under a structure no
    temperature twice; every functional has a structure and every
    structure a temperature, so no block and no structure of the report is
    empty; and the rows of a structure are strictly ascending in the
    temperature. *)
Theorem X8_table_keys_once fs valid walk calc :
  analyze_walk fs valid walk = Ok calc →
  NoDup calc.*1
  ∧ ∀ f structures, (f, structures) ∈ calc →
      structures ≠ [] ∧ NoDup structures.*1
      ∧ ∀ b temperatures, (b, temperatures) ∈ structures →
          temperatures ≠ [] ∧ NoDup temperatures.*1
          ∧ StronglySorted Z.lt (temperatures_sorted temperatures).*1.
Proof.
  intros [Hnd Hrest]%analyze_walk_keys_once. split; [done|].
  intros f structures Hf. destruct (Hrest _ _ Hf) as (Hne & Hnd2 & Htemps).
  split_and!; [done..|]. intros b temperatures Hb.
  destruct (Htemps _ _ Hb) as [Hne3 Hnd3]. split_and!; [done..|].
  destruct (temperatures_sorted_spec temperatures) as [Hperm Hsorted].
  apply StronglySorted_le_lt; [done|]. by rewrite Hperm.
Qed.

Lemma X8_table_keys_once_witness : NoDup two_items_table.*1.
Proof.
  apply (X8_table_keys_once Scenario.fs {["A"]} [npt_item; nvt_item]
           two_items_table).
  vm_compute. reflexivity.
Defined.

Lemma print_structure_eq structure temperatures :
  Forall (λ tx, wf_ens tx.2) temperatures →
  print_structure structure temperatures = Ok (structure_lines structure temperatures).
Proof.
  intros Hwf. destruct (print_structure_ok structure temperatures Hwf) as [lines Hprint].
  rewrite Hprint. f_equal. unfold print_structure in Hprint.
  destruct (map_result _ _) as [rows|] eqn:Hrows; res_simpl; [|done].
  injection Hprint as <-. unfold structure_lines. f_equal.
  apply (map_result_imap (print_row structure)); [|done].
  intros i item line. apply print_row_eq.
Qed.

(** The report of a table whose entries have the two ensembles with
    their counters. *)
Lemma print_summary_eq calc : all_wf calc → print_summary calc = Ok (report calc).
Proof.
  intros Hall. unfold print_summary, report.
  rewrite (map_result_ok _
    (λ fx, header fx.1 ++ concat (map (λ bx, structure_lines bx.1 bx.2) fx.2)));
    [done|].
  intros [f structures] Hf. cbn [fst snd].
  pose proof (proj1 (Forall_forall _ _) Hall _ Hf) as Hstructures.
  cbn [snd] in Hstructures.
  rewrite (map_result_ok _ (λ bx, structure_lines bx.1 bx.2)); [done|].
  intros [b temperatures] Hb. cbn [fst snd].
  apply print_structure_eq.
  apply (proj1 (Forall_forall _ _) Hstructures _ Hb).
Qed.

Lemma report_nil calc : report calc = [] ↔ calc = [].
Proof.
  split; [|by intros ->]. by destruct calc as [|[f structures] calc].
Qed.

Lemma entered_keys_nil valid walk :
  entered_keys valid walk = [] ↔ Forall (λ item, entered valid item = None) walk.
Proof.
  induction walk as [|item walk IH]; [by split; [constructor|]|].
  rewrite entered_keys_cons, Forall_cons.
  destruct (entered valid item); [|tauto]. split; [done|by intros [? _]].
Qed.

(** ** The rendered report *)

Lemma repeat_spaces n : string_of_list_ascii (repeat " "%char n) = spaces n.
Proof. induction n as [|n IH]; [done|]. simpl. by rewrite IH. Qed.

(** The padding of the format specification [{:<w}] is left alignment. *)
Lemma ljust_left_aligned w s : Str.ljust w s = left_aligned w s.
Proof.
  unfold Str.ljust. revert w. induction s as [|c s IH]; intros w.
  - cbn [String.length left_aligned]. rewrite Nat.sub_0_r, append_nil_l.
    apply repeat_spaces.
  - cbn [String.length left_aligned]. rewrite append_cons. f_equal.
    rewrite <-IH. by replace (w - S (String.length s))%nat
      with (pred w - String.length s)%nat by lia.
Qed.

Lemma row_report_row name item :
  row name item
  = report_row name item.1
      (counter item.2 "npt" "completed") (counter item.2 "nvt" "completed")
      (counter item.2 "npt" "not_started") (counter item.2 "nvt" "not_started").
Proof. unfold row, report_row, format_row. by rewrite !ljust_left_aligned. Qed.

Lemma structure_lines_rendered structure temperatures :
  structure_rendered structure temperatures (structure_lines structure temperatures).
Proof.
  exists (temperatures_sorted temperatures).
  destruct (temperatures_sorted_spec temperatures) as [Hperm Hsorted].
  split_and!; [done..|]. unfold structure_lines. f_equal.
  apply imap_ext. intros i item _. apply row_report_row.
Qed.

Lemma report_is_rendered calc : report_rendered calc (report calc).
Proof.
  unfold report.
  eexists. split; [|reflexivity].
  apply Forall2_fmap_r, Forall_Forall2_diag, Forall_forall.
  intros [f structures] _. cbn [fst snd].
  eexists. split; [|reflexivity].
  apply Forall2_fmap_r, Forall_Forall2_diag, Forall_forall.
  intros [b temperatures] _. cbn [fst snd]. apply structure_lines_rendered.
Qed.

Lemma left_aligned_prefix w s : ∃ padding, left_aligned w s = s +:+ padding.
Proof.
  revert w. induction s as [|c s IH]; intros w; cbn [left_aligned].
  - by exists (spaces w).
  - destruct (IH (pred w)) as [padding ->]. by exists padding.
Qed.

(** C9: the report that is printed for a table of the analysis is, block
    by block and line by line, the report of the specification: for every
    structure one row per temperature in ascending order of the
    temperature, whatever the order in which the walk met them, the name
    of the structure in the name field of the first row only and an empty
    name field in the others, then an empty line; this holds of what
    [print_summary] prints and so of what the program prints.  The
    temperatures 500, 100 and 300, met in that order, are printed as 100,
    300, 500.  A row starts with its name field: the name of the
    structure in the first row, 25 spaces in the others. *)
Theorem C9_rows_sorted_by_temperature :
  (∀ fs valid walk calc,
     analyze_walk fs valid walk = Ok calc →
     ∃ lines, print_summary calc = Ok lines ∧ report_rendered calc lines)
  ∧ (∀ fs directory calc,
       analyze_calculations fs directory (get_valid_cif_files fs directory)
       = Ok calc →
       ∃ lines, main fs directory = Ok lines ∧ report_rendered calc lines)
  ∧ (∀ calc, all_wf calc →
       ∃ lines, print_summary calc = Ok lines ∧ report_rendered calc lines)
  ∧ print_summary [("PBE", [("A", three_temperatures)])]
    = Ok ["Functional: PBE" +:+ line_feed;
          "Structure                 Temperature  npt  nvt  npt(q) nvt(q)";
          "--------------------------------------------------------------------------------";
          "A                         100          1    0    0      0     ";
          "                          300          3    0    0      0     ";
          "                          500          5    0    0      0     ";
          ""]
  ∧ main unsorted_fs "root"
    = Ok ["Functional: PBE" +:+ line_feed;
          "Structure                 Temperature  npt  nvt  npt(q) nvt(q)";
          "--------------------------------------------------------------------------------";
          "A                         100          1    0    0      0     ";
          "                          300          0    0    0      0     ";
          "                          500          0    0    1      0     ";
          ""]
  ∧ (∀ name t c1 c2 q1 q2, ∃ rest, report_row name t c1 c2 q1 q2 = name +:+ rest)
  ∧ (∀ t c1 c2 q1 q2, ∃ rest,
       report_row "" t c1 c2 q1 q2 = spaces 25 +:+ " " +:+ rest).
Proof.
  assert (∀ calc, all_wf calc →
    ∃ lines, print_summary calc = Ok lines ∧ report_rendered calc lines) as Hall.
  { intros calc Hwf. exists (report calc).
    split; [by apply print_summary_eq|apply report_is_rendered]. }
  split_and!; [| |done|by vm_compute|by vm_compute| |].
  - intros fs valid walk calc Hrun. by eapply Hall, analyze_walk_all_wf.
  - intros fs directory calc Hrun. unfold main. rewrite Hrun. res_simpl.
    by eapply Hall, analyze_walk_all_wf.
  - intros name t c1 c2 q1 q2. unfold report_row.
    destruct (left_aligned_prefix 25 name) as [padding ->].
    rewrite !append_assoc. by eexists.
  - intros t c1 c2 q1 q2. unfold report_row. cbn [left_aligned]. by eexists.
Qed.

Lemma C9_rows_sorted_by_temperature_witness :
  ∃ lines,
    print_summary [("PBE", [("A", three_temperatures)])] = Ok lines
    ∧ report_rendered [("PBE", [("A", three_temperatures)])] lines.
Proof.
  apply (proj1 (proj2 (proj2 C9_rows_sorted_by_temperature))).
  repeat constructor; by eexists _, _, _, _.
Defined.

(** X9: nothing at all is printed exactly when no directory of the walk
    enters the table; otherwise the first line that is printed names the
    functional of the first directory that does. *)
Theorem X9_report_lines fs valid walk calc :
  analyze_walk fs valid walk = Ok calc →
  ∃ lines,
    print_summary calc = Ok lines
    ∧ (lines = [] ↔ Forall (λ item, entered valid item = None) walk)
    ∧ (∀ f b t rest,
         entered_keys valid walk = (f, b, t) :: rest →
         head lines = Some ("Functional: " +:+ f +:+ line_feed)).
Proof.
  intros Hrun. pose proof (analyze_walk_layout _ _ _ _ Hrun) as (H1 & _ & _).
  exists (report calc). split_and!.
  - apply print_summary_eq. by eapply analyze_walk_all_wf.
  - rewrite report_nil, <-entered_keys_nil.
    destruct (entered_keys valid walk) as [|k ks] eqn:Hk.
    + cbn in H1. by destruct calc.
    + split; [|done]. intros ->. exfalso.
      assert (k.1.1 ∈ @nil string) as Hin; [|by inv Hin].
      change (@nil string) with ((@nil (string * list (string *
        list (Z * list (string * list (string * Z)))))).*1).
      rewrite H1, elem_of_first_seen, fmap_cons. left.
  - intros f b t rest Hkeys. rewrite Hkeys in H1.
    rewrite fmap_cons in H1. cbn [fst] in H1.
    unfold first_seen in H1. cbn [foldl] in H1.
    destruct calc as [|[f0 structures] calc].
    + exfalso. assert (f ∈ @nil string) as Hin; [|by inv Hin].
      change (@nil string) with ((@nil (string * list (string *
        list (Z * list (string * list (string * Z)))))).*1).
      rewrite H1. apply elem_of_foldl_see. left. apply elem_of_see. by right.
    + assert (f0 = f) as ->; [|done].
      apply (f_equal head) in H1. rewrite fmap_cons in H1. cbn [head fst] in H1.
      rewrite (head_foldl_see _ _ f) in H1; [by injection H1|].
      unfold see. by rewrite decide_False by (by intros ?%elem_of_nil).
Qed.

Lemma X9_report_lines_witness :
  ∃ lines,
    print_summary two_items_table = Ok lines
    ∧ (lines = [] ↔ Forall (λ item, entered {["A"]} item = None) [npt_item; nvt_item])
    ∧ (∀ f b t rest,
         entered_keys {["A"]} [npt_item; nvt_item] = (f, b, t) :: rest →
         head lines = Some ("Functional: " +:+ f +:+ line_feed)).
Proof.
  apply (X9_report_lines Scenario.fs {["A"]} [npt_item; nvt_item] two_items_table).
  vm_compute. reflexivity.
Defined.

(** ** Completed iterations in a tree *)

Lemma is_report_name_spec name :
  is_report_name name = true ↔
  ∃ a b, name = String a (String b "_aimd_REPORT")
         ∧ Str.is_digit a = true ∧ Str.is_digit b = true.
Proof.
  unfold is_report_name. split.
  - destruct name as [|a [|b rest]]; try done.
    intros [[Ha Hb]%andb_true_iff ->%String.eqb_eq]%andb_true_iff.
    by exists a, b.
  - intros (a & b & -> & -> & ->). by rewrite String.eqb_refl.
Qed.

Lemma elem_of_report_files es name :
  name ∈ report_files es ↔
  is_report_name name = true ∧ ∃ content, (name, File content) ∈ es.
Proof.
  unfold report_files. rewrite list_elem_of_fmap. split.
  - intros ([n nd] & -> & [[Hreg Hname]%andb_true_iff Hin]%list_elem_of_filter).
    cbn [fst snd] in *. split; [done|].
    destruct nd as [content| |?]; [by exists content|done..].
  - intros (Hname & content & Hin). exists (name, File content).
    split; [done|]. apply list_elem_of_filter. split; [|done].
    cbn [fst snd is_regular]. by rewrite Hname.
Qed.

Lemma NoDup_report_files es : NoDup es.*1 → NoDup (report_files es).
Proof.
  intros Hnd. unfold report_files. eapply sublist_NoDup; [exact Hnd|].
  apply fmap_sublist, sublist_filter.
Qed.

Lemma digit_val_inj a b :
  Str.is_digit a = true → Str.is_digit b = true →
  Str.digit_val a = Str.digit_val b → a = b.
Proof.
  unfold Str.digit_val. intros _ _ Heq.
  assert (nat_of_ascii a = nat_of_ascii b) as Hn by lia.
  apply (f_equal ascii_of_nat) in Hn. by rewrite !ascii_nat_embedding in Hn.
Qed.

Lemma iteration_number_report_inj x y :
  is_report_name x = true → is_report_name y = true →
  iteration_number x = iteration_number y → x = y.
Proof.
  intros (a & b & -> & Ha & Hb)%is_report_name_spec
         (a' & b' & -> & Ha' & Hb')%is_report_name_spec.
  cbn [iteration_number]. intros Heq.
  pose proof (digit_val_range a Ha). pose proof (digit_val_range b Hb).
  pose proof (digit_val_range a' Ha'). pose proof (digit_val_range b' Hb').
  assert (Str.digit_val a = Str.digit_val a') as Hda by lia.
  assert (Str.digit_val b = Str.digit_val b') as Hdb by lia.
  by rewrite (digit_val_inj a a' Ha Ha' Hda), (digit_val_inj b b' Hb Hb' Hdb).
Qed.

Lemma report_name_matches name :
  is_report_name name = true → Py.re_match_aimd name = true.
Proof.
  intros (a & b & -> & Ha & Hb)%is_report_name_spec.
  apply re_match_aimd_spec. by exists a, b, "REPORT".
Qed.

(** The status of the iteration spelt by two digits, in a well-formed
    tree: whether the directory has the regular file of that name. *)
Lemma tree_job_status mount t root es a b :
  mount ≠ "" → wf_node t = true → (root, es) ∈ listing mount t →
  Str.is_digit a = true → Str.is_digit b = true →
  get_job_status (tree_fs mount t) root (10 * Str.digit_val a + Str.digit_val b)
  = "completed"
  ↔ ∃ content, (String a (String b "_aimd_REPORT"), File content) ∈ es.
Proof.
  intros Hmount Hwf Hin Ha Hb.
  pose proof (tree_isfile_spec mount t root es _ Hmount Hwf Hin
                (report_name_wf a b Ha Hb)) as Hfile.
  unfold get_job_status. rewrite format_02d_digits by done. str_simpl.
  destruct (os_path_isfile (tree_fs mount t) _); [by rewrite <-Hfile|].
  split; [done|]. intros Hex. by apply Hfile in Hex.
Qed.

Lemma iterations_NoDup files its : iterations files = Ok its → NoDup its.
Proof.
  rewrite iterations_eq. intros [= <-].
  rewrite merge_sort_Permutation. apply NoDup_elements.
Qed.

Lemma walk_item_files root es name nd :
  (name, nd) ∈ es → is_dir nd = false → name ∈ (walk_item (root, es)).2.
Proof.
  intros Hin Hdir. unfold walk_item. cbn [fst snd].
  apply list_elem_of_fmap. exists (name, nd). split; [done|].
  by apply list_elem_of_filter.
Qed.

Lemma tree_completed_iterations mount t root es its :
  mount ≠ "" → wf_node t = true → (root, es) ∈ listing mount t →
  iterations (walk_item (root, es)).2 = Ok its →
  ∀ n, n ∈ its ∧ get_job_status (tree_fs mount t) root n = "completed"
       ↔ n ∈ iteration_number <$> report_files es.
Proof.
  intros Hmount Hwf Hin Hits n. rewrite list_elem_of_fmap.
  setoid_rewrite elem_of_report_files.
  rewrite (iterations_elem_of _ _ n Hits). split.
  - intros [(file & Hfile & Hm & ->) Hstatus].
    apply re_match_aimd_spec in Hm as (a & b & rest & -> & Ha & Hb).
    cbn [iteration_number] in *.
    apply (tree_job_status mount t root es a b) in Hstatus; [|done..].
    exists (String a (String b "_aimd_REPORT")). split_and!; [done| |done].
    apply is_report_name_spec. by exists a, b.
  - intros (name & -> & Hname & content & Hentry).
    split.
    + exists name. split_and!; [|by apply report_name_matches|done].
      by eapply walk_item_files.
    + apply is_report_name_spec in Hname as (a & b & -> & Ha & Hb).
      cbn [iteration_number].
      apply (tree_job_status mount t root es a b); [done..|]. by exists content.
Qed.

(** X10: in a well-formed tree the completed iterations of a walked
    directory are those of its regular files named by two digits and
    [_aimd_REPORT], whatever other files there are: such a file is itself
    an iteration file, so a report file alone makes a completed iteration,
    and a report that is not a regular file makes none.  The directory adds
    the number of these files to "completed" and the number of its other
    iterations to "not_started". *)
Theorem X10_completed_are_report_files mount t root es :
  mount ≠ "" → wf_node t = true → (root, es) ∈ listing mount t →
  ∃ its,
    iterations (walk_item (root, es)).2 = Ok its
    ∧ (∀ n, n ∈ its ∧ get_job_status (tree_fs mount t) root n = "completed"
            ↔ ∃ a b content,
                Str.is_digit a = true ∧ Str.is_digit b = true
                ∧ n = 10 * Str.digit_val a + Str.digit_val b
                ∧ (String a (String b "_aimd_REPORT"), File content) ∈ es)
    ∧ tally (tree_fs mount t) root its "completed"
      = Z.of_nat (length (report_files es))
    ∧ tally (tree_fs mount t) root its "not_started"
      = Z.of_nat (length its) - Z.of_nat (length (report_files es)).
Proof.
  intros Hmount Hwf Hin.
  destruct (iterations (walk_item (root, es)).2) as [its|] eqn:Hits;
    [|by rewrite iterations_eq in Hits].
  exists its.
  pose proof (tree_completed_iterations mount t root es its Hmount Hwf Hin Hits)
    as Hcompleted.
  assert (tally (tree_fs mount t) root its "completed"
          = Z.of_nat (length (report_files es))) as Htally.
  { unfold tally. f_equal.
    rewrite <-(length_fmap iteration_number (report_files es)).
    apply Permutation_length, NoDup_Permutation.
    - apply NoDup_filter.
      by eapply iterations_NoDup.
    - apply NoDup_fmap_2_strong.
      + intros x y [Hx _]%elem_of_report_files [Hy _]%elem_of_report_files.
        by apply iteration_number_report_inj.
      + apply NoDup_report_files.
        apply listing_at_path in Hin as (segs & _ & Hat).
        by destruct (at_path_wf _ _ _ Hwf Hat) as (_ & ? & _).
    - intros n. rewrite list_elem_of_filter, <-Hcompleted. tauto. }
  split_and!; [done| |done|].
  - intros n. rewrite Hcompleted, list_elem_of_fmap.
    setoid_rewrite elem_of_report_files. split.
    + intros (name & -> & (a & b & -> & Ha & Hb)%is_report_name_spec
              & content & Hentry).
      by exists a, b, content.
    + intros (a & b & content & Ha & Hb & -> & Hentry).
      exists (String a (String b "_aimd_REPORT")). split_and!; [done| |by eexists].
      apply is_report_name_spec. by exists a, b.
  - pose proof (tally_both (tree_fs mount t) root its). lia.
Qed.

Lemma X10_completed_are_report_files_witness :
  ∃ its,
    iterations (walk_item ("root/A/PBE/npt/1.0/300",
        [("POSCAR", File ""); ("00_aimd_log", File "");
         ("00_aimd_REPORT", File ""); ("01_aimd_log", File "")])).2 = Ok its
    ∧ (∀ n, n ∈ its
            ∧ get_job_status Scenario.fs "root/A/PBE/npt/1.0/300" n = "completed"
            ↔ ∃ a b content,
                Str.is_digit a = true ∧ Str.is_digit b = true
                ∧ n = 10 * Str.digit_val a + Str.digit_val b
                ∧ (String a (String b "_aimd_REPORT"), File content)
                  ∈ [("POSCAR", File ""); ("00_aimd_log", File "");
                     ("00_aimd_REPORT", File ""); ("01_aimd_log", File "")])
    ∧ tally Scenario.fs "root/A/PBE/npt/1.0/300" its "completed"
      = Z.of_nat (length (report_files
          [("POSCAR", File ""); ("00_aimd_log", File "");
           ("00_aimd_REPORT", File ""); ("01_aimd_log", File "")]))
    ∧ tally Scenario.fs "root/A/PBE/npt/1.0/300" its "not_started"
      = Z.of_nat (length its)
        - Z.of_nat (length (report_files
            [("POSCAR", File ""); ("00_aimd_log", File "");
             ("00_aimd_REPORT", File ""); ("01_aimd_log", File "")])).
Proof.
  apply (X10_completed_are_report_files "root" Scenario.tree).
  - discriminate.
  - reflexivity.
  - apply (list_elem_of_lookup_2 _ 5%nat). reflexivity.
Defined.

(** ** The path segments of a directory of a tree *)

Lemma split_not_nil c s : Str.split c s ≠ [].
Proof.
  destruct s as [|a s]; [done|]. cbn [Str.split].
  destruct (Ascii.eqb a c); [done|]. by destruct (Str.split c s).
Qed.

(** Splitting at the separator, one separator at a time. *)
Lemma split_app_sep a x :
  Str.split "/" (a +:+ "/" +:+ x) = Str.split "/" a ++ Str.split "/" x.
Proof.
  induction a as [|c a IH]; [done|]. str_simpl. cbn [Str.split].
  destruct (Ascii.eqb c "/"); [by rewrite IH|].
  rewrite IH. pose proof (split_not_nil "/" a).
  by destruct (Str.split "/" a).
Qed.

Lemma split_path_below top segs :
  top ≠ "" → Str.endswith top "/" = false →
  Forall (λ n, wf_name n = true) segs →
  Str.split "/" (path_below top segs) = Str.split "/" top ++ segs.
Proof.
  intros Htop Hend Hsegs. revert top Htop Hend.
  induction Hsegs as [|n segs Hn Hsegs IH]; intros top Htop Hend.
  - by rewrite app_nil_r.
  - cbn [path_below]. destruct (proj1 (wf_name_spec n) Hn) as [Hne Hslash].
    assert (Py.os_path_join top n = top +:+ "/" +:+ n) as Hjoin.
    { rewrite (join_dirpath top n Htop Hn). unfold dirpath.
      by rewrite Hend, append_assoc. }
    rewrite IH.
    + rewrite Hjoin, split_app_sep, (split_no_slash n) by done.
      by rewrite <-app_assoc.
    + rewrite Hjoin. by destruct top.
    + rewrite Hjoin, <-append_assoc. by apply endswith_app_no_slash.
Qed.

(** Every chain of names of a tree is a directory of the listing. *)
Lemma at_path_listing t top segs es :
  at_path t segs es → (path_below top segs, es) ∈ listing top t.
Proof.
  intros Hat. revert top.
  induction Hat as [es|es name sub segs es' Hin Hat IH]; intros top.
  - rewrite listing_Dir. left.
  - rewrite listing_Dir. right. apply elem_of_concat.
    exists (listing (Py.os_path_join top name) sub). split; [apply IH|].
    apply list_elem_of_fmap. by exists (name, sub).
Qed.

Lemma walk_item_poscar root es :
  "POSCAR" ∈ (walk_item (root, es)).2
  ↔ ∃ nd, ("POSCAR", nd) ∈ es ∧ is_dir nd = false.
Proof.
  unfold walk_item. cbn [fst snd]. rewrite list_elem_of_fmap. split.
  - intros ([n nd] & Hn & [Hdir Hin]%list_elem_of_filter).
    cbn [fst snd] in *. subst n. by exists nd.
  - intros (nd & Hin & Hdir). exists ("POSCAR", nd). split; [done|].
    by apply list_elem_of_filter.
Qed.

(** X11: in a well-formed tree walked from [mount], the path of a
    directory has the segments of [mount] followed by the names that lead
    to it.  So the directory is looked at when it has a POSCAR that is no
    directory and these segments together are at least six, and the
    structure, functional, ensemble and temperature are read off the last
    five of them: when [mount] is a single name the directory must lie
    at least five levels below it, and for a longer [mount] the segments
    of [mount] count as well. *)
Theorem X11_segments_of_a_tree_directory mount t segs es :
  mount ≠ "" → Str.endswith mount "/" = false →
  wf_node t = true → at_path t segs es →
  walk_item (path_below mount segs, es) ∈ os_walk (tree_fs mount t) mount
  ∧ Str.split "/" (path_below mount segs) = Str.split "/" mount ++ segs
  ∧ (∀ b f e seg,
       classify (walk_item (path_below mount segs, es)) = Some (b, f, e, seg)
       ↔ (∃ nd, ("POSCAR", nd) ∈ es ∧ is_dir nd = false)
         ∧ ∃ anc sc, anc ≠ []
             ∧ Str.split "/" mount ++ segs = anc ++ [b; f; e; sc; seg])
  ∧ (wf_name mount = true →
     ∀ b f e seg,
       classify (walk_item (path_below mount segs, es)) = Some (b, f, e, seg)
       ↔ (∃ nd, ("POSCAR", nd) ∈ es ∧ is_dir nd = false)
         ∧ ∃ anc sc, segs = anc ++ [b; f; e; sc; seg]).
Proof.
  intros Hmount Hend Hwf Hat.
  destruct (at_path_wf _ _ _ Hwf Hat) as (Hsegs & _ & _).
  pose proof (split_path_below mount segs Hmount Hend Hsegs) as Hsplit.
  assert (∀ b f e seg,
    classify (walk_item (path_below mount segs, es)) = Some (b, f, e, seg)
    ↔ (∃ nd, ("POSCAR", nd) ∈ es ∧ is_dir nd = false)
      ∧ ∃ anc sc, anc ≠ []
          ∧ Str.split "/" mount ++ segs = anc ++ [b; f; e; sc; seg]) as Hclass.
  { intros b f e seg.
    change (walk_item (path_below mount segs, es))
      with (path_below mount segs,
            (walk_item (path_below mount segs, es)).1.2,
            (walk_item (path_below mount segs, es)).2).
    rewrite classify_spec, walk_item_poscar, Hsplit. done. }
  split_and!; [|done|done|].
  - cbn [os_walk tree_fs]. rewrite String.eqb_refl.
    rewrite (proj2 (String.eqb_neq mount "")) by done. cbn [andb negb].
    apply list_elem_of_fmap. eexists. split; [done|]. by apply at_path_listing.
  - intros [_ Hfree]%wf_name_spec b f e seg. rewrite Hclass.
    rewrite (split_no_slash mount Hfree). apply and_iff_compat_l. split.
    + intros (anc & sc & Hanc & Heq). destruct anc as [|a anc]; [done|].
      injection Heq as _ ->. by exists anc, sc.
    + intros (anc & sc & ->). by exists (mount :: anc), sc.
Qed.

Lemma X11_segments_of_a_tree_directory_witness :
  Str.split "/" (path_below "root" ["A"; "PBE"; "npt"; "1.0"; "300"])
  = Str.split "/" "root" ++ ["A"; "PBE"; "npt"; "1.0"; "300"].
Proof.
  refine (proj1 (proj2 (X11_segments_of_a_tree_directory "root" Scenario.tree
    ["A"; "PBE"; "npt"; "1.0"; "300"]
    [("POSCAR", File ""); ("00_aimd_log", File "");
     ("00_aimd_REPORT", File ""); ("01_aimd_log", File "")] _ _ _ _))).
  - discriminate.
  - reflexivity.
  - reflexivity.
  - unfold Scenario.tree, Scenario.calc_dir. cbn [map].
    repeat (eapply at_path_below; [repeat (constructor; try done)|]).
    apply at_path_here.
Defined.

(** ** The two walks together *)

Lemma take_not_nil n s : (0 < n)%nat → s ≠ "" → Str.take n s ≠ "".
Proof. intros Hn Hs. destruct n; [lia|]. by destruct s. Qed.

Lemma splitext_root_not_nil p : p ≠ "" → Py.os_path_splitext_root p ≠ "".
Proof.
  intros Hp. unfold Py.os_path_splitext_root.
  destruct (_ <? _); [|done].
  destruct (existsb _ _) eqn:Hex; [|done].
  apply existsb_exists in Hex as (i & [Hlo Hhi]%in_seq & _).
  apply take_not_nil; [lia|done].
Qed.

(** X12: with the valid names that the program computes, every structure
    of the table of a run that ends well is the name, without extension,
    of a walked file that ends in ".cif" and does not contain "_dont_use";
    the structure name is not empty and does not contain "_dont_use". *)
Theorem X12_counted_structures_have_cif fs directory calc :
  analyze_calculations fs directory (get_valid_cif_files fs directory) = Ok calc →
  ∀ f b t, is_Some (entry_at calc f b t) →
    b ≠ "" ∧ Str.contains b "_dont_use" = false
    ∧ ∃ file, file ∈ walked_files fs directory
              ∧ Str.endswith file ".cif" = true
              ∧ Str.contains file "_dont_use" = false
              ∧ b = Py.os_path_splitext_root file.
Proof.
  intros Hrun f b t Hentry. unfold analyze_calculations in Hrun.
  apply (for_each_visit_entry_iff _ _ _ _ _ f b t Hrun) in Hentry
    as [[? [=]]|([[root dirs] files] & _ & Hentered)].
  apply entered_spec in Hentered as (_ & _ & _ & _ & _ & _ & _ & _ & Hvalid).
  pose proof (valid_name_no_marker _ _ _ Hvalid) as Hmarker.
  apply get_valid_cif_files_spec in Hvalid
    as (file & Hfile & [Hcif Hm%negb_true_iff]%andb_true_iff & ->).
  split_and!; [|done|by exists file].
  apply splitext_root_not_nil. intros ->. discriminate Hcif.
Qed.

Lemma X12_counted_structures_have_cif_witness :
  "A" ≠ "" ∧ Str.contains "A" "_dont_use" = false
  ∧ ∃ file, file ∈ walked_files Scenario.fs "root"
            ∧ Str.endswith file ".cif" = true
            ∧ Str.contains file "_dont_use" = false
            ∧ "A" = Py.os_path_splitext_root file.
Proof.
  refine (X12_counted_structures_have_cif Scenario.fs "root"
    [("PBE", [("A", [(300, [("npt", [("completed", 1); ("not_started", 1)]);
                            ("nvt", [("completed", 0); ("not_started", 1)])])])])]
    _ "PBE" "A" 300 _).
  - vm_compute. reflexivity.
  - vm_compute. by eexists.
Defined.

(** ** Trees on which the program ends well *)

Lemma failure_known_ensemble valid item b f e seg :
  classify item = Some (b, f, e, seg) →
  is_ok (Py.int seg) → e = "npt" ∨ e = "nvt" →
  failure valid item = None.
Proof.
  intros Hc [t Ht] He. unfold failure. rewrite Hc, Ht.
  rewrite (bool_decide_eq_true_2 _ He). cbn [negb]. by rewrite andb_false_r.
Qed.

(** X13: a sufficient condition for a run without exception.  On a
    well-formed tree walked from a top directory given by a single name,
    when every directory that has a POSCAR file and lies five or more
    levels deep has a name made of digits and stands two levels below a
    directory named "npt" or "nvt", the analysis ends well and the report
    is printed. *)
Theorem X13_well_named_tree_runs mount t :
  wf_name mount = true → wf_node t = true →
  (∀ segs es anc b f e sc seg,
     at_path t segs es →
     (∃ nd, ("POSCAR", nd) ∈ es ∧ is_dir nd = false) →
     segs = anc ++ [b; f; e; sc; seg] →
     (seg ≠ "" ∧ Str.all_chars Str.is_digit seg = true)
     ∧ (e = "npt" ∨ e = "nvt")) →
  is_ok (main (tree_fs mount t) mount).
Proof.
  intros Hmount Hwf Hnames. apply main_ok. unfold analyze_calculations.
  destruct (proj1 (wf_name_spec mount) Hmount) as [Hne Hfree].
  apply for_each_visit_ok_iff; [apply wf_calc_nil|].
  apply Forall_forall. intros item Hitem.
  cbn [os_walk tree_fs] in Hitem. rewrite String.eqb_refl in Hitem.
  rewrite (proj2 (String.eqb_neq mount "")) in Hitem by done.
  cbn [andb negb] in Hitem.
  apply list_elem_of_fmap in Hitem as ([root es] & -> & Hin).
  apply listing_at_path in Hin as (segs & -> & Hat).
  destruct (classify (walk_item (path_below mount segs, es)))
    as [[[[b f] e] seg]|] eqn:Hc; [|unfold failure; by rewrite Hc].
  pose proof Hc as Hc'.
  change (walk_item (path_below mount segs, es))
    with (path_below mount segs,
          (walk_item (path_below mount segs, es)).1.2,
          (walk_item (path_below mount segs, es)).2) in Hc'.
  apply classify_spec in Hc' as (Hposcar%walk_item_poscar & anc & sc & Hanc & Hsplit).
  destruct (at_path_wf _ _ _ Hwf Hat) as (Hsegs & _ & _).
  rewrite split_path_below in Hsplit;
    [|done|by apply endswith_no_slash|done].
  rewrite (split_no_slash mount Hfree) in Hsplit.
  destruct anc as [|a anc]; [done|]. injection Hsplit as _ Hsegs'.
  destruct (Hnames segs es anc b f e sc seg Hat Hposcar Hsegs')
    as [[Hseg Hdigits] He].
  eapply failure_known_ensemble; [done|by apply int_digits|done].
Qed.

Lemma X13_well_named_tree_runs_witness :
  is_ok (main (tree_fs "root" one_calc_tree) "root").
Proof.
  apply (X13_well_named_tree_runs "root" one_calc_tree).
  - reflexivity.
  - reflexivity.
  - intros segs es anc b f e sc seg Hat [nd [Hposcar Hdir]] Hsegs.
    unfold one_calc_tree, Scenario.calc_dir in Hat. cbn [map] in Hat.
    repeat match goal with
    | H : at_path (Dir _) _ _ |- _ => inv H
    | H : at_path (File _) _ _ |- _ => inv H
    | H : _ ∈ [] |- _ => inv H
    | H : _ ∈ _ :: _ |- _ =>
        apply elem_of_cons in H as [H|H]; [injection H as -> ->|]
    end;
    repeat (destruct anc as [|? anc]; simplify_eq/=);
    split; [split; [discriminate|reflexivity]|by left].
Defined.

(** ** The valid names of a tree *)

Lemma tree_walked_files mount t file :
  mount ≠ "" →
  file ∈ walked_files (tree_fs mount t) mount ↔
  ∃ segs es nd, at_path t segs es ∧ (file, nd) ∈ es ∧ is_dir nd = false.
Proof.
  intros Hmount. unfold walked_files. cbn [os_walk tree_fs].
  rewrite String.eqb_refl, (proj2 (String.eqb_neq mount "")) by done.
  cbn [andb negb]. rewrite elem_of_concat. split.
  - intros (l & Hfile & Hl).
    apply list_elem_of_fmap in Hl as (item & -> & Hitem).
    apply list_elem_of_fmap in Hitem as ([root es] & -> & Hin).
    apply listing_at_path in Hin as (segs & _ & Hat).
    unfold walk_item in Hfile. cbn [fst snd] in Hfile.
    apply list_elem_of_fmap in Hfile
      as ([n nd] & -> & [Hdir Hentry]%list_elem_of_filter).
    by exists segs, es, nd.
  - intros (segs & es & nd & Hat & Hentry & Hdir).
    exists (walk_item (path_below mount segs, es)).2. split.
    + by eapply walk_item_files.
    + apply list_elem_of_fmap. eexists. split; [done|].
      apply list_elem_of_fmap. eexists. split; [done|].
      by apply at_path_listing.
Qed.

Lemma no_slash_contains s :
  Str.all_chars (λ c, negb (Ascii.eqb c "/")) s = true → Str.contains s "/" = false.
Proof.
  intros Hfree. destruct (Str.contains s "/") eqn:Hc; [|done].
  apply contains_spec in Hc as (a & b & ->).
  rewrite all_chars_app in Hfree. apply andb_true_iff in Hfree as [_ Hfree].
  str_simpl. discriminate Hfree.
Qed.

(** X14: the valid names of a tree, whatever its shape: a name is valid
    when some directory of the tree, at any depth, has an entry that is no
    directory, ends in ".cif", does not contain "_dont_use" and has that
    name without its extension.  In a well-formed tree an entry [X.cif]
    without the marker, whose [X] is not made of dots only, makes [X]
    valid wherever it lies, also when it is not a regular file. *)
Theorem X14_valid_names_of_a_tree mount t :
  mount ≠ "" →
  (∀ x, x ∈ get_valid_cif_files (tree_fs mount t) mount ↔
        ∃ segs es name nd,
          at_path t segs es ∧ (name, nd) ∈ es ∧ is_dir nd = false
          ∧ Str.endswith name ".cif" = true
          ∧ Str.contains name "_dont_use" = false
          ∧ x = Py.os_path_splitext_root name)
  ∧ (wf_node t = true →
     ∀ segs es X nd,
       at_path t segs es → (X +:+ ".cif", nd) ∈ es → is_dir nd = false →
       Str.contains (X +:+ ".cif") "_dont_use" = false →
       Str.all_chars (λ a, Ascii.eqb a ".") X = false →
       X ∈ get_valid_cif_files (tree_fs mount t) mount).
Proof.
  intros Hmount.
  assert (∀ x, x ∈ get_valid_cif_files (tree_fs mount t) mount ↔
        ∃ segs es name nd,
          at_path t segs es ∧ (name, nd) ∈ es ∧ is_dir nd = false
          ∧ Str.endswith name ".cif" = true
          ∧ Str.contains name "_dont_use" = false
          ∧ x = Py.os_path_splitext_root name) as Hspec.
  { intros x. rewrite get_valid_cif_files_spec. unfold is_valid_cif. split.
    - intros (file & (segs & es & nd & ? & ? & ?)%tree_walked_files
              & [? ?%negb_true_iff]%andb_true_iff & ?); [|done].
      by exists segs, es, file, nd.
    - intros (segs & es & name & nd & Hat & Hentry & Hdir & Hcif & Hm & ->).
      exists name. rewrite Hcif, Hm. split_and!; [|done..].
      apply tree_walked_files; [done|]. by exists segs, es, nd. }
  split; [done|].
  intros Hwf segs es X nd Hat Hentry Hdir Hm Hdots. apply Hspec.
  exists segs, es, (X +:+ ".cif"), nd. split_and!; [done..| |done|].
  - apply endswith_spec. by exists X.
  - rewrite splitext_root_cif; [done| |done].
    destruct (at_path_wf _ _ _ Hwf Hat) as (_ & _ & Hes).
    destruct (proj1 (Forall_forall _ _) Hes _ Hentry) as [Hname _].
    cbn [fst] in Hname. apply wf_name_spec in Hname as [_ Hfree].
    rewrite all_chars_app in Hfree. apply andb_true_iff in Hfree as [Hfree _].
    by apply no_slash_contains.
Qed.

Lemma X14_valid_names_of_a_tree_witness :
  "A" ∈ get_valid_cif_files (tree_fs "root" Scenario.tree) "root" ↔
  ∃ segs es name nd,
    at_path Scenario.tree segs es ∧ (name, nd) ∈ es ∧ is_dir nd = false
    ∧ Str.endswith name ".cif" = true
    ∧ Str.contains name "_dont_use" = false
    ∧ "A" = Py.os_path_splitext_root name.
Proof.
  refine (proj1 (X14_valid_names_of_a_tree "root" Scenario.tree _) "A").
  discriminate.
Defined.
